(** * CloudStorage backend: a shallow embedding of the upload, download and
    lifecycle core, with the properties of its specification.

    Conventions of the embedding.
    - A JavaScript string is a [string]; its code units are the [ascii]
      characters (HTTP header values and file names are read as Latin-1).
    - A JavaScript number that holds a byte count, an index or a time stamp is
      a [Z]; [NaN] is [None] in an [option Z].
    - A [Date] is its epoch time in milliseconds ([Z]).
    - A thrown error is the [Throw] case of [result]; code that writes to a
      store before it throws returns the store as it left it.
    - MongoDB collections and Redis key spaces are finite maps ([gmap]). *)

From Stdlib Require Import ZArith Ascii String List Lia Bool.
From stdpp Require Import gmap strings list pretty sorting.

Local Open Scope Z_scope.

(** ** Errors (utils/errors.js) *)

Module Errors.

Inductive ErrorCode :=
| INTERNAL_ERROR | VALIDATION_ERROR | AUTHENTICATION_ERROR | AUTHORIZATION_ERROR
| NOT_FOUND | CONFLICT | RATE_LIMIT_EXCEEDED | STORAGE_ERROR | UPLOAD_ERROR
| CHUNK_VALIDATION_ERROR | FILE_SIZE_LIMIT | SESSION_EXPIRED
| HASH_MISMATCH | ABORTED | INVALID_RANGE | UNKNOWN.

#[global] Instance ErrorCode_eq_dec : EqDecision ErrorCode.
Proof. solve_decision. Defined.

Record AppError := mkError {
  message : string;
  statusCode : Z;
  code : ErrorCode
}.

#[global] Instance AppError_eq_dec : EqDecision AppError.
Proof. solve_decision. Defined.

Definition ValidationError (msg : string) : AppError := mkError msg 400 VALIDATION_ERROR.
Definition AuthorizationError (msg : string) : AppError := mkError msg 403 AUTHORIZATION_ERROR.
Definition NotFoundError (resource : string) : AppError :=
  mkError (resource +:+ " not found") 404 NOT_FOUND.
Definition StorageError (msg : string) : AppError := mkError msg 500 STORAGE_ERROR.
(* new UploadError(message, statusCode = 400, code = 'UPLOAD_ERROR') *)
Definition UploadError (msg : string) (status : Z) (c : ErrorCode) : AppError :=
  mkError msg status c.
Definition UploadError1 (msg : string) : AppError := UploadError msg 400 UPLOAD_ERROR.
Definition ChunkValidationError (chunkIndex : Z) (reason : string) : AppError :=
  UploadError ("Chunk " +:+ pretty chunkIndex +:+ " validation failed: " +:+ reason)
              400 CHUNK_VALIDATION_ERROR.
Definition SessionExpiredError (sessionId : string) : AppError :=
  mkError "Upload session expired or not found" 410 SESSION_EXPIRED.
(* an error that a library throws and that is not an AppError: it has neither
   statusCode nor code, and the handler of index.js answers it with
   err.statusCode || 500 and err.code || 'INTERNAL_ERROR' *)
Definition ForeignError (msg : string) : AppError := mkError msg 500 INTERNAL_ERROR.

Inductive result (A : Type) :=
| Ok (a : A)
| Throw (e : AppError).
Arguments Ok {A} a.
Arguments Throw {A} e.

Definition is_ok {A} (r : result A) : bool :=
  match r with Ok _ => true | Throw _ => false end.

Definition thrown_code {A} (r : result A) : option ErrorCode :=
  match r with Ok _ => None | Throw e => Some (code e) end.

Definition ok_value {A} (r : result A) : option A :=
  match r with Ok a => Some a | Throw _ => None end.

End Errors.
Export Errors.

(** ** The JavaScript string primitives the sources call *)

Module JS.

Definition chr (n : nat) : ascii := ascii_of_nat n.

(* the one-character string holding a double quote *)
Definition dquote : string := String (chr 34) EmptyString.

Definition is_digit (c : ascii) : bool :=
  let n := nat_of_ascii c in (48 <=? n)%nat && (n <=? 57)%nat.

Definition digit_val (c : ascii) : Z := Z.of_nat (nat_of_ascii c) - 48.

(* StrWhiteSpaceChar restricted to the code units below 256:
   TAB, LF, VT, FF, CR, SP and NBSP. *)
Definition is_space (c : ascii) : bool :=
  let n := nat_of_ascii c in
  ((9 <=? n)%nat && (n <=? 13)%nat) || (n =? 32)%nat || (n =? 160)%nat.

Fixpoint trimStart (s : string) : string :=
  match s with
  | String c r => if is_space c then trimStart r else s
  | EmptyString => EmptyString
  end.

Fixpoint trimEnd (s : string) : string :=
  match s with
  | EmptyString => EmptyString
  | String c r =>
      match trimEnd r with
      | EmptyString => if is_space c then EmptyString else String c EmptyString
      | r' => String c r'
      end
  end.

(* String.prototype.trim *)
Definition trim (s : string) : string := trimEnd (trimStart s).

(* the longest prefix of decimal digits, read as a number *)
Fixpoint digits_go (s : string) (acc : Z) (seen : bool) : option Z :=
  match s with
  | String c r =>
      if is_digit c then digits_go r (10 * acc + digit_val c) true
      else if seen then Some acc else None
  | EmptyString => if seen then Some acc else None
  end.

(* parseInt(s, 10): leading white space, an optional sign, then digits;
   [None] is NaN. *)
Definition parseInt (s : string) : option Z :=
  match trimStart s with
  | String "-" r => Z.opp <$> digits_go r 0 false
  | String "+" r => digits_go r 0 false
  | t => digits_go t 0 false
  end.

(* s.startsWith(p) *)
Fixpoint startsWith (p s : string) : bool :=
  match p, s with
  | EmptyString, _ => true
  | String a p', String b s' => if decide (a = b) then startsWith p' s' else false
  | String _ _, EmptyString => false
  end.

Fixpoint drop (n : nat) (s : string) : string :=
  match n, s with
  | O, _ => s
  | S n', String _ r => drop n' r
  | S _, EmptyString => EmptyString
  end.

(* s.replace(pat, rep) with a string pattern: the first occurrence only; the
   replacement is taken as it is written (no $ patterns) *)
Fixpoint replace (pat rep s : string) : string :=
  if startsWith pat s then rep +:+ drop (String.length pat) s
  else match s with
       | String c r => String c (replace pat rep r)
       | EmptyString => EmptyString
       end.

(* s.includes(p) *)
Fixpoint includes (p s : string) : bool :=
  if startsWith p s then true
  else match s with
       | String _ r => includes p r
       | EmptyString => false
       end.

(* s.split(sep) for a one-character separator *)
Fixpoint split (sep : ascii) (s : string) : list string :=
  match s with
  | EmptyString => [EmptyString]
  | String c r =>
      if decide (c = sep) then EmptyString :: split sep r
      else match split sep r with
           | h :: t => String c h :: t
           | [] => [String c EmptyString]
           end
  end.

(* truthiness of a possibly-undefined string *)
Definition truthy (o : option string) : bool :=
  match o with
  | Some (String _ _) => true
  | _ => false
  end.

(* every character of s satisfies P *)
Fixpoint all_chars (P : ascii → bool) (s : string) : bool :=
  match s with
  | EmptyString => true
  | String a r => P a && all_chars P r
  end.

Fixpoint count_char (c : ascii) (s : string) : Z :=
  match s with
  | EmptyString => 0
  | String a r => (if decide (a = c) then 1 else 0) + count_char c r
  end.

End JS.

(** ** config/index.js: the values the core reads *)

Module Config.

Record t := mkConfig {
  chunkSize : Z;
  maxFileSizeFree : Z;
  maxFileSizePremium : Z;
  sessionTtl : Z;
  windowSeconds : Z;
  daysFree : Z;
  extensionDays : Z;
  hotToColdDays : Z;
  coldToHotDownloads : Z;
  batchSize : nat;
  maxFilenameLength : Z;
  allowedMimeTypes : list string
}.

(* the defaults of the loader *)
Definition defaults : t :=
  {| chunkSize := 10485760;
     maxFileSizeFree := 10737418240;
     maxFileSizePremium := -1;
     sessionTtl := 86400;
     windowSeconds := 60;
     daysFree := 5;
     extensionDays := 5;
     hotToColdDays := 7;
     coldToHotDownloads := 5;
     batchSize := 100;
     maxFilenameLength := 255;
     allowedMimeTypes := [] |}.

End Config.

(** ** utils/stream.js *)

Module Stream.

Record Range := mkRange { start : Z; end_ : Z }.

#[global] Instance Range_eq_dec : EqDecision Range.
Proof. solve_decision. Defined.

(* parseRange(rangeHeader, fileSize): { start, end } or null *)
Definition parseRange (rangeHeader : option string) (fileSize : Z) : option Range :=
  match rangeHeader with
  | None => None
  | Some h =>
    if negb (JS.truthy (Some h)) || negb (JS.startsWith "bytes=" h) then None
    else
      let range := JS.replace "bytes=" "" h in
      let parts := JS.split "-" range in
      let start0 : option Z := JS.parseInt (default "" (parts !! 0%nat)) in
      let end0 : option Z :=
        if JS.truthy (parts !! 1%nat)
        then JS.parseInt (default "" (parts !! 1%nat))
        else Some (fileSize - 1) in
      (* suffix range: bytes=-500 means the last 500 bytes *)
      let '(start1, end1) :=
        match start0 with
        | None => ((λ e, fileSize - e) <$> end0, Some (fileSize - 1))
        | Some _ => (start0, end0)
        end in
      match start1, end1 with
      | Some s, Some e =>
          if (s <? 0) || (e >=? fileSize) || (s >? e) then None
          else Some (mkRange s e)
      | _, _ => None
      end
  end.

Definition contentRangeHeader (s e total : Z) : string :=
  "bytes " +:+ pretty s +:+ "-" +:+ pretty e +:+ "/" +:+ pretty total.

(* the table of getMimeType *)
Definition mimeTypes : list (string * string) :=
  [ ("jpg", "image/jpeg"); ("jpeg", "image/jpeg"); ("png", "image/png");
    ("gif", "image/gif"); ("webp", "image/webp"); ("svg", "image/svg+xml");
    ("ico", "image/x-icon");
    ("pdf", "application/pdf"); ("doc", "application/msword");
    ("docx", "application/vnd.openxmlformats-officedocument.wordprocessingml.document");
    ("xls", "application/vnd.ms-excel");
    ("xlsx", "application/vnd.openxmlformats-officedocument.spreadsheetml.sheet");
    ("ppt", "application/vnd.ms-powerpoint");
    ("pptx", "application/vnd.openxmlformats-officedocument.presentationml.presentation");
    ("txt", "text/plain"); ("html", "text/html"); ("css", "text/css");
    ("js", "application/javascript"); ("json", "application/json");
    ("xml", "application/xml"); ("md", "text/markdown");
    ("zip", "application/zip"); ("rar", "application/vnd.rar");
    ("7z", "application/x-7z-compressed"); ("tar", "application/x-tar");
    ("gz", "application/gzip");
    ("mp3", "audio/mpeg"); ("wav", "audio/wav"); ("ogg", "audio/ogg");
    ("mp4", "video/mp4"); ("webm", "video/webm"); ("avi", "video/x-msvideo");
    ("mkv", "video/x-matroska");
    ("exe", "application/x-msdownload"); ("dmg", "application/x-apple-diskimage");
    ("iso", "application/x-iso9660-image") ].

Definition lower_char (c : ascii) : ascii :=
  let n := nat_of_ascii c in
  if (65 <=? n)%nat && (n <=? 90)%nat then ascii_of_nat (n + 32) else c.

(* String.prototype.toLowerCase on the letters A-Z *)
Fixpoint toLowerCase (s : string) : string :=
  match s with
  | EmptyString => EmptyString
  | String c r => String (lower_char c) (toLowerCase r)
  end.

(* what mimeTypes[ext] can be.  The table is an object literal, so besides
   its own keys it answers for the names it inherits from Object.prototype.
   The text looked up is lower-cased, and of the inherited names only two are
   written in lower case: constructor, which is the function Object, and
   __proto__, which is Object.prototype itself.  Both values are truthy. *)
Inductive MimeValue :=
| MimeString (s : string)
| ObjectFunction
| ObjectPrototype.

#[global] Instance MimeValue_eq_dec : EqDecision MimeValue.
Proof. solve_decision. Defined.

(* the text of a value, as a template literal writes it and as
   Function.prototype.toString gives it for a built-in function *)
Definition mime_text (v : MimeValue) : string :=
  match v with
  | MimeString s => s
  | ObjectFunction => "function Object() { [native code] }"
  | ObjectPrototype => "[object Object]"
  end.

(* getMimeType(filename): mimeTypes[ext] || 'application/octet-stream' for the
   lower-cased text after the last dot *)
Definition getMimeType (filename : string) : MimeValue :=
  let ext := toLowerCase (default "" (last (JS.split "." filename))) in
  match List.find (λ kv, bool_decide (kv.1 = ext)) mimeTypes with
  | Some kv => MimeString kv.2
  | None =>
      if bool_decide (ext = "constructor") then ObjectFunction
      else if bool_decide (ext = "__proto__") then ObjectPrototype
      else MimeString "application/octet-stream"
  end.

End Stream.

(** ** The records of the metadata store (models/User.js, models/File.js) *)

Module Models.

Inductive UserRole := FREE | PREMIUM | ADMIN.

#[global] Instance UserRole_eq_dec : EqDecision UserRole.
Proof. solve_decision. Defined.

Record User := mkUser {
  u_id : string;
  u_role : UserRole
}.

(* userSchema.methods.isPremiumOrAdmin / isAdmin *)
Definition isPremiumOrAdmin (u : User) : bool :=
  bool_decide (u_role u = PREMIUM) || bool_decide (u_role u = ADMIN).
Definition isAdmin (u : User) : bool := bool_decide (u_role u = ADMIN).

(* StorageTier.HOT / StorageTier.COLD *)
Inductive StorageTier := HOT | COLD.

#[global] Instance StorageTier_eq_dec : EqDecision StorageTier.
Proof. solve_decision. Defined.
#[global] Instance StorageTier_countable : Countable StorageTier.
Proof.
  refine (inj_countable' (λ t, match t with HOT => true | COLD => false end)
                         (λ b : bool, if b then HOT else COLD) _).
  by intros [].
Defined.

Inductive MigrationStatus := m_none | m_pending | m_in_progress | m_completed | m_failed.

#[global] Instance MigrationStatus_eq_dec : EqDecision MigrationStatus.
Proof. solve_decision. Defined.

Record File := mkFile {
  f_id : string;
  f_userId : string;
  f_folderId : option string;
  f_storageKey : string;
  f_originalName : string;
  f_mimeType : string;
  f_size : Z;
  f_hash : string;
  f_storageTier : StorageTier;
  f_downloads : Z;
  f_lastDownloadAt : option Z;
  f_lastAccessAt : Z;
  f_expiresAt : option Z;
  f_isPublic : bool;
  f_password : option string;
  f_isDeleted : bool;
  f_deletedAt : option Z;
  f_migrationStatus : MigrationStatus;
  f_lastMigrationAt : option Z;
  f_createdAt : Z
}.

(* query.limit(n) for n ≥ 0: the first n documents of the result, and all of
   them for n = 0, which MongoDB reads as no limit *)
Definition cursor_limit {A} (n : nat) (l : list A) : list A :=
  match n with
  | O => l
  | S _ => take n l
  end.

(* fileSchema.virtual('isExpired'): this.expiresAt && this.expiresAt < new Date() *)
Definition isExpired (now : Z) (f : File) : bool :=
  match f_expiresAt f with
  | Some e => e <? now
  | None => false
  end.

Definition set_tier_status (f : File) (t : StorageTier) (ms : MigrationStatus)
    (lm : option Z) : File :=
  mkFile (f_id f) (f_userId f) (f_folderId f) (f_storageKey f) (f_originalName f)
    (f_mimeType f) (f_size f) (f_hash f) t (f_downloads f) (f_lastDownloadAt f)
    (f_lastAccessAt f) (f_expiresAt f) (f_isPublic f) (f_password f) (f_isDeleted f)
    (f_deletedAt f) ms lm (f_createdAt f).

(* file.migrationStatus = s; await file.save() *)
Definition set_migrationStatus (f : File) (ms : MigrationStatus) : File :=
  set_tier_status f (f_storageTier f) ms (f_lastMigrationAt f).

(* fileSchema.methods.updateTier *)
Definition updateTier (now : Z) (f : File) (newTier : StorageTier) : File :=
  set_tier_status f newTier m_completed (Some now).

End Models.
Export Models.

(** ** services/DownloadService.js *)

Module Download.

(* Cache TTL for file metadata (5 minutes) *)
Definition METADATA_CACHE_TTL : Z := 300.

Record Metadata := mkMetadata {
  md_id : string;
  md_storageKey : string;
  md_originalName : string;
  md_mimeType : string;
  md_size : Z;
  md_storageTier : StorageTier;
  md_isPublic : bool;
  md_hasPassword : bool;
  md_userId : string;
  md_downloads : Z;
  md_createdAt : Z;
  md_expiresAt : option Z
}.

(* a Redis string key written by SETEX: the value and the instant it lapses *)
Record CacheEntry := mkEntry { ce_value : Metadata; ce_expireAt : Z }.

Record Store := mkStore {
  files : gmap string File;
  users : gmap string User;
  cache : gmap string CacheEntry
}.

Definition with_cache (c : gmap string CacheEntry) (st : Store) : Store :=
  mkStore (files st) (users st) c.

(* cacheProvider.get(key): a lapsed key is a miss *)
Definition cache_get (now : Z) (st : Store) (key : string) : option Metadata :=
  match cache st !! key with
  | Some e => if now <? ce_expireAt e then Some (ce_value e) else None
  | None => None
  end.

(* cacheProvider.set(key, value, ttl) *)
Definition cache_set (now : Z) (key : string) (v : Metadata) (ttl : Z) (st : Store) : Store :=
  with_cache (<[key := mkEntry v (now + ttl * 1000)]> (cache st)) st.

Definition cacheKey (fileId : string) : string := "file:" +:+ fileId.

(* the metadata object getFileMetadata builds from the document it has read.
   hasPassword is !!file.password, and the schema declares the password path
   with select: false, which File.findById(fileId) does not select: the
   document carries no password and the flag is false, whatever password the
   collection stores for the file *)
Definition metadata_of (file : File) : Metadata :=
  {| md_id := f_id file;
     md_storageKey := f_storageKey file;
     md_originalName := f_originalName file;
     md_mimeType := f_mimeType file;
     md_size := f_size file;
     md_storageTier := f_storageTier file;
     md_isPublic := f_isPublic file;
     md_hasPassword := false;
     md_userId := f_userId file;
     md_downloads := f_downloads file;
     md_createdAt := f_createdAt file;
     md_expiresAt := f_expiresAt file |}.

(* getFileMetadata(fileId) *)
Definition getFileMetadata (now : Z) (st : Store) (fileId : string)
    : Store * result Metadata :=
  (* Try cache first *)
  match cache_get now st (cacheKey fileId) with
  | Some cached => (st, Ok cached)
  | None =>
    (* Fetch from database *)
    match files st !! fileId with
    | None => (st, Throw (NotFoundError "File"))
    | Some file =>
      if f_isDeleted file then (st, Throw (NotFoundError "File"))
      (* Check if expired *)
      else if isExpired now file then (st, Throw (NotFoundError "File has expired"))
      else
        let metadata := metadata_of file in
        (cache_set now (cacheKey fileId) metadata METADATA_CACHE_TTL st, Ok metadata)
    end
  end.

(* _checkAccess(metadata, userId, password) *)
Definition _checkAccess (st : Store) (metadata : Metadata)
    (userId : option string) (password : option string) : result bool :=
  (* Public files without password are accessible to everyone *)
  if md_isPublic metadata && negb (md_hasPassword metadata) then Ok true
  else
    let pw_check : result bool :=
      if md_hasPassword metadata then
        if negb (JS.truthy password) then Throw (AuthorizationError "Password required")
        else match files st !! md_id metadata with
             | None => Throw (AuthorizationError "Invalid password")
             | Some file =>
                 if bool_decide (f_password file = password) then Ok true
                 else Throw (AuthorizationError "Invalid password")
             end
      else Ok true in
    match pw_check with
    | Throw e => Throw e
    | Ok _ =>
      (* Private files require ownership or admin *)
      if negb (md_isPublic metadata) then
        match userId with
        | None => Throw (AuthorizationError "Authentication required")
        | Some uid =>
            if bool_decide (md_userId metadata = uid) then Ok true
            else match users st !! uid with
                 | Some user =>
                     if isAdmin user then Ok true
                     else Throw (AuthorizationError "Access denied")
                 | None => Throw (AuthorizationError "Access denied")
                 end
        end
      else Ok true
    end.

(* what storageProvider.getStream is asked for: the blob and, for a partial
   read, the inclusive byte range *)
Record StreamRequest := mkStream {
  sr_storageKey : string;
  sr_tier : StorageTier;
  sr_range : option Stream.Range
}.

Record Headers := mkHeaders {
  h_ContentType : string;
  h_AcceptRanges : string;
  h_CacheControl : string;
  h_ETag : string;
  h_XFileId : string;
  h_XDownloadCount : Z;
  h_ContentRange : option string;
  h_ContentLength : Z
}.

(* _buildHeaders(metadata, range); Content-Disposition is left out *)
Definition _buildHeaders (metadata : Metadata) (range : option Stream.Range) : Headers :=
  {| h_ContentType := md_mimeType metadata;
     h_AcceptRanges := "bytes";
     h_CacheControl := "private, max-age=3600";
     h_ETag := JS.dquote +:+ md_id metadata +:+ "-" +:+ pretty (md_size metadata)
               +:+ JS.dquote;
     h_XFileId := md_id metadata;
     h_XDownloadCount := md_downloads metadata + 1;
     h_ContentRange :=
       (λ r, Stream.contentRangeHeader (Stream.start r) (Stream.end_ r) (md_size metadata))
         <$> range;
     h_ContentLength :=
       match range with
       | Some r => Stream.end_ r - Stream.start r + 1
       | None => md_size metadata
       end |}.

(* the fire-and-forget calls prepareDownload leaves behind *)
Inductive Task :=
| IncrementDownload (fileId : string)
| TrackBandwidth (userId : string) (bytes : Z).

Record Options := mkOptions {
  o_userId : option string;
  o_rangeHeader : option string;
  o_password : option string
}.

Record Response := mkResponse {
  r_stream : StreamRequest;
  r_headers : Headers;
  r_statusCode : Z;
  r_metadata : Metadata;
  r_tasks : list Task
}.

(* prepareDownload(fileId, options) *)
Definition prepareDownload (now : Z) (st : Store) (fileId : string) (options : Options)
    : Store * result Response :=
  (* Get file metadata *)
  match getFileMetadata now st fileId with
  | (st1, Throw e) => (st1, Throw e)
  | (st1, Ok metadata) =>
    (* Check access *)
    match _checkAccess st1 metadata (o_userId options) (o_password options) with
    | Throw e => (st1, Throw e)
    | Ok _ =>
      (* Parse range if provided *)
      let range :=
        if JS.truthy (o_rangeHeader options)
        then Stream.parseRange (o_rangeHeader options) (md_size metadata)
        else None in
      let stream := mkStream (md_storageKey metadata) (md_storageTier metadata) range in
      let headers := _buildHeaders metadata range in
      let t1 := if JS.truthy (o_rangeHeader options) then [] else [IncrementDownload fileId] in
      let t2 := match o_userId options with
                | Some uid =>
                    [TrackBandwidth uid
                       (match range with
                        | Some r => Stream.end_ r - Stream.start r + 1
                        | None => md_size metadata
                        end)]
                | None => []
                end in
      (st1, Ok {| r_stream := stream;
                  r_headers := headers;
                  r_statusCode := match range with Some _ => 206 | None => 200 end;
                  r_metadata := metadata;
                  r_tasks := t1 ++ t2 |})
    end
  end.

End Download.

(** ** middleware/security.js *)

Module Security.

Definition lower (s : string) : string := Stream.toLowerCase s.

(* a regular expression that is a literal, with or without the /i flag *)
Definition test (lit : string) (s : string) : bool := JS.includes lit s.
Definition test_i (lit : string) (s : string) : bool := JS.includes lit (lower s).

Definition backslash : string := String (JS.chr 92) EmptyString.
Definition nul : string := String (JS.chr 0) EmptyString.

(* DANGEROUS_PATTERNS, in the order of the source *)
Definition DANGEROUS_PATTERNS : list (string → bool) :=
  [ test "..";            (* Parent directory *)
    test_i "%2e%2e";      (* URL encoded .. *)
    test_i "%252e%252e";  (* Double encoded .. *)
    test backslash;       (* Backslash *)
    test_i "%5c";         (* URL encoded backslash *)
    test_i "%255c";       (* Double encoded backslash *)
    test nul;             (* Null byte *)
    test "%00" ].         (* URL encoded null byte *)

Definition dangerous (s : string) : bool :=
  existsb (λ pattern, pattern s) DANGEROUS_PATTERNS.

(* path.basename (POSIX): the last segment that is not empty *)
Definition basename (p : string) : string :=
  default "" (last (filter (λ seg, seg ≠ "") (JS.split "/" p))).

(* the class of the control characters x00-x1f and x7f *)
Definition is_control (c : ascii) : bool :=
  let n := nat_of_ascii c in (n <=? 31)%nat || (n =? 127)%nat.

(* the class of < > : double-quote / backslash | ? and the star *)
Definition is_reserved (c : ascii) : bool :=
  let n := nat_of_ascii c in
  existsb (Nat.eqb n) [60; 62; 58; 34; 47; 92; 124; 63; 42]%nat.

(* .replace(the control class, the empty string), every occurrence *)
Fixpoint remove_control (s : string) : string :=
  match s with
  | EmptyString => EmptyString
  | String c r => if is_control c then remove_control r else String c (remove_control r)
  end.

(* .replace(that class, '_'), every occurrence *)
Fixpoint replace_reserved (s : string) : string :=
  match s with
  | EmptyString => EmptyString
  | String c r => String (if is_reserved c then "_"%char else c) (replace_reserved r)
  end.

(* sanitizeFilename(filename), for config.security.maxFilenameLength = maxLen *)
Definition sanitizeFilename (maxLen : Z) (filename : string) : result string :=
  if negb (JS.truthy (Some filename)) then Throw (ValidationError "Invalid filename")
  (* Check length *)
  else if Z.of_nat (String.length filename) >? maxLen
  then Throw (ValidationError
         ("Filename too long (max " +:+ pretty maxLen +:+ " characters)"))
  (* Check for path traversal *)
  else if dangerous filename
  then Throw (ValidationError "Invalid filename: contains dangerous characters")
  else
    (* Get basename only (remove any path components) *)
    let basename := basename filename in
    (* Remove null bytes and control characters *)
    let sanitized := JS.trim (replace_reserved (remove_control basename)) in
    if negb (JS.truthy (Some sanitized)) || bool_decide (sanitized = ".")
       || bool_decide (sanitized = "..")
    then Throw (ValidationError "Invalid filename")
    else Ok sanitized.

(* a character the two replacements of sanitizeFilename leave alone *)
Definition clean (c : ascii) : bool := negb (is_control c) && negb (is_reserved c).

(* Dangerous MIME types *)
Definition DANGEROUS_MIME_TYPES : list string :=
  [ "application/x-msdownload"; "application/x-executable"; "application/x-dosexec" ].

(* list.includes(mimeType) for a list of strings: a value that is not a
   string is in no such list *)
Definition includes_mime (l : list string) (mimeType : Stream.MimeValue) : bool :=
  match mimeType with
  | Stream.MimeString s => bool_decide (s ∈ l)
  | _ => false
  end.

(* validateFileType(mimeType, filename) *)
Definition validateFileType (allowedMimeTypes : list string)
    (mimeType : Stream.MimeValue) (filename : string) : result bool :=
  (* Check against dangerous MIME types *)
  if includes_mime DANGEROUS_MIME_TYPES mimeType
  then Throw (ValidationError "File type not allowed")
  (* Check against allowed MIME types if configured *)
  else if (0 <? Z.of_nat (length allowedMimeTypes))
          && negb (includes_mime allowedMimeTypes mimeType)
  then Throw (ValidationError ("File type not allowed: " +:+ Stream.mime_text mimeType))
  else Ok true.

End Security.

(** ** models/Quota.js: bandwidth accounting *)

Module Quota.

Definition MS_PER_DAY : Z := 86400000.

(* the civil date (year, month 1..12, day 1..31) of a day number counted from
   1970-01-01, in the proleptic Gregorian calendar *)
Definition civil_from_days (days : Z) : Z * Z * Z :=
  let z := days + 719468 in
  let era := z / 146097 in
  let doe := z - era * 146097 in
  let yoe := (doe - doe / 1460 + doe / 36524 - doe / 146096) / 365 in
  let y := yoe + era * 400 in
  let doy := doe - (365 * yoe + yoe / 4 - yoe / 100) in
  let mp := (5 * doy + 2) / 153 in
  let d := doy - (153 * mp + 2) / 5 + 1 in
  let m := if mp <? 10 then mp + 3 else mp - 9 in
  (if m <=? 2 then y + 1 else y, m, d).

(* the day number of an instant, for a process whose time zone is UTC *)
Definition day_number (t : Z) : Z := t / MS_PER_DAY.

(* Date.prototype.getDate: the day of the month, 1..31 *)
Definition getDate (t : Z) : Z := snd (civil_from_days (day_number t)).
(* Date.prototype.getMonth: the month, 0..11 *)
Definition getMonth (t : Z) : Z := snd (fst (civil_from_days (day_number t))) - 1.
Definition getFullYear (t : Z) : Z := fst (fst (civil_from_days (day_number t))).

Record Bandwidth := mkBandwidth {
  daily : Z;
  monthly : Z;
  lastReset : option Z
}.

Record Limits := mkLimits {
  maxStorage : option Z;
  maxFileSize : option Z;
  maxFiles : option Z
}.

Record Quota := mkQuota {
  q_userId : string;
  q_limits : Limits;
  q_storage : Z;
  q_files : Z;
  q_bandwidth : Bandwidth;
  q_isOverQuota : bool;
  q_overQuotaSince : option Z
}.

(* Quota.create({ userId }): the schema defaults *)
Definition create (now : Z) (userId : string) : Quota :=
  mkQuota userId (mkLimits None None None) 0 0 (mkBandwidth 0 0 (Some now)) false None.

Definition with_bandwidth (b : Bandwidth) (q : Quota) : Quota :=
  mkQuota (q_userId q) (q_limits q) (q_storage q) (q_files q) b (q_isOverQuota q)
          (q_overQuotaSince q).

Inductive LimitType := MaxStorage | MaxFileSize | MaxFiles.

(* DefaultQuotas[role][limitType] *)
Definition DefaultQuotas (cfg : Config.t) (role : UserRole) (lt : LimitType) : Z :=
  match role, lt with
  | FREE, MaxStorage => 50 * 1024 * 1024 * 1024
  | FREE, MaxFileSize => Config.maxFileSizeFree cfg
  | FREE, MaxFiles => 1000
  | PREMIUM, MaxFileSize => Config.maxFileSizePremium cfg
  | PREMIUM, _ => -1
  | ADMIN, _ => -1
  end.

(* quotaSchema.methods.getEffectiveLimit(limitType) *)
Definition getEffectiveLimit (cfg : Config.t) (users : gmap string User) (q : Quota)
    (lt : LimitType) : Z :=
  let customLimit := match lt with
                     | MaxStorage => maxStorage (q_limits q)
                     | MaxFileSize => maxFileSize (q_limits q)
                     | MaxFiles => maxFiles (q_limits q)
                     end in
  match customLimit with
  | Some l => l
  | None =>
      match users !! q_userId q with
      | None => DefaultQuotas cfg FREE lt
      | Some user => DefaultQuotas cfg (u_role user) lt
      end
  end.

Inductive Reason := FILE_TOO_LARGE | STORAGE_EXCEEDED | FILE_COUNT_EXCEEDED.

Definition reason_name (r : Reason) : string :=
  match r with
  | FILE_TOO_LARGE => "FILE_TOO_LARGE"
  | STORAGE_EXCEEDED => "STORAGE_EXCEEDED"
  | FILE_COUNT_EXCEEDED => "FILE_COUNT_EXCEEDED"
  end.

(* quotaSchema.methods.canUpload(fileSize): the codes of result.reasons, in
   order; result.allowed is true exactly when there is none *)
Definition canUpload (cfg : Config.t) (users : gmap string User) (q : Quota)
    (fileSize : Z) : list Reason :=
  let maxStorage := getEffectiveLimit cfg users q MaxStorage in
  let maxFileSize := getEffectiveLimit cfg users q MaxFileSize in
  let maxFiles := getEffectiveLimit cfg users q MaxFiles in
  (* Check file size limit *)
  (if negb (maxFileSize =? -1) && (fileSize >? maxFileSize) then [FILE_TOO_LARGE] else [])
  (* Check total storage limit *)
  ++ (if negb (maxStorage =? -1) && (q_storage q + fileSize >? maxStorage)
      then [STORAGE_EXCEEDED] else [])
  (* Check file count limit *)
  ++ (if negb (maxFiles =? -1) && (q_files q >=? maxFiles)
      then [FILE_COUNT_EXCEEDED] else []).

(* quotaSchema.methods.addFile(fileSize) *)
Definition addFile (cfg : Config.t) (users : gmap string User) (now : Z) (q : Quota)
    (fileSize : Z) : Quota :=
  let storage := q_storage q + fileSize in
  let files := q_files q + 1 in
  let maxStorage := getEffectiveLimit cfg users q MaxStorage in
  if negb (maxStorage =? -1) && (storage >? maxStorage)
  then mkQuota (q_userId q) (q_limits q) storage files (q_bandwidth q) true
         (match q_overQuotaSince q with Some t => Some t | None => Some now end)
  else mkQuota (q_userId q) (q_limits q) storage files (q_bandwidth q)
         (q_isOverQuota q) (q_overQuotaSince q).

(* quotaSchema.methods.removeFile(fileSize) *)
Definition removeFile (cfg : Config.t) (users : gmap string User) (q : Quota)
    (fileSize : Z) : Quota :=
  let storage := Z.max 0 (q_storage q - fileSize) in
  let files := Z.max 0 (q_files q - 1) in
  let maxStorage := getEffectiveLimit cfg users q MaxStorage in
  if (maxStorage =? -1) || (storage <=? maxStorage)
  then mkQuota (q_userId q) (q_limits q) storage files (q_bandwidth q) false None
  else mkQuota (q_userId q) (q_limits q) storage files (q_bandwidth q)
         (q_isOverQuota q) (q_overQuotaSince q).

(* the two guards of addBandwidth *)
Definition day_guard (now : Z) (lastReset : option Z) : bool :=
  match lastReset with
  | None => true
  | Some l => negb (getDate now =? getDate l)
  end.

Definition month_guard (now : Z) (lastReset : option Z) : bool :=
  match lastReset with
  | None => true
  | Some l => negb (getMonth now =? getMonth l)
  end.

(* quotaSchema.methods.addBandwidth(bytes), run at instant [now] *)
Definition addBandwidth (now : Z) (q : Quota) (bytes : Z) : Quota :=
  let b := q_bandwidth q in
  let b1 :=
    (* Reset daily counter if needed *)
    if day_guard now (lastReset b) then
      let monthly1 :=
        (* Reset monthly if new month *)
        if month_guard now (lastReset b) then 0 else monthly b in
      mkBandwidth 0 monthly1 (Some now)
    else b in
  with_bandwidth (mkBandwidth (daily b1 + bytes) (monthly b1 + bytes) (lastReset b1)) q.

(* what the specification asks for: the calendar day, or the calendar month,
   of the two instants differ *)
Definition day_changed (now last : Z) : bool :=
  negb (day_number now =? day_number last).

Definition month_changed (now last : Z) : bool :=
  negb ((getFullYear now =? getFullYear last) && (getMonth now =? getMonth last)).

End Quota.

(** ** middleware/rateLimiter.js *)

Module RateLimiter.

Inductive RateLimitType := UPLOAD | DOWNLOAD | AUTH.

Definition type_name (t : RateLimitType) : string :=
  match t with UPLOAD => "upload" | DOWNLOAD => "download" | AUTH => "auth" end.

(* a Redis sorted set: member to score, and the instant the key lapses *)
Record ZSet := mkZSet {
  members : gmap string Z;
  expireAt : option Z
}.

(* the Redis key space of the cache client, sorted sets only *)
Definition Redis := gmap string ZSet.

Definition live_members (now : Z) (db : gmap string ZSet) (key : string) : gmap string Z :=
  match db !! key with
  | Some zs =>
      match expireAt zs with
      | Some t => if now <? t then members zs else ∅
      | None => members zs
      end
  | None => ∅
  end.

(* ZREMRANGEBYSCORE key min max: both bounds are inclusive *)
Definition zremrangebyscore (lo hi : Z) (m : gmap string Z) : gmap string Z :=
  filter (λ kv, ¬ (lo ≤ kv.2 ∧ kv.2 ≤ hi)) m.

(* ZCARD *)
Definition zcard (m : gmap string Z) : Z := Z.of_nat (size m).

(* ZADD key score member *)
Definition zadd (score : Z) (member : string) (m : gmap string Z) : gmap string Z :=
  <[member := score]> m.

(* ZRANGE key 0 0 WITHSCORES: the score of the first element, if any *)
Definition zrange_first_score (m : gmap string Z) : option Z :=
  match (map_to_list m).*2 with
  | [] => None
  | s :: rest => Some (foldr Z.min s rest)
  end.

(* Math.ceil(a / 1000) for an integer a *)
Definition ceil_div_1000 (a : Z) : Z := - ((- a) / 1000).

Record Verdict := mkVerdict {
  allowed : bool;
  remaining : Z;
  retryAfter : Z;
  limit : Z
}.

Definition rl_key (type : RateLimitType) (identifier : string) : string :=
  "ratelimit:" +:+ type_name type +:+ ":" +:+ identifier.

(* the member of the current request: now, a colon, the text of Math.random() *)
Definition entry (now : Z) (rnd : string) : string := pretty now +:+ ":" +:+ rnd.

(* the four commands of the pipeline, in order; the count is the reply of ZCARD *)
Definition run_pipeline (now : Z) (rnd : string) (db : gmap string ZSet)
    (key : string) (windowSeconds : Z) : gmap string ZSet * Z :=
  let windowStart := now - windowSeconds * 1000 in
  (* Remove old entries outside the window *)
  let m1 := zremrangebyscore 0 windowStart (live_members now db key) in
  (* Count entries in current window *)
  let count := zcard m1 in
  (* Add current request *)
  let m2 := zadd now (entry now rnd) m1 in
  (* Set expiry on the key *)
  (<[key := mkZSet m2 (Some (now + windowSeconds * 1000))]> db, count).

(* checkRateLimit(identifier, type, limit, windowSeconds); [reachable] is
   false when a Redis command rejects, which the catch block turns into an
   allowed verdict *)
Definition checkRateLimit (reachable : bool) (now : Z) (rnd : string)
    (db : gmap string ZSet) (identifier : string) (type : RateLimitType)
    (limit windowSeconds : Z) : gmap string ZSet * Verdict :=
  if negb reachable then (db, mkVerdict true limit 0 limit)
  else
    let key := rl_key type identifier in
    let '(db1, count) := run_pipeline now rnd db key windowSeconds in
    if count >=? limit then
      (* Calculate retry after *)
      let retryAfter :=
        match zrange_first_score (live_members now db1 key) with
        | Some oldest => ceil_div_1000 (oldest + windowSeconds * 1000 - now)
        | None => windowSeconds
        end in
      (db1, mkVerdict false 0 (Z.max 1 retryAfter) limit)
    else (db1, mkVerdict true (limit - count - 1) 0 limit).

End RateLimiter.

(** ** The storage backend (providers/storage) *)

Module Storage.

Record t := mkStorage {
  chunks : gmap (string * Z) (list Byte.byte);
  blobs : gmap (StorageTier * string) (list Byte.byte)
}.

Definition with_chunks (c : gmap (string * Z) (list Byte.byte)) (s : t) : t :=
  mkStorage c (blobs s).
Definition with_blobs (b : gmap (StorageTier * string) (list Byte.byte)) (s : t) : t :=
  mkStorage (chunks s) b.

(** Modelled from the spec: providers/storage is not among the sources.
    [writeChunk(sessionId, chunkIndex, bytes)] stores the chunk in the staging
    area under [<sessionId>/<chunkIndex>]. *)
Definition writeChunk (sessionId : string) (chunkIndex : Z) (bytes : list Byte.byte)
    (s : t) : t :=
  with_chunks (<[(sessionId, chunkIndex) := bytes]> (chunks s)) s.

(** Modelled from the spec: [deleteChunks(sessionId)] removes the staging
    directory of the session. *)
Definition deleteChunks (sessionId : string) (s : t) : t :=
  with_chunks (filter (λ kv, kv.1.1 ≠ sessionId) (chunks s)) s.

(** Modelled from the spec: the chunks [0 .. totalChunks-1] of a session in
    index order, or nothing when one of them is missing. *)
Fixpoint read_chunks (s : t) (sessionId : string) (from : Z) (n : nat)
    : option (list Byte.byte) :=
  match n with
  | O => Some []
  | S n' =>
      match chunks s !! (sessionId, from) with
      | None => None
      | Some c => (λ rest, c ++ rest) <$> read_chunks s sessionId (from + 1) n'
      end
  end.

(** Modelled from the spec: [assembleChunks(sessionId, storageKey, totalChunks,
    tier)] streams the chunks in index order into the destination object and
    returns its size and the SHA-256 of what it wrote; on any failure the
    partial destination is removed before the error propagates. *)
Definition assembleChunks (sha256 : list Byte.byte → string) (sessionId storageKey : string)
    (totalChunks : Z) (tier : StorageTier) (s : t) : t * result (Z * string) :=
  match read_chunks s sessionId 0 (Z.to_nat totalChunks) with
  | Some data =>
      (with_blobs (<[(tier, storageKey) := data]> (blobs s)) s,
       Ok (Z.of_nat (length data), sha256 data))
  | None =>
      (with_blobs (delete (tier, storageKey) (blobs s)) s,
       Throw (StorageError "Failed to assemble chunks"))
  end.

(** Modelled from the spec: [delete(storageKey, tier)] removes the blob. *)
Definition delete_blob (storageKey : string) (tier : StorageTier) (s : t) : t :=
  with_blobs (delete (tier, storageKey) (blobs s)) s.

(** Modelled from the spec: [migrate(storageKey, sourceTier, targetTier)] moves
    the blob to the target tier and removes the source only after the target
    exists; a missing source is a typed error. *)
Definition migrate (storageKey : string) (sourceTier targetTier : StorageTier) (s : t)
    : t * result unit :=
  match blobs s !! (sourceTier, storageKey) with
  | Some data =>
      (with_blobs (delete (sourceTier, storageKey)
                     (<[(targetTier, storageKey) := data]> (blobs s))) s, Ok tt)
  | None => (s, Throw (StorageError "Source file not found"))
  end.

End Storage.

(** ** services/StorageTierService.js and the migration worker *)

Module Tier.

Record World := mkWorld {
  files : gmap string File;
  users : gmap string User;
  storage : Storage.t
}.

Definition with_files (f : gmap string File) (w : World) : World :=
  mkWorld f (users w) (storage w).
Definition with_storage (s : Storage.t) (w : World) : World :=
  mkWorld (files w) (users w) s.

Definition MS_PER_DAY : Z := 24 * 60 * 60 * 1000.

(* shouldMigrateToCold(file) *)
Definition shouldMigrateToCold (cfg : Config.t) (now : Z) (w : World) (file : File) : bool :=
  (* Don't migrate premium user files *)
  let user := users w !! f_userId file in
  if match user with Some u => isPremiumOrAdmin u | None => false end then false
  (* Already on cold storage *)
  else if bool_decide (f_storageTier file = COLD) then false
  else
    (* Check last access time *)
    let inactiveDays := Config.hotToColdDays cfg in
    let cutoffDate := now - inactiveDays * MS_PER_DAY in
    f_lastAccessAt file <? cutoffDate.

(* the query of File.findColdMigrationCandidates *)
Definition cold_query (now daysInactive : Z) (f : File) : bool :=
  let cutoffDate := now - daysInactive * MS_PER_DAY in
  bool_decide (f_storageTier f = HOT)
  && (f_lastAccessAt f <=? cutoffDate)
  && negb (f_isDeleted f)
  && negb (bool_decide (f_migrationStatus f = m_pending)
           || bool_decide (f_migrationStatus f = m_in_progress)).

(* the order of .sort({ lastAccessAt: 1 }) *)
Definition by_lastAccessAt (a b : File) : Prop := f_lastAccessAt a ≤ f_lastAccessAt b.

#[global] Instance by_lastAccessAt_dec a b : Decision (by_lastAccessAt a b).
Proof. unfold by_lastAccessAt. apply _. Defined.

(* File.findColdMigrationCandidates(daysInactive, limit):
   find(query).sort({ lastAccessAt: 1 }).limit(limit) *)
Definition findColdMigrationCandidates (now : Z) (coll : gmap string File)
    (daysInactive : Z) (limit : nat) : list File :=
  cursor_limit limit
    (merge_sort by_lastAccessAt
       (List.filter (cold_query now daysInactive) (map_to_list coll).*2)).

(* getColdMigrationCandidates(limit) *)
Definition getColdMigrationCandidates (cfg : Config.t) (now : Z) (w : World)
    (limit : nat) : list File :=
  findColdMigrationCandidates now (files w) (Config.hotToColdDays cfg) limit.

(* migrateFile(fileId, targetTier) *)
Definition migrateFile (now : Z) (w : World) (fileId : string) (targetTier : StorageTier)
    : World * result unit :=
  match files w !! fileId with
  | None => (w, Throw (mkError ("File not found: " +:+ fileId) 500 INTERNAL_ERROR))
  | Some file =>
    let sourceTier := f_storageTier file in
    if bool_decide (sourceTier = targetTier) then (w, Ok tt)
    else
      (* Mark as pending migration *)
      let file1 := set_migrationStatus file m_in_progress in
      let w1 := with_files (<[fileId := file1]> (files w)) w in
      (* Perform migration *)
      match Storage.migrate (f_storageKey file1) sourceTier targetTier (storage w1) with
      | (s2, Ok _) =>
          (* Update file record *)
          let file2 := updateTier now file1 targetTier in
          (with_files (<[fileId := file2]> (files w1)) (with_storage s2 w1), Ok tt)
      | (s2, Throw e) =>
          (* Mark migration as failed *)
          let file2 := set_migrationStatus file1 m_failed in
          (with_files (<[fileId := file2]> (files w1)) (with_storage s2 w1), Throw e)
      end
  end.

Record Tally := mkTally { migrated : nat; failed : nat }.

(* the loop of MigrationWorker.processColdMigrations over the candidates *)
Fixpoint migrate_all (now : Z) (w : World) (candidates : list File) (acc : Tally)
    : World * Tally :=
  match candidates with
  | [] => (w, acc)
  | file :: rest =>
      match migrateFile now w (f_id file) COLD with
      | (w1, Ok _) => migrate_all now w1 rest (mkTally (S (migrated acc)) (failed acc))
      | (w1, Throw _) => migrate_all now w1 rest (mkTally (migrated acc) (S (failed acc)))
      end
  end.

(* MigrationWorker.processColdMigrations() *)
Definition processColdMigrations (cfg : Config.t) (now : Z) (w : World) : World * Tally :=
  let candidates := getColdMigrationCandidates cfg now w (Config.batchSize cfg) in
  migrate_all now w candidates (mkTally 0 0).

End Tier.

(** ** The Folder model and services/FolderService.js *)

Module FolderTree.

Record Folder := mkFolder {
  fo_id : string;
  fo_userId : string;
  fo_name : string;
  fo_parentId : option string;
  fo_path : string;
  fo_depth : Z
}.

Definition with_path_depth (p : string) (d : Z) (f : Folder) : Folder :=
  mkFolder (fo_id f) (fo_userId f) (fo_name f) (fo_parentId f) p d.
Definition with_name (n : string) (f : Folder) : Folder :=
  mkFolder (fo_id f) (fo_userId f) n (fo_parentId f) (fo_path f) (fo_depth f).
Definition with_parentId (p : option string) (f : Folder) : Folder :=
  mkFolder (fo_id f) (fo_userId f) (fo_name f) p (fo_path f) (fo_depth f).

(* folderSchema.pre('save'): update path *)
Definition pre_save (coll : gmap string Folder) (modifiedName modifiedParentId : bool)
    (this : Folder) : Folder :=
  if modifiedName || modifiedParentId then
    match fo_parentId this with
    | Some pid =>
        match coll !! pid with
        | Some parent =>
            with_path_depth (fo_path parent +:+ "/" +:+ fo_name this)
                            (fo_depth parent + 1) this
        | None => this
        end
    | None => with_path_depth ("/" +:+ fo_name this) 0 this
    end
  else this.

(* doc.save(): the hook, then the write *)
Definition save (coll : gmap string Folder) (modifiedName modifiedParentId : bool)
    (this : Folder) : gmap string Folder * Folder :=
  let this1 := pre_save coll modifiedName modifiedParentId this in
  (<[fo_id this1 := this1]> coll, this1).

(* Model.find / Model.findOne with a filter *)
Definition find (P : Folder → bool) (coll : gmap string Folder) : list Folder :=
  List.filter P (map_to_list coll).*2.
Definition findOne (P : Folder → bool) (coll : gmap string Folder) : option Folder :=
  head (find P coll).

(* one turn of the loop of updateDescendantPaths *)
Definition update_descendant (oldPath newPath : string) (coll : gmap string Folder)
    (desc : Folder) : gmap string Folder :=
  let path := JS.replace oldPath newPath (fo_path desc) in
  let depth := Z.of_nat (length (JS.split "/" path)) - 1 in
  fst (save coll false false (with_path_depth path depth desc)).

(* folderSchema.methods.updateDescendantPaths(oldPath); the $regex
   ^<oldPath>/ is read as a literal prefix and the replacement text as it is
   written.  That is what the source does for paths without regular-expression
   operators and without a dollar sign; for a path that holds one (a dot, a
   plus sign, a parenthesis, a dollar sign) the query of the source selects
   other documents or writes other paths, and such paths are not covered. *)
Definition updateDescendantPaths (coll : gmap string Folder) (this : Folder)
    (oldPath : string) : gmap string Folder :=
  let descendants :=
    find (λ d, bool_decide (fo_userId d = fo_userId this)
               && JS.startsWith (oldPath +:+ "/") (fo_path d)) coll in
  foldl (update_descendant oldPath (fo_path this)) coll descendants.

(* the while loop of wouldCreateCircle, bounded by [fuel] turns *)
Fixpoint walk_up (fuel : nat) (coll : gmap string Folder) (thisId : string)
    (parent : option Folder) : option bool :=
  match fuel with
  | O => None
  | S n =>
      match parent with
      | None => Some false
      | Some p =>
          if bool_decide (fo_id p = thisId) then Some true
          else match fo_parentId p with
               | None => Some false
               | Some pid => walk_up n coll thisId (coll !! pid)
               end
      end
  end.

(* folderSchema.methods.wouldCreateCircle(targetParentId) *)
Definition wouldCreateCircle (fuel : nat) (coll : gmap string Folder) (this : Folder)
    (targetParentId : option string) : option bool :=
  match targetParentId with
  | None => Some false
  | Some t =>
      if bool_decide (t = fo_id this) then Some true
      else walk_up fuel coll (fo_id this) (coll !! t)
  end.

(* the class removed by _sanitizeName: the reserved characters and x00-x1f *)
Definition is_invalid (c : ascii) : bool :=
  Security.is_reserved c || (nat_of_ascii c <=? 31)%nat.

Fixpoint remove_invalid (s : string) : string :=
  match s with
  | EmptyString => EmptyString
  | String c r => if is_invalid c then remove_invalid r else String c (remove_invalid r)
  end.

(* _sanitizeName(name) *)
Definition _sanitizeName (name : string) : option string :=
  if negb (JS.truthy (Some name)) then None
  else Some (String.substring 0 255 (JS.trim (remove_invalid name))).

(* createFolder(userId, name, parentId); [newId] is the _id Folder.create draws *)
Definition createFolder (newId : string) (coll : gmap string Folder)
    (userId name : string) (parentId : option string)
    : gmap string Folder * result Folder :=
  match _sanitizeName name with
  | None | Some EmptyString => (coll, Throw (ValidationError "Folder name is required"))
  | Some sanitizedName =>
    let parent_ok :=
      match parentId with
      | Some pid =>
          bool_decide (is_Some (findOne (λ f, bool_decide (fo_id f = pid)
                                   && bool_decide (fo_userId f = userId)) coll))
      | None => true
      end in
    if negb parent_ok then (coll, Throw (NotFoundError "Parent folder"))
    else
      match findOne (λ f, bool_decide (fo_userId f = userId)
                          && bool_decide (fo_parentId f = parentId)
                          && bool_decide (fo_name f = sanitizedName)) coll with
      | Some _ => (coll, Throw (ValidationError "Folder with this name already exists"))
      | None =>
          let '(coll1, folder) :=
            save coll true true (mkFolder newId userId sanitizedName parentId "/" 0) in
          (coll1, Ok folder)
      end
  end.

(* renameFolder(userId, folderId, newName) *)
Definition renameFolder (coll : gmap string Folder) (userId folderId newName : string)
    : gmap string Folder * result Folder :=
  match findOne (λ f, bool_decide (fo_id f = folderId)
                      && bool_decide (fo_userId f = userId)) coll with
  | None => (coll, Throw (NotFoundError "Folder"))
  | Some folder =>
    match _sanitizeName newName with
    | None | Some EmptyString => (coll, Throw (ValidationError "Folder name is required"))
    | Some sanitizedName =>
      match findOne (λ f, bool_decide (fo_userId f = userId)
                          && bool_decide (fo_parentId f = fo_parentId folder)
                          && bool_decide (fo_name f = sanitizedName)
                          && negb (bool_decide (fo_id f = folderId))) coll with
      | Some _ => (coll, Throw (ValidationError "Folder with this name already exists"))
      | None =>
          let oldPath := fo_path folder in
          let '(coll1, folder1) :=
            save coll (negb (bool_decide (fo_name folder = sanitizedName))) false
                 (with_name sanitizedName folder) in
          (* Update descendant paths *)
          (updateDescendantPaths coll1 folder1 oldPath, Ok folder1)
      end
    end
  end.

(* moveFolder(userId, folderId, newParentId); [None] when the walk towards the
   root has not ended after [fuel] turns *)
Definition moveFolder (fuel : nat) (coll : gmap string Folder)
    (userId folderId : string) (newParentId : option string)
    : option (gmap string Folder * result Folder) :=
  match findOne (λ f, bool_decide (fo_id f = folderId)
                      && bool_decide (fo_userId f = userId)) coll with
  | None => Some (coll, Throw (NotFoundError "Folder"))
  | Some folder =>
    (* Can't move to self *)
    if bool_decide (newParentId = Some folderId)
    then Some (coll, Throw (ValidationError "Cannot move folder into itself"))
    else
      let target : option (result unit) :=
        match newParentId with
        | None => Some (Ok tt)
        | Some pid =>
            match findOne (λ f, bool_decide (fo_id f = pid)
                                && bool_decide (fo_userId f = userId)) coll with
            | None => Some (Throw (NotFoundError "Target folder"))
            | Some _ =>
                match wouldCreateCircle fuel coll folder newParentId with
                | None => None
                | Some true =>
                    Some (Throw (ValidationError "Cannot move folder into its own subfolder"))
                | Some false => Some (Ok tt)
                end
            end
        end in
      match target with
      | None => None
      | Some (Throw e) => Some (coll, Throw e)
      | Some (Ok _) =>
        match findOne (λ f, bool_decide (fo_userId f = userId)
                            && bool_decide (fo_parentId f = newParentId)
                            && bool_decide (fo_name f = fo_name folder)
                            && negb (bool_decide (fo_id f = folderId))) coll with
        | Some _ =>
            Some (coll, Throw (ValidationError
                    "Folder with this name already exists in target location"))
        | None =>
            let oldPath := fo_path folder in
            let '(coll1, folder1) :=
              save coll false (negb (bool_decide (fo_parentId folder = newParentId)))
                   (with_parentId newParentId folder) in
            (* Update descendant paths *)
            Some (updateDescendantPaths coll1 folder1 oldPath, Ok folder1)
        end
      end
  end.

(* the invariant of the data model: depth = count('/' in path) - 1 *)
Definition depth_ok (f : Folder) : Prop :=
  fo_depth f = JS.count_char "/" (fo_path f) - 1.

#[global] Instance depth_ok_dec f : Decision (depth_ok f).
Proof. unfold depth_ok. apply _. Defined.

End FolderTree.

(** ** utils/hash.js *)

Module Hash.

Definition hex_val (c : ascii) : option Z :=
  let n := nat_of_ascii c in
  if (48 <=? n)%nat && (n <=? 57)%nat then Some (Z.of_nat n - 48)
  else if (97 <=? n)%nat && (n <=? 102)%nat then Some (Z.of_nat n - 87)
  else if (65 <=? n)%nat && (n <=? 70)%nat then Some (Z.of_nat n - 55)
  else None.

(* Buffer.from(s, 'hex'): whole pairs of hexadecimal digits, up to the first
   pair that is not one *)
Fixpoint from_hex (s : string) : list Z :=
  match s with
  | String a (String b r) =>
      match hex_val a, hex_val b with
      | Some x, Some y => (16 * x + y) :: from_hex r
      | _, _ => []
      end
  | _ => []
  end.

(* verifyHash(actual, expected): timingSafeEqual throws on buffers of
   different lengths, which the catch block turns into false *)
Definition verifyHash (actual expected : string) : bool :=
  if negb (JS.truthy (Some actual)) || negb (JS.truthy (Some expected)) then false
  else bool_decide (from_hex (Security.lower actual) = from_hex (Security.lower expected)).

End Hash.

(** ** models/UploadSession.js *)

Module Session.

Inductive Status := pending | uploading | assembling | completed | failed | expired.

#[global] Instance Status_eq_dec : EqDecision Status.
Proof. solve_decision. Defined.

Record ChunkInfo := mkChunk {
  ci_index : Z;
  ci_size : Z;
  ci_hash : string;
  ci_completedAt : Z
}.

Record ErrorInfo := mkErrorInfo {
  ei_message : string;
  ei_code : ErrorCode;
  ei_chunkIndex : option Z
}.

Record UploadSession := mkSession {
  sessionId : string;
  userId : string;
  filename : string;
  mimeType : string;
  totalSize : Z;
  expectedHash : option string;
  folderId : option string;
  chunkSize : Z;
  totalChunks : Z;
  completedChunks : list ChunkInfo;
  status : Status;
  error : option ErrorInfo;
  fileId : option string;
  storageTier : option StorageTier;
  startedAt : Z;
  lastActivityAt : Z;
  completedAt : option Z;
  expiresAt : Z
}.

(* uploadSessionSchema.methods.markChunkComplete(index, size, hash):
   the document after the call and the value returned *)
Definition markChunkComplete (now : Z) (this : UploadSession) (index size : Z)
    (hash : string) : UploadSession * bool :=
  (* Check if already completed *)
  if existsb (λ c, ci_index c =? index) (completedChunks this) then (this, false)
  else
    (mkSession (sessionId this) (userId this) (filename this) (mimeType this)
       (totalSize this) (expectedHash this) (folderId this) (chunkSize this)
       (totalChunks this)
       (completedChunks this ++ [mkChunk index size hash now])
       uploading (error this) (fileId this) (storageTier this) (startedAt this)
       now (completedAt this) (expiresAt this),
     true).

(* startAssembly() *)
Definition startAssembly (now : Z) (this : UploadSession) : UploadSession :=
  mkSession (sessionId this) (userId this) (filename this) (mimeType this)
    (totalSize this) (expectedHash this) (folderId this) (chunkSize this)
    (totalChunks this) (completedChunks this) assembling (error this) (fileId this)
    (storageTier this) (startedAt this) now (completedAt this) (expiresAt this).

(* markCompleted(fileId, storageTier) *)
Definition markCompleted (now : Z) (this : UploadSession) (fid : string)
    (tier : StorageTier) : UploadSession :=
  mkSession (sessionId this) (userId this) (filename this) (mimeType this)
    (totalSize this) (expectedHash this) (folderId this) (chunkSize this)
    (totalChunks this) (completedChunks this) completed (error this) (Some fid)
    (Some tier) (startedAt this) (lastActivityAt this) (Some now) (expiresAt this).

(* markFailed(error, chunkIndex = null) *)
Definition markFailed (this : UploadSession) (msg : string) (c : ErrorCode)
    : UploadSession :=
  mkSession (sessionId this) (userId this) (filename this) (mimeType this)
    (totalSize this) (expectedHash this) (folderId this) (chunkSize this)
    (totalChunks this) (completedChunks this) failed
    (Some (mkErrorInfo msg c None)) (fileId this)
    (storageTier this) (startedAt this) (lastActivityAt this) (completedAt this)
    (expiresAt this).

(* the String caster that UploadSession.create applies to the path mimeType
   (Mongoose): a string is stored as it is and a function as its source text;
   a plain object is refused, and create rejects with a validation error *)
Definition cast_string (v : Stream.MimeValue) : option string :=
  match v with
  | Stream.MimeString s => Some s
  | Stream.ObjectFunction => Some (Stream.mime_text v)
  | Stream.ObjectPrototype => None
  end.

(* UploadSession.create({...}): the schema defaults fill the rest *)
Definition create (now : Z) (sid uid fname mime : string) (size : Z)
    (hash folder : option string) (csize total expires : Z) : UploadSession :=
  mkSession sid uid fname mime size hash folder csize total [] pending None None None
    now now None expires.

(* the indices recorded in the durable list *)
Definition indices (s : UploadSession) : list Z := ci_index <$> completedChunks s.

(* UploadSession.findOne({ sessionId }): the collection is kept by sessionId,
   which has a unique index; the document found carries that sessionId *)
Definition findOne (coll : gmap string UploadSession) (sid : string)
    : option UploadSession :=
  match coll !! sid with
  | Some s => if bool_decide (sessionId s = sid) then Some s else None
  | None => None
  end.

End Session.

(** ** services/UploadService.js *)

Module Upload.

Import Session.

(* Redis key prefix for upload sessions *)
Definition SESSION_PREFIX : string := "upload_session:".

(* the denormalized copy of a session that _cacheSession writes and
   _getSession returns *)
Record SessionData := mkData {
  d_sessionId : string;
  d_userId : string;
  d_filename : string;
  d_mimeType : string;
  d_totalSize : Z;
  d_expectedHash : option string;
  d_folderId : option string;
  d_chunkSize : Z;
  d_totalChunks : Z;
  d_status : Status;
  d_expiresAt : Z
}.

(* the session client: string keys written by SETEX, and sets with a TTL *)
Record Redis := mkRedis {
  strs : gmap string (SessionData * Z);
  sets : gmap string (gset Z * option Z)
}.

Record World := mkWorld {
  sessions : gmap string UploadSession;
  redis : Redis;
  storage : Storage.t;
  files : gmap string File;
  quotas : gmap string Quota.Quota;
  users : gmap string User
}.

Definition with_sessions (x : gmap string UploadSession) (w : World) : World :=
  mkWorld x (redis w) (storage w) (files w) (quotas w) (users w).
Definition with_redis (x : Redis) (w : World) : World :=
  mkWorld (sessions w) x (storage w) (files w) (quotas w) (users w).
Definition with_storage (x : Storage.t) (w : World) : World :=
  mkWorld (sessions w) (redis w) x (files w) (quotas w) (users w).
Definition with_files (x : gmap string File) (w : World) : World :=
  mkWorld (sessions w) (redis w) (storage w) x (quotas w) (users w).
Definition with_quotas (x : gmap string Quota.Quota) (w : World) : World :=
  mkWorld (sessions w) (redis w) (storage w) (files w) x (users w).

(** *** Redis commands *)

(* GET *)
Definition redis_get (now : Z) (r : Redis) (key : string) : option SessionData :=
  match strs r !! key with
  | Some (v, t) => if now <? t then Some v else None
  | None => None
  end.

(* SETEX key ttl value *)
Definition redis_setex (now : Z) (key : string) (ttl : Z) (v : SessionData) (r : Redis)
    : Redis :=
  mkRedis (<[key := (v, now + ttl * 1000)]> (strs r)) (sets r).

(* DEL k1 k2, for a string key and a set key *)
Definition redis_del (k1 k2 : string) (r : Redis) : Redis :=
  mkRedis (delete k1 (strs r)) (delete k2 (sets r)).

(* SMEMBERS *)
Definition redis_smembers (now : Z) (r : Redis) (key : string) : gset Z :=
  match sets r !! key with
  | Some (s, Some t) => if now <? t then s else ∅
  | Some (s, None) => s
  | None => ∅
  end.

(* SISMEMBER *)
Definition redis_sismember (now : Z) (r : Redis) (key : string) (m : Z) : bool :=
  bool_decide (m ∈ redis_smembers now r key).

(* SADD: a lapsed key starts again as a fresh set without a TTL *)
Definition redis_sadd (now : Z) (key : string) (m : Z) (r : Redis) : Redis :=
  let ttl := match sets r !! key with
             | Some (_, Some t) => if now <? t then Some t else None
             | _ => None
             end in
  mkRedis (strs r) (<[key := ({[m]} ∪ redis_smembers now r key, ttl)]> (sets r)).

(* EXPIRE key ttl *)
Definition redis_expire (now : Z) (key : string) (ttl : Z) (r : Redis) : Redis :=
  match sets r !! key with
  | Some (s, _) =>
      mkRedis (strs r)
        (<[key := (redis_smembers now r key, Some (now + ttl * 1000))]> (sets r))
  | None => r
  end.

(** *** The state-and-exception monad of the service methods *)

Definition M (A : Type) : Type := World → World * result A.

Definition ret {A} (a : A) : M A := λ w, (w, Ok a).
Definition throw {A} (e : AppError) : M A := λ w, (w, Throw e).
Definition bind {A B} (m : M A) (k : A → M B) : M B :=
  λ w, match m w with
       | (w1, Ok a) => k a w1
       | (w1, Throw e) => (w1, Throw e)
       end.
Definition get_world : M World := λ w, (w, Ok w).
Definition modify (f : World → World) : M unit := λ w, (f w, Ok tt).
(* try { body } catch (error) { handler(error); throw error } *)
Definition try_rethrow {A} (body : M A) (handler : AppError → World → World) : M A :=
  λ w, match body w with
       | (w1, Ok a) => (w1, Ok a)
       | (w1, Throw e) => (handler e w1, Throw e)
       end.

Notation "x <- m ;; k" := (bind m (λ x, k))
  (at level 100, m at next level, right associativity).
Notation "m ;;; k" := (bind m (λ _, k))
  (at level 100, right associativity).

Section Service.

(* crypto.createHash('md5') and crypto.createHash('sha256'), as hex digests *)
Variable md5 : list Byte.byte → string.
Variable sha256 : list Byte.byte → string.
Variable cfg : Config.t.

Definition sessionKey (sid : string) : string := SESSION_PREFIX +:+ sid.
Definition chunksKey (sid : string) : string := SESSION_PREFIX +:+ sid +:+ ":chunks".

(* _cacheSession(session) *)
Definition _cacheSession (now : Z) (session : UploadSession) : M unit :=
  let data := {| d_sessionId := sessionId session;
                 d_userId := userId session;
                 d_filename := filename session;
                 d_mimeType := mimeType session;
                 d_totalSize := totalSize session;
                 d_expectedHash := expectedHash session;
                 d_folderId := folderId session;
                 d_chunkSize := chunkSize session;
                 d_totalChunks := totalChunks session;
                 d_status := status session;
                 d_expiresAt := expiresAt session |} in
  modify (λ w, with_redis
    (redis_setex now (sessionKey (sessionId session)) (Config.sessionTtl cfg) data (redis w)) w).

(* the filter of the findOne in _getSession *)
Definition live (now : Z) (s : UploadSession) : bool :=
  (expiresAt s >? now)
  && (bool_decide (status s = pending) || bool_decide (status s = uploading)).

(* _getSession(sessionId): the session data, or null *)
Definition _getSession (now : Z) (sid : string) : M (option SessionData) :=
  w <- get_world ;;
  (* Try cache first *)
  match redis_get now (redis w) (sessionKey sid) with
  | Some data => ret (Some data)
  | None =>
    (* Fall back to DB *)
    match findOne (sessions w) sid with
    | Some dbSession =>
        if live now dbSession then
          (* Re-cache *)
          _cacheSession now dbSession ;;;
          ret (Some {| d_sessionId := sessionId dbSession;
                       d_userId := userId dbSession;
                       d_filename := filename dbSession;
                       d_mimeType := mimeType dbSession;
                       d_totalSize := totalSize dbSession;
                       d_expectedHash := expectedHash dbSession;
                       d_folderId := None;
                       d_chunkSize := chunkSize dbSession;
                       d_totalChunks := totalChunks dbSession;
                       d_status := status dbSession;
                       d_expiresAt := expiresAt dbSession |})
        else ret None
    | None => ret None
    end
  end.

(* _deleteSessionCache(sessionId) *)
Definition _deleteSessionCache (sid : string) : M unit :=
  modify (λ w, with_redis (redis_del (sessionKey sid) (chunksKey sid) (redis w)) w).

(* _isChunkUploaded(sessionId, chunkIndex) *)
Definition _isChunkUploaded (now : Z) (sid : string) (chunkIndex : Z) : M bool :=
  w <- get_world ;;
  ret (redis_sismember now (redis w) (chunksKey sid) chunkIndex).

(* _markChunkComplete(sessionId, chunkIndex, size, hash) *)
Definition _markChunkComplete (now : Z) (sid : string) (chunkIndex : Z) : M unit :=
  modify (λ w, with_redis
    (redis_expire now (chunksKey sid) (Config.sessionTtl cfg)
       (redis_sadd now (chunksKey sid) chunkIndex (redis w))) w).

(* _getCompletedChunks(sessionId): the members, parsed and sorted *)
Definition _getCompletedChunks (now : Z) (sid : string) : M (list Z) :=
  w <- get_world ;;
  ret (merge_sort Z.le (elements (redis_smembers now (redis w) (chunksKey sid)))).

(* _getExpectedChunkSize(chunkIndex, totalChunks, chunkSize, totalSize) *)
Definition _getExpectedChunkSize (chunkIndex totalChunks chunkSize totalSize : Z) : Z :=
  if chunkIndex =? totalChunks - 1 then
    (* Last chunk may be smaller; % is the remainder of truncated division *)
    let remainder := Z.rem totalSize chunkSize in
    if remainder =? 0 then chunkSize else remainder
  else chunkSize.

(* the progress report; the rounded percentage, a floating-point value, is
   left out *)
Record Progress := mkProgress {
  uploadedChunks : Z;
  p_totalChunks : Z;
  uploadedBytes : Z;
  totalBytes : Z
}.

(* _getProgress(sessionId) *)
Definition _getProgress (now : Z) (sid : string) : M (option Progress) :=
  session <- _getSession now sid ;;
  match session with
  | None => ret None
  | Some session =>
      completedChunks <- _getCompletedChunks now sid ;;
      let uploadedBytes :=
        foldl (λ acc chunkIndex,
                 acc + _getExpectedChunkSize chunkIndex (d_totalChunks session)
                         (d_chunkSize session) (d_totalSize session))
              0 completedChunks in
      ret (Some {| uploadedChunks := Z.of_nat (length completedChunks);
                   p_totalChunks := d_totalChunks session;
                   uploadedBytes := uploadedBytes;
                   totalBytes := d_totalSize session |})
  end.

Inductive ChunkStatus := already_uploaded | uploaded.

Record ChunkResult := mkChunkResult {
  cr_sessionId : string;
  cr_chunkIndex : Z;
  cr_status : ChunkStatus;
  cr_progress : option Progress
}.

(* uploadChunk(sessionId, chunkIndex, chunkData, chunkHash), for an integer
   chunkIndex.  The controller passes parseInt(req.params.chunkIndex, 10); for
   a parameter that is not a number this is NaN, which the range test of the
   source lets through (both comparisons are false) and which is not covered
   here: the indices of the model, and the members of the set of completed
   indices, are integers. *)
Definition uploadChunk (now : Z) (sid : string) (chunkIndex : Z)
    (chunkData : list Byte.byte) (chunkHash : option string) : M ChunkResult :=
  (* Get session from cache or DB *)
  session <- _getSession now sid ;;
  match session with
  | None => throw (SessionExpiredError sid)
  | Some session =>
    (* Validate chunk index *)
    if (chunkIndex <? 0) || (chunkIndex >=? d_totalChunks session)
    then throw (ChunkValidationError chunkIndex "Invalid chunk index")
    else
      (* Check if chunk already uploaded *)
      dup <- _isChunkUploaded now sid chunkIndex ;;
      if (dup : bool) then
        progress <- _getProgress now sid ;;
        ret (mkChunkResult sid chunkIndex already_uploaded progress)
      (* Validate chunk data *)
      else if bool_decide (chunkData = [])
      then throw (ChunkValidationError chunkIndex "Empty chunk data")
      (* Validate chunk hash if provided *)
      else if JS.truthy chunkHash
              && negb (Hash.verifyHash (md5 chunkData) (default "" chunkHash))
      then throw (ChunkValidationError chunkIndex "Chunk hash mismatch")
      else
        (* Validate chunk size *)
        let expectedSize :=
          _getExpectedChunkSize chunkIndex (d_totalChunks session)
            (d_chunkSize session) (d_totalSize session) in
        if negb (Z.of_nat (length chunkData) =? expectedSize)
        then throw (ChunkValidationError chunkIndex
                      ("Invalid chunk size. Expected: " +:+ pretty expectedSize
                       +:+ ", Got: " +:+ pretty (Z.of_nat (length chunkData))))
        else
          (* Store chunk *)
          modify (λ w, with_storage
                         (Storage.writeChunk sid chunkIndex chunkData (storage w)) w) ;;;
          (* Mark chunk as completed *)
          let computedHash := md5 chunkData in
          _markChunkComplete now sid chunkIndex ;;;
          (* Update MongoDB session *)
          modify (λ w,
            match findOne (sessions w) sid with
            | Some dbSession =>
                with_sessions
                  (<[sid := fst (markChunkComplete now dbSession chunkIndex
                                   (Z.of_nat (length chunkData)) computedHash)]>
                     (sessions w)) w
            | None => w
            end) ;;;
          progress <- _getProgress now sid ;;
          ret (mkChunkResult sid chunkIndex uploaded progress)
  end.

Record StatusReport := mkReport {
  sr_sessionId : string;
  sr_filename : string;
  sr_totalSize : Z;
  sr_totalChunks : Z;
  sr_completedChunks : Z;
  sr_remainingChunks : list Z;
  sr_progress : option Progress;
  sr_status : Status;
  sr_expiresAt : Z
}.

(* getUploadStatus(sessionId) *)
Definition getUploadStatus (now : Z) (sid : string) : M StatusReport :=
  session <- _getSession now sid ;;
  match session with
  | None => throw (SessionExpiredError sid)
  | Some session =>
      progress <- _getProgress now sid ;;
      completedChunks <- _getCompletedChunks now sid ;;
      let remainingChunks :=
        List.filter (λ i, negb (bool_decide (i ∈ completedChunks)))
                    (seqZ 0 (d_totalChunks session)) in
      ret {| sr_sessionId := sid;
             sr_filename := d_filename session;
             sr_totalSize := d_totalSize session;
             sr_totalChunks := d_totalChunks session;
             sr_completedChunks := Z.of_nat (length completedChunks);
             sr_remainingChunks := remainingChunks;
             sr_progress := progress;
             sr_status := d_status session;
             sr_expiresAt := d_expiresAt session |}
  end.

(* _generateChunkUrls(sessionId, totalChunks): the chunk index and the URL of
   each PUT *)
Definition _generateChunkUrls (sid : string) (totalChunks : Z) : list (Z * string) :=
  (λ i, (i, "/api/upload/chunk/" +:+ sid +:+ "/" +:+ pretty i)) <$> seqZ 0 totalChunks.

(* _generateStorageKey(userId, filename); [now] is Date.now() and [rnd] the
   six characters drawn from Math.random() *)
Definition _generateStorageKey (now : Z) (rnd : string) (uid fname : string) : string :=
  let ext := default "" (last (JS.split "." fname)) in
  uid +:+ "_" +:+ pretty now +:+ "_" +:+ rnd +:+ "." +:+ ext.

(* _getStorageTier(userId) *)
Definition _getStorageTier (uid : string) : M StorageTier :=
  w <- get_world ;;
  match users w !! uid with
  | None => ret HOT
  | Some user =>
      (* Premium users get SSD by default *)
      if isPremiumOrAdmin user then ret HOT
      (* Free users also start on SSD, migrate later if unused *)
      else ret HOT
  end.

(* _getExpiryDate(userId) *)
Definition _getExpiryDate (now : Z) (uid : string) : M (option Z) :=
  w <- get_world ;;
  match users w !! uid with
  | None => ret (Some (now + Config.daysFree cfg * 24 * 60 * 60 * 1000))
  | Some user =>
      (* Premium users don't have expiry *)
      if isPremiumOrAdmin user then ret None
      (* Free users get 5 day expiry *)
      else ret (Some (now + Config.daysFree cfg * 24 * 60 * 60 * 1000))
  end.

(* Quota.getOrCreate(userId) *)
Definition getOrCreate (now : Z) (uid : string) : M Quota.Quota :=
  w <- get_world ;;
  match quotas w !! uid with
  | Some quota => ret quota
  | None =>
      let quota := Quota.create now uid in
      modify (λ w, with_quotas (<[uid := quota]> (quotas w)) w) ;;;
      ret quota
  end.

(* dbSession.save() for the document the caller holds for [sid], when there
   is one *)
Definition save_session (sid : string) (dbSession : option UploadSession) : M unit :=
  match dbSession with
  | Some s => modify (λ w, with_sessions (<[sid := s]> (sessions w)) w)
  | None => ret tt
  end.

Record InitRequest := mkInit {
  i_filename : string;
  i_size : Z;
  i_hash : option string;
  i_mimeType : option string;
  i_folderId : option string
}.

Record InitResult := mkInitResult {
  ir_sessionId : string;
  ir_chunkSize : Z;
  ir_totalChunks : Z;
  ir_expiresAt : Z;
  ir_uploadUrls : list (Z * string)
}.

(* Math.ceil(a / b) for integers a and b with b positive (for b = 0 the
   quotient of the source is an infinity or NaN, and this definition is not
   its value) *)
Definition ceil_div (a b : Z) : Z := - ((- a) / b).

(* initializeUpload(userId, { filename, size, hash, mimeType, folderId });
   [uuid] is the value uuidv4() draws, and size is an integer (the NaN that
   the parseInt of the controller gives for a size that is not a number is
   not covered).  The message of the quota error, which formats a byte count,
   is abridged to the code of the first reason, and the message of the
   validation error of UploadSession.create to its first words. *)
Definition initializeUpload (now : Z) (uuid : string) (uid : string) (req : InitRequest)
    : M InitResult :=
  (* Validate filename *)
  match Security.sanitizeFilename (Config.maxFilenameLength cfg) (i_filename req) with
  | Throw e => throw e
  | Ok sanitizedFilename =>
    (* Determine MIME type *)
    let detectedMimeType : Stream.MimeValue :=
      if JS.truthy (i_mimeType req) then Stream.MimeString (default "" (i_mimeType req))
      else Stream.getMimeType sanitizedFilename in
    (* Validate file type *)
    match Security.validateFileType (Config.allowedMimeTypes cfg) detectedMimeType
            sanitizedFilename with
    | Throw e => throw e
    | Ok _ =>
      (* Check user quota *)
      quota <- getOrCreate now uid ;;
      w <- get_world ;;
      match Quota.canUpload cfg (users w) quota (i_size req) with
      | reason :: _ => throw (ValidationError (Quota.reason_name reason))
      | [] =>
        (* Calculate chunks *)
        let chunkSize := Config.chunkSize cfg in
        let totalChunks := ceil_div (i_size req) chunkSize in
        (* Generate session ID *)
        let sid := uuid in
        (* Create session in MongoDB for persistence *)
        match Session.cast_string detectedMimeType with
        | None => throw (ForeignError "UploadSession validation failed")
        | Some mime =>
          let session :=
            Session.create now sid uid sanitizedFilename mime (i_size req)
              (i_hash req) (if JS.truthy (i_folderId req) then i_folderId req else None)
              chunkSize totalChunks (now + Config.sessionTtl cfg * 1000) in
          save_session sid (Some session) ;;;
          (* Cache session data in Redis for fast access *)
          _cacheSession now session ;;;
          ret {| ir_sessionId := sid;
                 ir_chunkSize := chunkSize;
                 ir_totalChunks := totalChunks;
                 ir_expiresAt := expiresAt session;
                 ir_uploadUrls := _generateChunkUrls sid totalChunks |}
        end
      end
    end
  end.

Record FileDescriptor := mkDescriptor {
  fd_fileId : string;
  fd_filename : string;
  fd_size : Z;
  fd_hash : string;
  fd_mimeType : string;
  fd_downloadUrl : string;
  fd_expiresAt : option Z
}.

(* the catch block of completeUpload *)
Definition on_failure (sid : string) (dbSession : option UploadSession) (error : AppError)
    (w : World) : World :=
  (* Mark session as failed *)
  let w1 := match dbSession with
            | Some s =>
                with_sessions
                  (<[sid := markFailed s (message error) (code error)]> (sessions w)) w
            | None => w
            end in
  (* Clean up chunks *)
  with_storage (Storage.deleteChunks sid (storage w1)) w1.

(* the try block of completeUpload; [newFileId] is the _id File.create draws *)
Definition assemble_and_record (now : Z) (rnd newFileId : string) (sid uid : string)
    (session : SessionData) (dbSession : option UploadSession) : M FileDescriptor :=
  (* Generate storage key *)
  let storageKey := _generateStorageKey now rnd uid (d_filename session) in
  (* Determine storage tier based on user role *)
  tier <- _getStorageTier uid ;;
  (* Assemble chunks *)
  result <- (λ w, let '(s, r) := Storage.assembleChunks sha256 sid storageKey
                                   (d_totalChunks session) tier (storage w) in
                  (with_storage s w, r)) ;;
  let '(size, hash) := result in
  (* Verify final hash *)
  if JS.truthy (d_expectedHash session)
     && negb (Hash.verifyHash hash (default "" (d_expectedHash session)))
  then
    (* Clean up the assembled file *)
    modify (λ w, with_storage (Storage.delete_blob storageKey tier (storage w)) w) ;;;
    throw (UploadError "File hash verification failed" 400 HASH_MISMATCH)
  else
    (* Create file record *)
    expires <- _getExpiryDate now uid ;;
    let file :=
      {| f_id := newFileId; f_userId := uid; f_folderId := d_folderId session;
         f_storageKey := storageKey; f_originalName := d_filename session;
         f_mimeType := d_mimeType session; f_size := size; f_hash := hash;
         f_storageTier := tier; f_downloads := 0; f_lastDownloadAt := None;
         f_lastAccessAt := now; f_expiresAt := expires; f_isPublic := true;
         f_password := None; f_isDeleted := false; f_deletedAt := None;
         f_migrationStatus := m_none; f_lastMigrationAt := None; f_createdAt := now |} in
    modify (λ w, with_files (<[newFileId := file]> (files w)) w) ;;;
    (* Update quota *)
    quota <- getOrCreate now uid ;;
    modify (λ w, with_quotas
                   (<[uid := Quota.addFile cfg (users w) now quota size]> (quotas w)) w) ;;;
    (* Mark session as completed *)
    save_session sid ((λ s, markCompleted now s newFileId tier) <$> dbSession) ;;;
    (* Clean up Redis cache *)
    _deleteSessionCache sid ;;;
    ret {| fd_fileId := newFileId;
           fd_filename := f_originalName file;
           fd_size := f_size file;
           fd_hash := f_hash file;
           fd_mimeType := f_mimeType file;
           fd_downloadUrl := "/api/download/" +:+ newFileId;
           fd_expiresAt := f_expiresAt file |}.

(* completeUpload(sessionId, userId) *)
Definition completeUpload (now : Z) (rnd newFileId : string) (sid uid : string)
    : M FileDescriptor :=
  session <- _getSession now sid ;;
  match session with
  | None => throw (SessionExpiredError sid)
  | Some session =>
    (* Verify ownership *)
    if negb (bool_decide (d_userId session = uid))
    then throw (ValidationError "Unauthorized access to upload session")
    else
      (* Check all chunks uploaded *)
      completedChunks <- _getCompletedChunks now sid ;;
      if negb (Z.of_nat (length completedChunks) =? d_totalChunks session)
      then throw (UploadError1
                    ("Upload incomplete. "
                     +:+ pretty (d_totalChunks session - Z.of_nat (length completedChunks))
                     +:+ " chunks remaining"))
      else
        (* Update session status *)
        w <- get_world ;;
        let dbSession := startAssembly now <$> findOne (sessions w) sid in
        save_session sid dbSession ;;;
        try_rethrow (assemble_and_record now rnd newFileId sid uid session dbSession)
                    (on_failure sid dbSession)
  end.

(* abortUpload(sessionId, userId): the message of the reply *)
Definition abortUpload (now : Z) (sid uid : string) : M string :=
  session <- _getSession now sid ;;
  match session with
  | None => ret "Session not found or already expired"
  | Some session =>
    (* Verify ownership *)
    if negb (bool_decide (d_userId session = uid))
    then throw (ValidationError "Unauthorized access to upload session")
    else
      (* Clean up chunks *)
      modify (λ w, with_storage (Storage.deleteChunks sid (storage w)) w) ;;;
      (* Update MongoDB session *)
      w <- get_world ;;
      save_session sid
        ((λ s, markFailed s "Aborted by user" ABORTED) <$> findOne (sessions w) sid) ;;;
      (* Clean up Redis cache *)
      _deleteSessionCache sid ;;;
      ret "Upload aborted"
  end.

(* resumeUpload(sessionId, userId) *)
Definition resumeUpload (now : Z) (sid uid : string) : M (StatusReport * list (Z * string)) :=
  session <- _getSession now sid ;;
  match session with
  | None => throw (SessionExpiredError sid)
  | Some session =>
    (* Verify ownership *)
    if negb (bool_decide (d_userId session = uid))
    then throw (ValidationError "Unauthorized access to upload session")
    else
      status <- getUploadStatus now sid ;;
      ret (status, _generateChunkUrls sid (d_totalChunks session))
  end.

(** *** Notions used to state the properties of the service *)

(* the durable status is one of those the fallback query leaves out *)
Definition terminal (st : Status) : Prop :=
  st = assembling ∨ st = completed ∨ st = failed ∨ st = expired.

(* a durable record the fallback query of _getSession does not match *)
Definition not_live (now : Z) (s : UploadSession) : Prop :=
  terminal (status s) ∨ expiresAt s ≤ now.

(* a post of chunk [i] at instant [now] finds the session and finds the chunk
   recorded in the set of completed indices *)
Definition dup_ready (now : Z) (sid : string) (i : Z) (w : World) : Prop :=
  ∃ sd, (_getSession now sid w).2 = Ok (Some sd)
        ∧ 0 ≤ i < d_totalChunks sd
        ∧ redis_sismember now (redis w) (chunksKey sid) i = true.


(* every post of the run is a post of a recorded chunk *)
Fixpoint ready_run (ts : list Z) (sid : string) (i : Z) (data : list Byte.byte)
    (hash : option string) (w : World) : Prop :=
  match ts with
  | [] => True
  | t :: ts' =>
      dup_ready t sid i w
      ∧ ready_run ts' sid i data hash (uploadChunk t sid i data hash w).1
  end.

(* the requests of the engine, and the removal of a durable record by the TTL
   index or the cleanup worker *)
Inductive Op :=
| OpInit (now : Z) (uuid uid : string) (req : InitRequest)
| OpChunk (now : Z) (sid : string) (i : Z) (data : list Byte.byte) (hash : option string)
| OpStatus (now : Z) (sid : string)
| OpComplete (now : Z) (rnd fid sid uid : string)
| OpAbort (now : Z) (sid uid : string)
| OpResume (now : Z) (sid uid : string)
| OpPurge (sid : string).

Definition run (op : Op) (w : World) : World :=
  match op with
  | OpInit now uuid uid req => (initializeUpload now uuid uid req w).1
  | OpChunk now sid i data hash => (uploadChunk now sid i data hash w).1
  | OpStatus now sid => (getUploadStatus now sid w).1
  | OpComplete now rnd fid sid uid => (completeUpload now rnd fid sid uid w).1
  | OpAbort now sid uid => (abortUpload now sid uid w).1
  | OpResume now sid uid => (resumeUpload now sid uid w).1
  | OpPurge sid => with_sessions (delete sid (sessions w)) w
  end.

(* the stores of a fresh deployment with the users [us] *)
Definition start (us : gmap string User) : World :=
  mkWorld ∅ (mkRedis ∅ ∅) (Storage.mkStorage ∅ ∅) ∅ ∅ us.

(* uuidv4() draws an id that no store holds anything under *)
Definition fresh_id (uuid : string) (w : World) : Prop :=
  sessions w !! uuid = None
  ∧ strs (redis w) !! sessionKey uuid = None
  ∧ sets (redis w) !! chunksKey uuid = None.

(* a request as the engine can meet it in the store [w]: the id of a new
   session is fresh *)
Definition admissible (op : Op) (w : World) : Prop :=
  match op with
  | OpInit _ uuid _ _ => fresh_id uuid w
  | _ => True
  end.

Inductive reachable : World → Prop :=
| reachable_start us : reachable (start us)
| reachable_step op w : reachable w → admissible op w → reachable (run op w).








End Service.

End Upload.

(** ** Concrete stores and inputs used by the examples below *)

Module Examples.

(* a public file of 1000 bytes that expires at t = 50 s *)
Definition file1 : File :=
  {| f_id := "f1"; f_userId := "u1"; f_folderId := None; f_storageKey := "u1_1_abcdef.txt";
     f_originalName := "report.txt"; f_mimeType := "text/plain"; f_size := 1000;
     f_hash := "ab"; f_storageTier := HOT; f_downloads := 0; f_lastDownloadAt := None;
     f_lastAccessAt := 0; f_expiresAt := Some 50000; f_isPublic := true;
     f_password := None; f_isDeleted := false; f_deletedAt := None;
     f_migrationStatus := m_none; f_lastMigrationAt := None; f_createdAt := 0 |}.

Definition dl_store : Download.Store :=
  Download.mkStore {[ "f1" := file1 ]} ∅ ∅.

Definition anonymous (range : option string) : Download.Options :=
  Download.mkOptions None range None.

(* one request, 1 s old, in the download window of an anonymous client *)
Definition rl_key : string := RateLimiter.rl_key RateLimiter.DOWNLOAD "ip:10.0.0.7".
Definition rl_db : gmap string RateLimiter.ZSet :=
  {[ rl_key := RateLimiter.mkZSet {[ "59000:0.25" := 59000 ]} (Some 119000) ]}.

(* 2024-01-15T12:00:00Z and 2024-02-15T12:00:00Z *)
Definition jan15 : Z := 1705320000000.
Definition feb15 : Z := 1707998400000.
Definition quota1 : Quota.Quota :=
  Quota.mkQuota "u1" (Quota.mkLimits None None None) 0 0
    (Quota.mkBandwidth 100 1000 (Some jan15)) false None.

(* a name with a control character between two dots *)
Definition dotted : string := "a." +:+ String (JS.chr 1) ".b".

(* the folders /a and /a/b of user u1, as createFolder leaves them *)
Definition folders0 : gmap string FolderTree.Folder :=
  (FolderTree.createFolder "id2"
     (FolderTree.createFolder "id1" ∅ "u1" "a" None).1 "u1" "b" (Some "id1")).1.

(* a premium user whose only file was last read 30 days before [day30] *)
Definition day30 : Z := 30 * 86400000.
Definition premium_file : File :=
  {| f_id := "f1"; f_userId := "u1"; f_folderId := None; f_storageKey := "u1_1_abcdef.txt";
     f_originalName := "report.txt"; f_mimeType := "text/plain"; f_size := 2;
     f_hash := "ab"; f_storageTier := HOT; f_downloads := 0; f_lastDownloadAt := None;
     f_lastAccessAt := 0; f_expiresAt := None; f_isPublic := true;
     f_password := None; f_isDeleted := false; f_deletedAt := None;
     f_migrationStatus := m_none; f_lastMigrationAt := None; f_createdAt := 0 |}.
Definition tier_world : Tier.World :=
  Tier.mkWorld {[ "f1" := premium_file ]} {[ "u1" := mkUser "u1" PREMIUM ]}
    (Storage.mkStorage ∅ {[ (HOT, "u1_1_abcdef.txt") := [Byte.x01; Byte.x02] ]}).

(* a stand-in for the digests: the sum of the bytes modulo 256, in hex *)
Definition hex_digit (n : N) : ascii :=
  ascii_of_N (if (n <? 10)%N then 48 + n else 87 + n).
Definition toy_digest (data : list Byte.byte) : string :=
  let n := (foldr (λ b acc, Byte.to_N b + acc) 0 data mod 256)%N in
  String (hex_digit (n / 16)) (String (hex_digit (n mod 16)) EmptyString).

(* the default configuration with chunks of 2 bytes *)
Definition cfg2 : Config.t :=
  {| Config.chunkSize := 2;
     Config.maxFileSizeFree := 10737418240;
     Config.maxFileSizePremium := -1;
     Config.sessionTtl := 86400;
     Config.windowSeconds := 60;
     Config.daysFree := 5;
     Config.extensionDays := 5;
     Config.hotToColdDays := 7;
     Config.coldToHotDownloads := 5;
     Config.batchSize := 100;
     Config.maxFilenameLength := 255;
     Config.allowedMimeTypes := [] |}.

Definition step : Upload.Op → Upload.World → Upload.World :=
  Upload.run toy_digest toy_digest cfg2.

(* a session of 3 bytes whose expected hash, 00, is not the digest 06 of the
   bytes 1 2 3: init, then chunk 0, then chunk 1 *)
Definition bad_w1 : Upload.World :=
  step (Upload.OpInit 1000 "sid-1" "u1"
          (Upload.mkInit "a.txt" 3 (Some "00") None None)) (Upload.start ∅).
Definition bad_w2 : Upload.World :=
  step (Upload.OpChunk 1500 "sid-1" 0 [Byte.x01; Byte.x02] None) bad_w1.
Definition bad_w3 : Upload.World :=
  step (Upload.OpChunk 1600 "sid-1" 1 [Byte.x03] None) bad_w2.

(* the same upload with the expected hash 060: the digest 06 of the bytes
   1 2 3, followed by one more digit *)
Definition pad_w3 : Upload.World :=
  step (Upload.OpChunk 1600 "sid-3" 1 [Byte.x03] None)
    (step (Upload.OpChunk 1500 "sid-3" 0 [Byte.x01; Byte.x02] None)
       (step (Upload.OpInit 1000 "sid-3" "u1"
                (Upload.mkInit "a.txt" 3 (Some "060") None None)) (Upload.start ∅))).

Definition bad_data : Upload.SessionData :=
  {| Upload.d_sessionId := "sid-1"; Upload.d_userId := "u1";
     Upload.d_filename := "a.txt"; Upload.d_mimeType := "text/plain";
     Upload.d_totalSize := 3; Upload.d_expectedHash := Some "00";
     Upload.d_folderId := None; Upload.d_chunkSize := 2; Upload.d_totalChunks := 2;
     Upload.d_status := Session.pending; Upload.d_expiresAt := 86401000 |}.

(* the same upload without an expected hash, completed at t = 2 s *)
Definition ok_w3 : Upload.World :=
  step (Upload.OpChunk 1600 "sid-2" 1 [Byte.x03] None)
    (step (Upload.OpChunk 1500 "sid-2" 0 [Byte.x01; Byte.x02] None)
       (step (Upload.OpInit 1000 "sid-2" "u1"
                (Upload.mkInit "b.txt" 3 None None None)) (Upload.start ∅))).
Definition ok_w4 : Upload.World :=
  step (Upload.OpComplete 2000 "abcdef" "file-1" "sid-2" "u1") ok_w3.

End Examples.

(** ** The User model: lockout and refresh tokens *)

Module Account.

Record RefreshToken := mkToken {
  token : string;
  rt_expiresAt : Z
}.

(* the fields of a user document that the lockout and the refresh-token
   methods read and write *)
Record t := mkAccount {
  refreshTokens : list RefreshToken;
  failedLoginAttempts : Z;
  lockoutUntil : option Z
}.

(* userSchema.methods.isLockedOut *)
Definition isLockedOut (now : Z) (this : t) : bool :=
  match lockoutUntil this with
  | Some l => l >? now
  | None => false
  end.

(* userSchema.methods.incrementFailedLogins *)
Definition incrementFailedLogins (now : Z) (this : t) : t :=
  let attempts := failedLoginAttempts this + 1 in
  (* Lock account after 5 failed attempts *)
  if attempts >=? 5
  then mkAccount (refreshTokens this) attempts (Some (now + 15 * 60 * 1000))
  else mkAccount (refreshTokens this) attempts (lockoutUntil this).

(* userSchema.methods.resetFailedLogins *)
Definition resetFailedLogins (this : t) : t :=
  if (failedLoginAttempts this >? 0) || bool_decide (is_Some (lockoutUntil this))
  then mkAccount (refreshTokens this) 0 None
  else this.

(* Array.prototype.slice(-n) *)
Definition slice_last {A} (n : nat) (l : list A) : list A :=
  drop (length l - n) l.

(* userSchema.methods.addRefreshToken(token, expiresAt) *)
Definition addRefreshToken (tok : string) (expiresAt : Z) (this : t) : t :=
  (* Limit to 5 active refresh tokens per user *)
  let kept := if (5 <=? length (refreshTokens this))%nat
              then slice_last 4 (refreshTokens this)
              else refreshTokens this in
  mkAccount (kept ++ [mkToken tok expiresAt]) (failedLoginAttempts this)
            (lockoutUntil this).

(* userSchema.methods.removeRefreshToken(token) *)
Definition removeRefreshToken (tok : string) (this : t) : t :=
  mkAccount (List.filter (λ d, negb (bool_decide (token d = tok))) (refreshTokens this))
            (failedLoginAttempts this) (lockoutUntil this).

(* userSchema.methods.validateRefreshToken(token): the document after the
   call and the value returned *)
Definition validateRefreshToken (now : Z) (tok : string) (this : t) : t * bool :=
  match List.find (λ d, bool_decide (token d = tok)) (refreshTokens this) with
  | None => (this, false)
  | Some tokenDoc =>
      if rt_expiresAt tokenDoc <? now
      then (* Token expired, remove it *) (removeRefreshToken tok this, false)
      else (this, true)
  end.

(* the failures of a run of login attempts at the instants [ts], in order *)
Definition failures (ts : list Z) (this : t) : t :=
  foldl (λ u now, incrementFailedLogins now u) this ts.

End Account.

(** ** models/File.js: the methods and queries of the download and expiry paths *)

Module FileModel.

Definition MS_PER_DAY : Z := 24 * 60 * 60 * 1000.

(* fileSchema.methods.incrementDownload(extensionDays) *)
Definition incrementDownload (now extensionDays : Z) (f : File) : File :=
  let expires :=
    (* Extend expiry if set *)
    match f_expiresAt f with
    | Some e =>
        let newExpiry := now + extensionDays * MS_PER_DAY in
        if newExpiry >? e then Some newExpiry else Some e
    | None => None
    end in
  mkFile (f_id f) (f_userId f) (f_folderId f) (f_storageKey f) (f_originalName f)
    (f_mimeType f) (f_size f) (f_hash f) (f_storageTier f) (f_downloads f + 1) (Some now)
    now expires (f_isPublic f) (f_password f) (f_isDeleted f)
    (f_deletedAt f) (f_migrationStatus f) (f_lastMigrationAt f) (f_createdAt f).

(* fileSchema.methods.softDelete *)
Definition softDelete (now : Z) (f : File) : File :=
  mkFile (f_id f) (f_userId f) (f_folderId f) (f_storageKey f) (f_originalName f)
    (f_mimeType f) (f_size f) (f_hash f) (f_storageTier f) (f_downloads f)
    (f_lastDownloadAt f) (f_lastAccessAt f) (f_expiresAt f) (f_isPublic f) (f_password f)
    true (Some now) (f_migrationStatus f) (f_lastMigrationAt f) (f_createdAt f).

(* file.originalName = name *)
Definition with_originalName (name : string) (f : File) : File :=
  mkFile (f_id f) (f_userId f) (f_folderId f) (f_storageKey f) name
    (f_mimeType f) (f_size f) (f_hash f) (f_storageTier f) (f_downloads f)
    (f_lastDownloadAt f) (f_lastAccessAt f) (f_expiresAt f) (f_isPublic f) (f_password f)
    (f_isDeleted f) (f_deletedAt f) (f_migrationStatus f) (f_lastMigrationAt f)
    (f_createdAt f).

(* the query of File.findExpiredFiles: a null expiresAt does not match $lte *)
Definition expired_query (now : Z) (f : File) : bool :=
  match f_expiresAt f with
  | Some e => (e <=? now) && negb (f_isDeleted f)
  | None => false
  end.

(* the order of .sort({ expiresAt: 1 }) on documents that have an expiresAt *)
Definition by_expiresAt (a b : File) : Prop :=
  default 0 (f_expiresAt a) ≤ default 0 (f_expiresAt b).

#[global] Instance by_expiresAt_dec a b : Decision (by_expiresAt a b).
Proof. unfold by_expiresAt. apply _. Defined.

(* File.findExpiredFiles(limit):
   find(query).sort({ expiresAt: 1 }).limit(limit) *)
Definition findExpiredFiles (now : Z) (coll : gmap string File) (limit : nat)
    : list File :=
  cursor_limit limit
    (merge_sort by_expiresAt (List.filter (expired_query now) (map_to_list coll).*2)).

(* the query of File.findHotMigrationCandidates *)
Definition hot_query (now downloadThreshold : Z) (f : File) : bool :=
  let recentDate := now - 7 * MS_PER_DAY in (* Last 7 days *)
  bool_decide (f_storageTier f = COLD)
  && (f_downloads f >=? downloadThreshold)
  && match f_lastDownloadAt f with Some d => d >=? recentDate | None => false end
  && negb (f_isDeleted f)
  && negb (bool_decide (f_migrationStatus f = m_pending)
           || bool_decide (f_migrationStatus f = m_in_progress)).

(* the order of .sort({ downloads: -1 }) *)
Definition by_downloads_desc (a b : File) : Prop := f_downloads b ≤ f_downloads a.

#[global] Instance by_downloads_desc_dec a b : Decision (by_downloads_desc a b).
Proof. unfold by_downloads_desc. apply _. Defined.

(* File.findHotMigrationCandidates(downloadThreshold, limit) *)
Definition findHotMigrationCandidates (now : Z) (coll : gmap string File)
    (downloadThreshold : Z) (limit : nat) : list File :=
  cursor_limit limit
    (merge_sort by_downloads_desc
       (List.filter (hot_query now downloadThreshold) (map_to_list coll).*2)).

End FileModel.

(** ** The hot side of services/StorageTierService.js and of the worker *)

Module HotTier.

Import Tier.

(* shouldMigrateToHot(file) *)
Definition shouldMigrateToHot (cfg : Config.t) (now : Z) (file : File) : bool :=
  (* Already on hot storage *)
  if bool_decide (f_storageTier file = HOT) then false
  else
    (* Check recent download activity *)
    let downloadThreshold := Config.coldToHotDownloads cfg in
    let recentDate := now - 7 * 24 * 60 * 60 * 1000 in
    (* File has high recent download activity *)
    match f_lastDownloadAt file with
    | Some d => if d >=? recentDate then f_downloads file >=? downloadThreshold else false
    | None => false
    end.

(* getHotMigrationCandidates(limit) *)
Definition getHotMigrationCandidates (cfg : Config.t) (now : Z) (w : World)
    (limit : nat) : list File :=
  FileModel.findHotMigrationCandidates now (files w) (Config.coldToHotDownloads cfg) limit.

(* the loop of MigrationWorker.processHotMigrations over the candidates *)
Fixpoint migrate_all_hot (now : Z) (w : World) (candidates : list File) (acc : Tally)
    : World * Tally :=
  match candidates with
  | [] => (w, acc)
  | file :: rest =>
      match migrateFile now w (f_id file) HOT with
      | (w1, Ok _) => migrate_all_hot now w1 rest (mkTally (S (migrated acc)) (failed acc))
      | (w1, Throw _) => migrate_all_hot now w1 rest (mkTally (migrated acc) (S (failed acc)))
      end
  end.

(* MigrationWorker.processHotMigrations() *)
Definition processHotMigrations (cfg : Config.t) (now : Z) (w : World) : World * Tally :=
  let candidates := getHotMigrationCandidates cfg now w (Config.batchSize cfg) in
  migrate_all_hot now w candidates (mkTally 0 0).

(* MigrationWorker.run(), while the worker is running: cold first, then hot *)
Definition worker_run (cfg : Config.t) (now : Z) (w : World) : World :=
  (processHotMigrations cfg now (processColdMigrations cfg now w).1).1.

End HotTier.

(** ** DownloadService past the read path, and services/ExpiryService.js *)

Module FileOps.

Import Download.

(* the stores these methods touch: the collections and the metadata cache of
   the download service, the storage backend and the quotas *)
Record World := mkWorld {
  store : Store;
  storage : Storage.t;
  quotas : gmap string Quota.Quota
}.

Definition with_store (s : Store) (w : World) : World :=
  mkWorld s (storage w) (quotas w).
Definition with_storage (s : Storage.t) (w : World) : World :=
  mkWorld (store w) s (quotas w).
Definition with_quotas (q : gmap string Quota.Quota) (w : World) : World :=
  mkWorld (store w) (storage w) q.

(* file.save() for the document found under [fileId] *)
Definition save_file (fileId : string) (f : File) (st : Store) : Store :=
  mkStore (<[fileId := f]> (files st)) (users st) (cache st).

(* cacheProvider.delete(key) *)
Definition cache_delete (key : string) (st : Store) : Store :=
  with_cache (delete key (cache st)) st.

(* Quota.getOrCreate(userId): the quotas after the call and the document *)
Definition getOrCreate (now : Z) (uid : string) (qs : gmap string Quota.Quota)
    : gmap string Quota.Quota * Quota.Quota :=
  match qs !! uid with
  | Some quota => (qs, quota)
  | None => let quota := Quota.create now uid in (<[uid := quota]> qs, quota)
  end.

(* _incrementDownload(fileId) *)
Definition _incrementDownload (cfg : Config.t) (now : Z) (fileId : string) (w : World)
    : World :=
  match files (store w) !! fileId with
  | Some file =>
      let file1 := FileModel.incrementDownload now (Config.extensionDays cfg) file in
      (* Invalidate cache *)
      with_store (cache_delete (cacheKey fileId) (save_file fileId file1 (store w))) w
  | None => w
  end.

(* _trackBandwidth(userId, bytes) *)
Definition _trackBandwidth (now : Z) (userId : string) (bytes : Z) (w : World) : World :=
  let '(qs, quota) := getOrCreate now userId (quotas w) in
  with_quotas (<[userId := Quota.addBandwidth now quota bytes]> qs) w.

(* one of the calls prepareDownload leaves behind, run to its end *)
Definition run_task (cfg : Config.t) (now : Z) (task : Task) (w : World) : World :=
  match task with
  | IncrementDownload fileId => _incrementDownload cfg now fileId w
  | TrackBandwidth userId bytes => _trackBandwidth now userId bytes w
  end.

(* prepareDownload followed by the calls it leaves behind *)
Definition download (cfg : Config.t) (now : Z) (fileId : string) (options : Options)
    (w : World) : World * result Response :=
  match prepareDownload now (store w) fileId options with
  | (st1, Ok resp) =>
      (foldl (λ w task, run_task cfg now task w) (with_store st1 w) (r_tasks resp),
       Ok resp)
  | (st1, Throw e) => (with_store st1 w, Throw e)
  end.

(* the ownership check of deleteFile and renameFile *)
Definition may_modify (st : Store) (file : File) (userId : string) : bool :=
  if negb (bool_decide (f_userId file = userId)) then
    match users st !! userId with
    | Some user => isAdmin user
    | None => false
    end
  else true.

(* storage, soft delete, quota and cache: the steps that deleteFile and the
   internal _deleteFile of the expiry service share *)
Definition remove_file (cfg : Config.t) (now : Z) (fileId : string) (file : File)
    (w : World) : World :=
  (* Delete from storage *)
  let s1 := Storage.delete_blob (f_storageKey file) (f_storageTier file) (storage w) in
  (* Soft delete in database *)
  let st1 := save_file fileId (FileModel.softDelete now file) (store w) in
  (* Update quota *)
  let '(qs, quota) := getOrCreate now (f_userId file) (quotas w) in
  let qs1 := <[f_userId file := Quota.removeFile cfg (users st1) quota (f_size file)]> qs in
  (* Invalidate cache *)
  mkWorld (cache_delete (cacheKey fileId) st1) s1 qs1.

(* deleteFile(fileId, userId) *)
Definition deleteFile (cfg : Config.t) (now : Z) (fileId userId : string) (w : World)
    : World * result string :=
  match files (store w) !! fileId with
  | None => (w, Throw (NotFoundError "File"))
  | Some file =>
      (* Check ownership *)
      if negb (may_modify (store w) file userId)
      then (w, Throw (AuthorizationError "Access denied"))
      else (remove_file cfg now fileId file w, Ok "File deleted")
  end.

(* renameFile(fileId, userId, newFilename): the new name on success *)
Definition renameFile (fileId userId newFilename : string) (w : World)
    : World * result string :=
  match files (store w) !! fileId with
  | None => (w, Throw (NotFoundError "File"))
  | Some file =>
      (* Check ownership *)
      if negb (may_modify (store w) file userId)
      then (w, Throw (AuthorizationError "Access denied"))
      else
        (* Sanitize filename *)
        let sanitizedFilename :=
          JS.trim (String.substring 0 255 (Security.replace_reserved newFilename)) in
        if negb (JS.truthy (Some sanitizedFilename))
        then (w, Throw (NotFoundError "Invalid filename"))
        else
          (* Update file *)
          let st1 := save_file fileId
                       (FileModel.with_originalName sanitizedFilename file) (store w) in
          (* Invalidate cache *)
          (with_store (cache_delete (cacheKey fileId) st1) w, Ok sanitizedFilename)
  end.

(* ExpiryService.deleteExpiredFile(fileId): whether the reply says success *)
Definition deleteExpiredFile (cfg : Config.t) (now : Z) (fileId : string) (w : World)
    : World * bool :=
  match files (store w) !! fileId with
  | None => (w, false)
  | Some file =>
      if negb (isExpired now file) then (w, false)
      else (remove_file cfg now fileId file w, true)
  end.

Record Batch := mkBatch { processed : nat; deleted : nat; failed : nat }.

(* the loop of processExpiredBatch *)
Fixpoint delete_all (cfg : Config.t) (now : Z) (files : list File) (acc : Batch)
    (w : World) : World * Batch :=
  match files with
  | [] => (w, acc)
  | file :: rest =>
      let '(w1, success) := deleteExpiredFile cfg now (f_id file) w in
      delete_all cfg now rest
        (if success
         then mkBatch (S (processed acc)) (S (deleted acc)) (failed acc)
         else mkBatch (S (processed acc)) (deleted acc) (S (failed acc)))
        w1
  end.

(* ExpiryService.processExpiredBatch(limit) *)
Definition processExpiredBatch (cfg : Config.t) (now : Z) (limit : nat) (w : World)
    : World * Batch :=
  delete_all cfg now (FileModel.findExpiredFiles now (files (store w)) limit)
             (mkBatch 0 0 0) w.

End FileOps.

(** ** Notions used to state the further properties *)

Module Notions.

(* every undeleted file has its blob on the tier its record names *)
Definition placed (w : Tier.World) : Prop :=
  ∀ k f, Tier.files w !! k = Some f → f_isDeleted f = false →
         is_Some (Storage.blobs (Tier.storage w) !! (f_storageTier f, f_storageKey f)).

(* the unique index on storageKey *)
Definition unique_keys (w : Tier.World) : Prop :=
  ∀ k1 k2 f1 f2, Tier.files w !! k1 = Some f1 → Tier.files w !! k2 = Some f2 →
                 f_storageKey f1 = f_storageKey f2 → k1 = k2.

(* folder [a] is met after [n] steps of the walk that starts at [o] and
   follows parentId, as the loop of wouldCreateCircle does *)
Inductive on_chain (coll : gmap string FolderTree.Folder) (a : string)
    : nat → option FolderTree.Folder → Prop :=
| chain_here p : FolderTree.fo_id p = a → on_chain coll a 0 (Some p)
| chain_up n p pid :
    FolderTree.fo_id p ≠ a → FolderTree.fo_parentId p = Some pid →
    on_chain coll a n (coll !! pid) →
    on_chain coll a (S n) (Some p).

(* a run of rate-limit checks for one identifier while the store answers: the
   instant and the text of Math.random() of each request, in order *)
Fixpoint checks (reqs : list (Z * string)) (db : gmap string RateLimiter.ZSet)
    (identifier : string) (type : RateLimiter.RateLimitType) (limit windowSeconds : Z)
    : gmap string RateLimiter.ZSet * list RateLimiter.Verdict :=
  match reqs with
  | [] => (db, [])
  | (now, rnd) :: rest =>
      let '(db1, v) := RateLimiter.checkRateLimit true now rnd db identifier type limit
                         windowSeconds in
      let '(db2, vs) := checks rest db1 identifier type limit windowSeconds in
      (db2, v :: vs)
  end.

End Notions.

(** ** Concrete stores and inputs used by the further examples *)

Module Samples.

(* the store of the download examples with the blob of f1 and the quota of
   its owner, who uses 1000 bytes in one file *)
Definition quota_u1 : Quota.Quota :=
  Quota.mkQuota "u1" (Quota.mkLimits None None None) 1000 1
    (Quota.mkBandwidth 0 0 (Some 0)) false None.
Definition ops_world : FileOps.World :=
  FileOps.mkWorld Examples.dl_store
    (Storage.mkStorage ∅ {[ (HOT, "u1_1_abcdef.txt") := [Byte.x01; Byte.x02] ]})
    {[ "u1" := quota_u1 ]}.

(* a file on the cold tier, downloaded 7 times, the last time one day before
   [Examples.day30] *)
Definition cold_file : File :=
  {| f_id := "f2"; f_userId := "u2"; f_folderId := None; f_storageKey := "u2_1_abcdef.bin";
     f_originalName := "data.bin"; f_mimeType := "application/octet-stream"; f_size := 2;
     f_hash := "cd"; f_storageTier := COLD; f_downloads := 7;
     f_lastDownloadAt := Some (29 * 86400000); f_lastAccessAt := 29 * 86400000;
     f_expiresAt := None; f_isPublic := true; f_password := None; f_isDeleted := false;
     f_deletedAt := None; f_migrationStatus := m_completed;
     f_lastMigrationAt := Some (20 * 86400000); f_createdAt := 0 |}.
Definition hot_world : Tier.World :=
  Tier.mkWorld {[ "f2" := cold_file ]} {[ "u2" := mkUser "u2" FREE ]}
    (Storage.mkStorage ∅ {[ (COLD, "u2_1_abcdef.bin") := [Byte.x03; Byte.x04] ]}).

(* the cached copy of the session sid-2 of [Examples.ok_w3] *)
Definition ok_data : Upload.SessionData :=
  {| Upload.d_sessionId := "sid-2"; Upload.d_userId := "u1";
     Upload.d_filename := "b.txt"; Upload.d_mimeType := "text/plain";
     Upload.d_totalSize := 3; Upload.d_expectedHash := None;
     Upload.d_folderId := None; Upload.d_chunkSize := 2; Upload.d_totalChunks := 2;
     Upload.d_status := Session.pending; Upload.d_expiresAt := 86401000 |}.

(* a public file whose document stores a password *)
Definition secret_file : File :=
  {| f_id := "f3"; f_userId := "u1"; f_folderId := None; f_storageKey := "u1_3_abcdef.txt";
     f_originalName := "secret.txt"; f_mimeType := "text/plain"; f_size := 10;
     f_hash := "ef"; f_storageTier := HOT; f_downloads := 0; f_lastDownloadAt := None;
     f_lastAccessAt := 0; f_expiresAt := None; f_isPublic := true;
     f_password := Some "secret"; f_isDeleted := false; f_deletedAt := None;
     f_migrationStatus := m_none; f_lastMigrationAt := None; f_createdAt := 0 |}.

(* three requests of one client within two seconds *)
Definition burst : list (Z * string) := [(1000, "0.1"); (1500, "0.2"); (2000, "0.3")].

End Samples.

(** * Properties *)

(** ** Limited queries *)

Lemma cursor_limit_subseteq {A} n (l : list A) : cursor_limit n l ⊆ l.
Proof. destruct n; [done|]. apply subseteq_take. Qed.

Lemma length_cursor_limit {A} n (l : list A) :
  n ≠ 0%nat → (length (cursor_limit n l) ≤ n)%nat.
Proof. destruct n; [done|]. intros _. unfold cursor_limit. rewrite length_take. lia. Qed.

(** ** Range headers and prepareDownload *)

Section RangeProps.

Import Stream Download.

(** A range that parseRange returns lies inside the file. *)
Lemma parseRange_in_bounds h size r :
  parseRange h size = Some r → 0 ≤ start r ∧ start r ≤ end_ r ∧ end_ r < size.
Proof.
  unfold parseRange. destruct h as [h|]; [|done].
  destruct (_ || _); [done|].
  destruct (JS.parseInt _) as [s0|]; cbn zeta.
  - destruct (if JS.truthy _ then _ else _) as [e0|]; [|done].
    destruct ((s0 <? 0) || (e0 >=? size) || (s0 >? e0)) eqn:E; [done|].
    intros [= <-]; simpl. lia.
  - destruct (if JS.truthy _ then _ else _) as [e0|]; [|done]. simpl.
    destruct ((size - e0 <? 0) || (size - 1 >=? size) || (size - e0 >? size - 1)) eqn:E;
      [done|].
    intros [= <-]; simpl. lia.
Qed.

(** For a header whose two bounds are numerals a and b, parseRange rejects
    exactly when a < 0, b >= size or a > b. *)
Lemma parseRange_numeric h size a b :
  JS.startsWith "bytes=" h = true →
  let parts := JS.split "-" (JS.replace "bytes=" "" h) in
  JS.parseInt (default "" (parts !! 0%nat)) = Some a →
  JS.truthy (parts !! 1%nat) = true →
  JS.parseInt (default "" (parts !! 1%nat)) = Some b →
  parseRange (Some h) size
  = if decide (a < 0 ∨ size ≤ b ∨ b < a) then None else Some (mkRange a b).
Proof.
  intros Hp parts Ha Ht Hb. unfold parseRange. rewrite Hp.
  assert (JS.truthy (Some h) = true) as -> by (by destruct h).
  cbn [negb orb]. fold parts. rewrite Ha, Ht, Hb.
  destruct (decide _) as [H|H].
  - replace ((a <? 0) || (b >=? size) || (a >? b)) with true by lia. done.
  - replace ((a <? 0) || (b >=? size) || (a >? b)) with false by lia. done.
Qed.

(** The rejections the specification lists, on a file of 1000 bytes. *)
Example parseRange_rejects_start_after_end :
  parseRange (Some "bytes=500-100") 1000 = None.
Proof. reflexivity. Qed.

Example parseRange_rejects_end_past_size :
  parseRange (Some "bytes=0-1000") 1000 = None.
Proof. reflexivity. Qed.

Example parseRange_rejects_long_suffix :
  parseRange (Some "bytes=-2000") 1000 = None.
Proof. reflexivity. Qed.

Example parseRange_rejects_other_unit :
  parseRange (Some "items=0-5") 1000 = None.
Proof. reflexivity. Qed.

Example parseRange_accepts_scenario :
  parseRange (Some "bytes=100-199") 1000 = Some (mkRange 100 199).
Proof. reflexivity. Qed.

(** getFileMetadata and _checkAccess never raise the 416-equivalent code. *)
Lemma getFileMetadata_codes now st fileId :
  thrown_code (getFileMetadata now st fileId).2 = None
  ∨ thrown_code (getFileMetadata now st fileId).2 = Some NOT_FOUND.
Proof.
  unfold getFileMetadata.
  destruct (cache_get _ _ _); [by left|].
  destruct (files st !! fileId) as [f|]; [|by right].
  destruct (f_isDeleted f); [by right|].
  destruct (isExpired now f); [by right|by left].
Qed.

Lemma _checkAccess_codes st md uid pw :
  thrown_code (_checkAccess st md uid pw) = None
  ∨ thrown_code (_checkAccess st md uid pw) = Some AUTHORIZATION_ERROR.
Proof.
  unfold _checkAccess.
  destruct (md_isPublic md && negb (md_hasPassword md)); [by left|].
  destruct (md_hasPassword md); simpl.
  - destruct (JS.truthy pw); simpl; [|by right].
    destruct (files st !! md_id md) as [f|]; [|by right].
    destruct (bool_decide (f_password f = pw)); [|by right].
    destruct (md_isPublic md); simpl; [by left|].
    destruct uid as [u|]; [|by right].
    destruct (bool_decide (md_userId md = u)); [by left|].
    destruct (users st !! u) as [usr|]; [|by right].
    destruct (isAdmin usr); [by left|by right].
  - destruct (md_isPublic md); simpl; [by left|].
    destruct uid as [u|]; [|by right].
    destruct (bool_decide (md_userId md = u)); [by left|].
    destruct (users st !! u) as [usr|]; [|by right].
    destruct (isAdmin usr); [by left|by right].
Qed.

End RangeProps.

Section DownloadProps.

Import Stream Download.

(** prepareDownload has no path that raises INVALID_RANGE. *)
Lemma prepareDownload_never_invalid_range now st fileId opts :
  thrown_code (prepareDownload now st fileId opts).2 ≠ Some INVALID_RANGE.
Proof.
  unfold prepareDownload.
  pose proof (getFileMetadata_codes now st fileId) as Hm.
  destruct (getFileMetadata now st fileId) as [st1 [md|e]]; simpl in *.
  - pose proof (_checkAccess_codes st1 md (o_userId opts) (o_password opts)) as Ha.
    destruct (_checkAccess _ _ _ _) as [b|e]; simpl in *; [done|].
    destruct Ha as [Ha|Ha]; congruence.
  - destruct Hm as [Hm|Hm]; congruence.
Qed.

(** A partial answer always carries a range inside the file. *)
Lemma prepareDownload_206_in_bounds now st fileId opts st1 resp :
  prepareDownload now st fileId opts = (st1, Ok resp) →
  r_statusCode resp = 206 →
  ∃ r, sr_range (r_stream resp) = Some r
       ∧ 0 ≤ start r ∧ start r ≤ end_ r ∧ end_ r < md_size (r_metadata resp).
Proof.
  unfold prepareDownload.
  destruct (getFileMetadata now st fileId) as [st2 [md|e]]; [|done].
  destruct (_checkAccess _ _ _ _); [|done].
  intros [= <- <-]; simpl.
  destruct (JS.truthy (o_rangeHeader opts)); [|done].
  destruct (parseRange _ _) as [r|] eqn:E; [|done].
  intros _. exists r. split; [done|]. by apply parseRange_in_bounds in E.
Qed.

(** C1, as the code has it: when the metadata resolves, the access check
    passes and parseRange rejects the Range header, prepareDownload does not
    fail; it ignores the header and serves the whole file with status 200,
    Content-Length equal to the file size and no Content-Range. *)
Theorem prepareDownload_rejected_range_serves_full now st fileId opts st1 md :
  getFileMetadata now st fileId = (st1, Ok md) →
  is_ok (_checkAccess st1 md (o_userId opts) (o_password opts)) = true →
  parseRange (o_rangeHeader opts) (md_size md) = None →
  ∃ resp, prepareDownload now st fileId opts = (st1, Ok resp)
          ∧ r_statusCode resp = 200
          ∧ sr_range (r_stream resp) = None
          ∧ h_ContentLength (r_headers resp) = md_size md
          ∧ h_ContentRange (r_headers resp) = None.
Proof.
  intros Hm Ha Hr. unfold prepareDownload. rewrite Hm.
  destruct (_checkAccess _ _ _ _) as [b|e]; [|done].
  rewrite Hr. eexists; split; [reflexivity|]. simpl.
  by destruct (JS.truthy (o_rangeHeader opts)).
Qed.

Lemma prepareDownload_rejected_range_serves_full_witness :
  ∃ resp, prepareDownload 1000 Examples.dl_store "f1"
            (Examples.anonymous (Some "bytes=500-100"))
          = ((getFileMetadata 1000 Examples.dl_store "f1").1, Ok resp)
          ∧ r_statusCode resp = 200
          ∧ sr_range (r_stream resp) = None
          ∧ h_ContentLength (r_headers resp) = 1000
          ∧ h_ContentRange (r_headers resp) = None.
Proof.
  apply (prepareDownload_rejected_range_serves_full 1000 Examples.dl_store "f1"
           (Examples.anonymous (Some "bytes=500-100")) _
           (metadata_of Examples.file1)); reflexivity.
Defined.

(** C1 as stated fails: a Range header with a > b on a file of 1000 bytes is
    answered with status 200 and the whole file, not with INVALID_RANGE. *)
Lemma prepareDownload_invalid_range_not_rejected :
  let r := (prepareDownload 1000 Examples.dl_store "f1"
              (Examples.anonymous (Some "bytes=500-100"))).2 in
  thrown_code r ≠ Some INVALID_RANGE
  ∧ r_statusCode <$> ok_value r = Some 200
  ∧ (λ resp, sr_range (r_stream resp)) <$> ok_value r = Some None.
Proof. vm_compute. by split_and!. Qed.

(** The header with both bounds missing is not rejected either: parseRange
    reads it as a suffix range and the answer is partial. *)
Example prepareDownload_both_bounds_missing :
  r_statusCode <$> ok_value (prepareDownload 1000 Examples.dl_store "f1"
                               (Examples.anonymous (Some "bytes=-"))).2 = Some 206.
Proof. reflexivity. Qed.

(** On a cache miss an expired file is refused. *)
Lemma getFileMetadata_miss_expired now st fileId file :
  cache_get now st (cacheKey fileId) = None →
  files st !! fileId = Some file →
  isExpired now file = true →
  thrown_code (getFileMetadata now st fileId).2 = Some NOT_FOUND.
Proof.
  intros Hc Hf He. unfold getFileMetadata. rewrite Hc, Hf, He.
  by destruct (f_isDeleted file).
Qed.

(** A cache hit is returned as it is, whatever its expiresAt. *)
Lemma getFileMetadata_hit now st fileId md :
  cache_get now st (cacheKey fileId) = Some md →
  getFileMetadata now st fileId = (st, Ok md).
Proof. intros Hc. unfold getFileMetadata. by rewrite Hc. Qed.

(** C6 fails on the code.  The file expires at t = 50 s; its metadata is cached
    by a read at t = 1 s; a download at t = 100 s, inside the 300 s TTL, finds
    the cached copy and is served with status 200 although the file has
    expired. *)
Theorem prepareDownload_serves_expired_from_cache :
  let st1 := (getFileMetadata 1000 Examples.dl_store "f1").1 in
  let r := (prepareDownload 100000 st1 "f1" (Examples.anonymous None)).2 in
  isExpired 100000 Examples.file1 = true
  ∧ st1.(files) !! "f1" = Some Examples.file1
  ∧ thrown_code r ≠ Some NOT_FOUND
  ∧ r_statusCode <$> ok_value r = Some 200.
Proof. vm_compute. by split_and!. Qed.

End DownloadProps.

(** ** The sliding window of the rate limiter *)

Section RateLimitProps.

Import RateLimiter.

Lemma zremrangebyscore_lookup lo hi (m : gmap string Z) k s :
  zremrangebyscore lo hi m !! k = Some s ↔ m !! k = Some s ∧ ¬ (lo ≤ s ∧ s ≤ hi).
Proof. unfold zremrangebyscore. by rewrite map_lookup_filter_Some. Qed.

(** C7, as the code has it: whenever the store answers, the pipeline inserts
    the entry of the current request after the pruning, whether the request is
    allowed or denied; the verdict is allowed exactly when the cardinality read
    before the insertion is below the limit. *)
Theorem checkRateLimit_inserts_unconditionally now rnd (db : gmap string ZSet)
    identifier type limit windowSeconds :
  let key := RateLimiter.rl_key type identifier in
  let pruned := zremrangebyscore 0 (now - windowSeconds * 1000) (live_members now db key) in
  let out := checkRateLimit true now rnd db identifier type limit windowSeconds in
  (allowed out.2 = true ↔ zcard pruned < limit)
  ∧ members <$> (out.1 !! key) = Some (<[entry now rnd := now]> pruned)
  ∧ (members <$> (out.1 !! key)) ≫= (λ m, m !! entry now rnd) = Some now.
Proof.
  intros key pruned out. subst out. unfold checkRateLimit, run_pipeline. simpl.
  fold key. fold pruned.
  destruct (zcard pruned >=? limit) eqn:E; simpl.
  - rewrite lookup_insert_eq. simpl. unfold zadd. rewrite lookup_insert_eq.
    split_and!; [|done..]. split; [done|lia].
  - rewrite lookup_insert_eq. simpl. unfold zadd. rewrite lookup_insert_eq.
    split_and!; [|done..]. split; [lia|done].
Qed.

(** C7 as stated fails: with limit 1 and one request already in the window,
    the check is denied and the window holds two entries afterwards, the new
    one among them. *)
Lemma checkRateLimit_denied_request_is_recorded :
  let out := checkRateLimit true 60000 "0.5" Examples.rl_db "ip:10.0.0.7" DOWNLOAD 1 60 in
  allowed out.2 = false
  ∧ zcard (live_members 60000 Examples.rl_db Examples.rl_key) = 1
  ∧ live_members 60000 out.1 Examples.rl_key !! entry 60000 "0.5" = Some 60000
  ∧ zcard (live_members 60000 out.1 Examples.rl_key) = 2.
Proof. vm_compute. by split_and!. Qed.

End RateLimitProps.

(** ** Bandwidth counters *)

Section QuotaProps.

Import Quota.

(** What addBandwidth resets: the daily counter when the day-of-month numbers
    differ, the monthly counter when both the day-of-month and the month
    numbers differ. *)
Lemma addBandwidth_daily now q bytes :
  daily (q_bandwidth (addBandwidth now q bytes))
  = (if day_guard now (lastReset (q_bandwidth q)) then 0 else daily (q_bandwidth q)) + bytes.
Proof. unfold addBandwidth. by destruct (day_guard _ _). Qed.

Lemma addBandwidth_monthly now q bytes :
  monthly (q_bandwidth (addBandwidth now q bytes))
  = (if day_guard now (lastReset (q_bandwidth q)) && month_guard now (lastReset (q_bandwidth q))
     then 0 else monthly (q_bandwidth q)) + bytes.
Proof. unfold addBandwidth. by destruct (day_guard _ _), (month_guard _ _). Qed.

(** C8 fails on the code.  lastReset is 15 January 2024 and the call comes on
    15 February 2024: the day and the month have changed, the day-of-month
    number has not, and neither counter is reset. *)
Theorem addBandwidth_same_day_of_month_no_reset :
  let q := addBandwidth Examples.feb15 Examples.quota1 10 in
  day_changed Examples.feb15 Examples.jan15 = true
  ∧ month_changed Examples.feb15 Examples.jan15 = true
  ∧ getDate Examples.feb15 = getDate Examples.jan15
  ∧ daily (q_bandwidth q) = 110
  ∧ monthly (q_bandwidth q) = 1010
  ∧ lastReset (q_bandwidth q) = Some Examples.jan15.
Proof. vm_compute. by split_and!. Qed.

End QuotaProps.

(** ** Filename sanitization *)

Section SanitizeProps.

Import Security.

(** C9 fails on the code.  The control character between the two dots hides
    them from the traversal check and is removed afterwards, so the output
    holds ".." and sanitizeFilename refuses its own output. *)
Theorem sanitizeFilename_not_idempotent :
  sanitizeFilename 255 Examples.dotted = Ok "a..b"
  ∧ thrown_code (sanitizeFilename 255 "a..b") = Some VALIDATION_ERROR.
Proof. vm_compute. by split. Qed.

End SanitizeProps.

Section SanitizeClosure.

Import Security.

Lemma all_chars_trimStart P s : JS.all_chars P s = true → JS.all_chars P (JS.trimStart s) = true.
Proof.
  induction s as [|c r IH]; simpl; [done|].
  intros [Hc Hr]%andb_true_iff. destruct (JS.is_space c); [by apply IH|].
  simpl. by rewrite Hc, Hr.
Qed.

Lemma all_chars_trimEnd P s : JS.all_chars P s = true → JS.all_chars P (JS.trimEnd s) = true.
Proof.
  induction s as [|c r IH]; simpl; [done|].
  intros [Hc Hr]%andb_true_iff. specialize (IH Hr).
  destruct (JS.trimEnd r) as [|c' r'].
  - destruct (JS.is_space c); simpl; [done|]. by rewrite Hc.
  - simpl in *. by rewrite Hc, IH.
Qed.

Lemma all_chars_trim P s : JS.all_chars P s = true → JS.all_chars P (JS.trim s) = true.
Proof. intros H. by apply all_chars_trimEnd, all_chars_trimStart. Qed.

Lemma trimEnd_idem s : JS.trimEnd (JS.trimEnd s) = JS.trimEnd s.
Proof.
  induction s as [|c r IH]; simpl; [done|].
  destruct (JS.trimEnd r) as [|c' r'] eqn:E.
  - destruct (JS.is_space c) eqn:Ec; simpl; [done|]. by rewrite Ec.
  - change (JS.trimEnd (String c (String c' r')) = String c (String c' r')).
    simpl in IH |- *. destruct (JS.trimEnd r') as [|c'' r''].
    + destruct (JS.is_space c'); [done|]. by injection IH as <-.
    + by rewrite IH.
Qed.

Lemma trimEnd_head c r :
  JS.is_space c = false → ∃ r', JS.trimEnd (String c r) = String c r'.
Proof.
  intros Hc. simpl. destruct (JS.trimEnd r); [|by eexists].
  rewrite Hc. by eexists.
Qed.

Lemma trimStart_head s :
  JS.trimStart s = EmptyString
  ∨ ∃ c r, JS.trimStart s = String c r ∧ JS.is_space c = false.
Proof.
  induction s as [|c r IH]; simpl; [by left|].
  destruct (JS.is_space c) eqn:Ec; [done|]. right. by exists c, r.
Qed.

Lemma trim_idem s : JS.trim (JS.trim s) = JS.trim s.
Proof.
  unfold JS.trim. destruct (trimStart_head s) as [->|(c & r & -> & Hc)]; [done|].
  destruct (trimEnd_head c r Hc) as [r' Hr']. rewrite Hr'.
  simpl JS.trimStart. rewrite Hc. rewrite <- Hr'. apply trimEnd_idem.
Qed.

Lemma length_trimStart s : (String.length (JS.trimStart s) ≤ String.length s)%nat.
Proof.
  induction s as [|c r IH]; simpl; [done|]. destruct (JS.is_space c); simpl; lia.
Qed.

Lemma length_trimEnd s : (String.length (JS.trimEnd s) ≤ String.length s)%nat.
Proof.
  induction s as [|c r IH]; simpl; [done|].
  destruct (JS.trimEnd r); [destruct (JS.is_space c)|]; simpl in *; lia.
Qed.

Lemma length_remove_control s :
  (String.length (remove_control s) ≤ String.length s)%nat.
Proof.
  induction s as [|c r IH]; simpl; [done|]. destruct (is_control c); simpl; lia.
Qed.

Lemma length_replace_reserved s : String.length (replace_reserved s) = String.length s.
Proof. induction s as [|c r IH]; simpl; [done|]. by rewrite IH. Qed.

Lemma split_lengths sep s :
  Forall (λ seg, (String.length seg ≤ String.length s)%nat) (JS.split sep s).
Proof.
  induction s as [|c r IH]; simpl.
  - by apply Forall_singleton.
  - destruct (decide (c = sep)).
    + apply Forall_cons. split; [simpl; lia|].
      eapply Forall_impl; [exact IH|]. simpl. lia.
    + destruct (JS.split sep r) as [|h t]; [apply Forall_singleton; simpl; lia|].
      apply Forall_cons in IH as [Hh Ht]. apply Forall_cons. split; [simpl; lia|].
      eapply Forall_impl; [exact Ht|]. simpl. lia.
Qed.

Lemma length_basename p : (String.length (basename p) ≤ String.length p)%nat.
Proof.
  unfold basename.
  destruct (last _) as [seg|] eqn:E; simpl; [|lia].
  apply last_Some_elem_of in E. apply list_elem_of_filter in E as [_ E].
  pose proof (split_lengths "/" p) as H. rewrite Forall_forall in H. by apply H.
Qed.

Lemma clean_after_replacements s :
  JS.all_chars clean (replace_reserved (remove_control s)) = true.
Proof.
  induction s as [|c r IH]; simpl; [done|].
  destruct (is_control c) eqn:Ec; [done|]. simpl. rewrite IH, andb_true_r.
  unfold clean. destruct (is_reserved c) eqn:Er; [done|]. by rewrite Ec, Er.
Qed.

Lemma clean_fixed s :
  JS.all_chars clean s = true → remove_control s = s ∧ replace_reserved s = s.
Proof.
  induction s as [|c r IH]; simpl; [done|].
  intros [Hc Hr]%andb_true_iff. destruct (IH Hr) as [-> ->].
  unfold clean in Hc. apply andb_true_iff in Hc as [H1 H2].
  apply negb_true_iff in H1, H2. by rewrite H1, H2.
Qed.

Lemma clean_split s : JS.all_chars clean s = true → JS.split "/" s = [s].
Proof.
  induction s as [|c r IH]; simpl; [done|].
  intros [Hc Hr]%andb_true_iff. rewrite (IH Hr).
  destruct (decide (c = "/"%char)) as [->|]; [done|done].
Qed.

Lemma clean_basename s :
  JS.all_chars clean s = true → s ≠ EmptyString → basename s = s.
Proof.
  intros Hc Hne. unfold basename. rewrite (clean_split s Hc).
  rewrite filter_cons, filter_nil. by rewrite decide_True.
Qed.

(** The closure property holds for every output that passes the traversal
    check: such an output is returned unchanged by a second call. *)
Lemma sanitizeFilename_fixed_when_accepted maxLen x s :
  sanitizeFilename maxLen x = Ok s →
  dangerous s = false →
  sanitizeFilename maxLen s = Ok s.
Proof.
  unfold sanitizeFilename.
  destruct (negb (JS.truthy (Some x))); [done|].
  destruct (Z.of_nat (String.length x) >? maxLen) eqn:Hlen; [done|].
  destruct (dangerous x); [done|].
  set (t := JS.trim (replace_reserved (remove_control (basename x)))).
  destruct (negb (JS.truthy (Some t)) || bool_decide (t = ".") || bool_decide (t = ".."))
    eqn:Hchk; [done|].
  intros [= <-] Hd.
  assert (JS.all_chars clean t = true) as Hc
    by apply all_chars_trim, clean_after_replacements.
  assert (t ≠ EmptyString) as Hne.
  { intros Ht. rewrite Ht in Hchk. done. }
  assert (String.length t ≤ String.length x)%nat as Hl.
  { subst t. unfold JS.trim.
    pose proof (length_trimEnd (JS.trimStart (replace_reserved (remove_control (basename x))))).
    pose proof (length_trimStart (replace_reserved (remove_control (basename x)))).
    pose proof (length_replace_reserved (remove_control (basename x))).
    pose proof (length_remove_control (basename x)).
    pose proof (length_basename x). lia. }
  assert (JS.truthy (Some t) = true) as ->.
  { destruct t; [done|done]. }
  cbn [negb].
  replace (Z.of_nat (String.length t) >? maxLen) with false by lia.
  rewrite Hd. rewrite (clean_basename t Hc Hne).
  destruct (clean_fixed t Hc) as [-> ->].
  replace (JS.trim t) with t by (subst t; symmetry; apply trim_idem).
  assert (JS.truthy (Some t) = true) as Ht by (destruct t; done).
  rewrite Ht in Hchk |- *. by rewrite Hchk.
Qed.

End SanitizeClosure.

(** ** Folder paths and depths *)

Section FolderProps.

Import FolderTree.

Lemma count_char_app c s t :
  JS.count_char c (s +:+ t) = JS.count_char c s + JS.count_char c t.
Proof. induction s as [|a s IH]; simpl; [done|]. rewrite IH. lia. Qed.

(** The pre-save hook establishes the invariant for the folder it saves, when
    the name holds no slash, the parent, if found, satisfies it, and so does
    the folder as it stood (the hook leaves it alone when the parent is not
    found). *)
Lemma pre_save_depth_ok (coll : gmap string Folder) mp this :
  JS.count_char "/" (fo_name this) = 0 →
  (∀ pid parent, fo_parentId this = Some pid → coll !! pid = Some parent →
                 depth_ok parent) →
  depth_ok this →
  depth_ok (pre_save coll true mp this).
Proof.
  intros Hn Hp Hthis. unfold pre_save, depth_ok in *.
  cbn [orb]. destruct (fo_parentId this) as [pid|] eqn:E.
  - destruct (coll !! pid) as [parent|] eqn:Ep; [|done].
    specialize (Hp pid parent eq_refl Ep).
    cbn [with_path_depth fo_path fo_depth].
    rewrite !count_char_app, Hn, Hp. simpl. lia.
  - cbn [with_path_depth fo_path fo_depth].
    rewrite count_char_app, Hn. done.
Qed.

Lemma all_chars_count_zero s :
  JS.all_chars (λ c, negb (is_invalid c)) s = true → JS.count_char "/" s = 0.
Proof.
  induction s as [|c r IH]; simpl; [done|].
  intros [Hc Hr]%andb_true_iff. rewrite (IH Hr).
  destruct (decide (c = "/"%char)) as [->|]; [done|done].
Qed.

Lemma all_chars_remove_invalid s :
  JS.all_chars (λ c, negb (is_invalid c)) (remove_invalid s) = true.
Proof.
  induction s as [|c r IH]; simpl; [done|].
  destruct (is_invalid c) eqn:E; [done|]. simpl. by rewrite E, IH.
Qed.

Lemma all_chars_substring P n s :
  JS.all_chars P s = true → JS.all_chars P (String.substring 0 n s) = true.
Proof.
  revert s. induction n as [|n IH]; intros [|c r]; simpl; try done.
  intros [Hc Hr]%andb_true_iff. by rewrite Hc, IH.
Qed.

Lemma _sanitizeName_no_slash name n :
  _sanitizeName name = Some n → JS.count_char "/" n = 0.
Proof.
  unfold _sanitizeName. destruct (negb _); [done|]. intros [= <-].
  apply all_chars_count_zero, all_chars_substring, all_chars_trim,
    all_chars_remove_invalid.
Qed.

(** createFolder keeps the invariant: the folder it stores satisfies it
    whenever the folders already stored do. *)
Lemma createFolder_depth_ok newId (coll coll1 : gmap string Folder) uid name pid f :
  map_Forall (λ _ g, depth_ok g) coll →
  createFolder newId coll uid name pid = (coll1, Ok f) →
  depth_ok f ∧ map_Forall (λ _ g, depth_ok g) coll1.
Proof.
  intros Hall. unfold createFolder.
  destruct (_sanitizeName name) as [[|c n]|] eqn:Es; [done| |done].
  destruct (negb _); [done|]. destruct (findOne _ coll); [done|].
  unfold save. intros [= <- <-].
  assert (depth_ok (pre_save coll true true (mkFolder newId uid (String c n) pid "/" 0)))
    as Hf.
  { apply pre_save_depth_ok.
    - by apply (_sanitizeName_no_slash name).
    - intros p parent _ Hp. by apply (Hall p).
    - done. }
  split; [done|]. by apply map_Forall_insert_2.
Qed.

(** C4 fails on the code.  /a and /a/b are created with depths 0 and 1; after
    renaming a to x the cascade stores /x/b with depth 2, one more than the
    number of slashes minus 1. *)
Theorem renameFolder_cascade_breaks_depth :
  let coll := (renameFolder Examples.folders0 "u1" "id1" "x").1 in
  ∃ a0 b0 b1,
    Examples.folders0 !! "id1" = Some a0 ∧ depth_ok a0
    ∧ Examples.folders0 !! "id2" = Some b0 ∧ depth_ok b0
    ∧ coll !! "id2" = Some b1
    ∧ fo_path b1 = "/x/b"
    ∧ fo_depth b1 = 2
    ∧ ¬ depth_ok b1.
Proof.
  eexists _, _, _.
  split; [by vm_compute|]. split; [by vm_compute|].
  split; [by vm_compute|]. split; [by vm_compute|].
  split; [by vm_compute|]. split; [by vm_compute|].
  split; [by vm_compute|]. by vm_compute.
Qed.

End FolderProps.

(** ** Cold migration *)

Section TierProps.

Import Tier.

(** What does hold: every candidate of the cold pass is a hot, undeleted file
    that has not been read since the cutoff and has no migration pending or in
    progress.  The owner's role is not part of the query. *)
Lemma cold_candidates_match_query cfg now w limit f :
  f ∈ getColdMigrationCandidates cfg now w limit →
  f_storageTier f = HOT
  ∧ f_lastAccessAt f ≤ now - Config.hotToColdDays cfg * MS_PER_DAY
  ∧ f_isDeleted f = false
  ∧ f_migrationStatus f ≠ m_pending
  ∧ f_migrationStatus f ≠ m_in_progress.
Proof.
  unfold getColdMigrationCandidates, findColdMigrationCandidates.
  intros H. apply cursor_limit_subseteq in H. rewrite merge_sort_Permutation in H.
  apply list_elem_of_In, filter_In in H as [_ H]. unfold cold_query in H.
  repeat (apply andb_true_iff in H as [H ?]).
  apply bool_decide_eq_true in H.
  match goal with Hn : negb (_ || _) = true |- _ =>
    apply negb_true_iff, orb_false_iff in Hn as [Hp Hi] end.
  apply bool_decide_eq_false in Hp, Hi.
  split_and!; [done|lia|by apply negb_true_iff|done|done].
Qed.

(** C5 fails on the code.  The candidate query does not look at the owner and
    the worker never calls shouldMigrateToCold: the hot file of a premium user,
    unread for 30 days, is moved to the cold tier. *)
Theorem processColdMigrations_moves_premium_file :
  let out := processColdMigrations Config.defaults Examples.day30 Examples.tier_world in
  (isPremiumOrAdmin <$> users Examples.tier_world !! "u1") = Some true
  ∧ shouldMigrateToCold Config.defaults Examples.day30 Examples.tier_world
      Examples.premium_file = false
  ∧ (f_storageTier <$> files out.1 !! "f1") = Some COLD
  ∧ Storage.blobs (storage out.1) !! (COLD, "u1_1_abcdef.txt") = Some [Byte.x01; Byte.x02]
  ∧ Storage.blobs (storage out.1) !! (HOT, "u1_1_abcdef.txt") = None
  ∧ out.2 = mkTally 1 0.
Proof. vm_compute. by split_and!. Qed.

End TierProps.

(** ** The upload engine *)

Section UploadProps.

Import Upload Session.

Variable md5 sha256 : list Byte.byte → string.
Variable cfg : Config.t.

(** *** Running the monad *)

Lemma get_world_eq w : get_world w = (w, Ok w).
Proof. done. Qed.

Lemma bind_ok {A B} (m : M A) (k : A → M B) w w1 a :
  m w = (w1, Ok a) → bind m k w = k a w1.
Proof. intros H. unfold bind. by rewrite H. Qed.

Lemma bind_throw {A B} (m : M A) (k : A → M B) w w1 e :
  m w = (w1, Throw e) → bind m k w = (w1, Throw e).
Proof. intros H. unfold bind. by rewrite H. Qed.

(** *** The small helpers *)

Lemma findOne_Some coll sid s :
  findOne coll sid = Some s → coll !! sid = Some s ∧ sessionId s = sid.
Proof.
  unfold findOne. destruct (coll !! sid) as [s0|]; [|done].
  case_bool_decide; [|done]. by intros [= <-].
Qed.

Lemma live_false_iff now s : live now s = false ↔ not_live now s.
Proof.
  unfold live, not_live, terminal.
  rewrite andb_false_iff, orb_false_iff, !bool_decide_eq_false, Z.gtb_ltb, Z.ltb_ge.
  split.
  - intros [H|[H1 H2]]; [by right|left]. destruct (status s); intuition congruence.
  - intros [H|H]; [right|by left]. destruct (status s); intuition congruence.
Qed.

Lemma live_true_iff now s :
  live now s = true ↔ (status s = pending ∨ status s = uploading) ∧ now < expiresAt s.
Proof.
  unfold live.
  rewrite andb_true_iff, orb_true_iff, !bool_decide_eq_true, Z.gtb_ltb, Z.ltb_lt.
  tauto.
Qed.

Lemma _getStorageTier_eq uid w : _getStorageTier uid w = (w, Ok HOT).
Proof.
  unfold _getStorageTier, bind, get_world, ret.
  destruct (users w !! uid) as [u|]; [|done]. by destruct (isPremiumOrAdmin u).
Qed.

Lemma _getExpiryDate_eq now uid w : ∃ e, _getExpiryDate cfg now uid w = (w, Ok e).
Proof.
  unfold _getExpiryDate, bind, get_world, ret.
  destruct (users w !! uid) as [u|]; [|by eexists].
  destruct (isPremiumOrAdmin u); by eexists.
Qed.

Lemma _getCompletedChunks_eq now sid w :
  _getCompletedChunks now sid w
  = (w, Ok (merge_sort Z.le (elements (redis_smembers now (redis w) (chunksKey sid))))).
Proof. done. Qed.

Lemma _isChunkUploaded_eq now sid i w :
  _isChunkUploaded now sid i w = (w, Ok (redis_sismember now (redis w) (chunksKey sid) i)).
Proof. done. Qed.

Lemma completed_length now sid w :
  length (merge_sort Z.le (elements (redis_smembers now (redis w) (chunksKey sid))))
  = size (redis_smembers now (redis w) (chunksKey sid)).
Proof. by rewrite merge_sort_Permutation. Qed.

(** *** Session resolution *)

Lemma _getSession_hit now sid w d :
  redis_get now (redis w) (sessionKey sid) = Some d →
  _getSession cfg now sid w = (w, Ok (Some d)).
Proof. intros H. unfold _getSession, bind, get_world. by rewrite H. Qed.

Lemma _getSession_dead now sid w :
  redis_get now (redis w) (sessionKey sid) = None →
  (∀ s, findOne (sessions w) sid = Some s → not_live now s) →
  _getSession cfg now sid w = (w, Ok None).
Proof.
  intros H Hd. unfold _getSession, bind, get_world. rewrite H.
  destruct (findOne (sessions w) sid) as [s|] eqn:E; [|done].
  pose proof (Hd s eq_refl) as Hn. apply live_false_iff in Hn. by rewrite Hn.
Qed.

(** On a cache miss the durable store answers exactly for the records whose
    status is pending or uploading and whose expiresAt lies in the future. *)
Lemma _getSession_fallback_iff_live now sid w :
  redis_get now (redis w) (sessionKey sid) = None →
  (∃ sd, (_getSession cfg now sid w).2 = Ok (Some sd))
  ↔ ∃ s, findOne (sessions w) sid = Some s
         ∧ (status s = pending ∨ status s = uploading) ∧ now < expiresAt s.
Proof.
  intros H. unfold _getSession, bind, get_world. rewrite H.
  destruct (findOne (sessions w) sid) as [s|] eqn:E.
  - destruct (live now s) eqn:L; simpl.
    + apply live_true_iff in L. split; [by exists s|by eexists].
    + split; [by intros [? ?]|]. intros (s' & [= <-] & L').
      apply live_true_iff in L'. congruence.
  - simpl. split; [by intros [? ?]|by intros (? & ? & ?)].
Qed.

(** What _getSession never touches. *)
Lemma _getSession_frame now sid w :
  let w0 := (_getSession cfg now sid w).1 in
  sessions w0 = sessions w ∧ sets (redis w0) = sets (redis w) ∧ storage w0 = storage w
  ∧ files w0 = files w ∧ quotas w0 = quotas w ∧ users w0 = users w.
Proof.
  unfold _getSession, bind, get_world. simpl.
  destruct (redis_get _ _ _); [done|].
  destruct (findOne (sessions w) sid) as [s|]; [|done].
  by destruct (live now s).
Qed.


(** A second resolution at the same instant finds the session again, with the
    same sizes, and leaves the store as the first one left it. *)
Lemma _getSession_again now sid w w0 sd :
  _getSession cfg now sid w = (w0, Ok (Some sd)) →
  ∃ sd', _getSession cfg now sid w0 = (w0, Ok (Some sd'))
         ∧ d_totalChunks sd' = d_totalChunks sd
         ∧ d_chunkSize sd' = d_chunkSize sd
         ∧ d_totalSize sd' = d_totalSize sd.
Proof.
  unfold _getSession at 1. unfold bind at 1. rewrite get_world_eq.
  destruct (redis_get now (redis w) (sessionKey sid)) as [d|] eqn:Hc.
  - intros [= <- <-]. exists d. by rewrite (_getSession_hit _ _ _ _ Hc).
  - destruct (findOne (sessions w) sid) as [s|] eqn:Hf; [|done].
    destruct (live now s) eqn:L; [|done].
    unfold _cacheSession, bind, modify, ret. intros [= <- <-].
    apply findOne_Some in Hf as Hk. destruct Hk as [_ Hk].
    unfold _getSession, bind, get_world. cbn [redis with_redis sessions].
    unfold redis_get at 1. cbn [strs redis_setex]. rewrite Hk, lookup_insert_eq.
    destruct (now <? now + Config.sessionTtl cfg * 1000); [by eexists|].
    rewrite Hf, L. unfold _cacheSession, modify, ret. cbn.
    rewrite Hk. unfold with_redis, redis_setex. cbn. rewrite insert_insert_eq.
    by eexists.
Qed.

(** Every request that needs the session fails alike when it does not
    resolve. *)
Lemma unresolved_requests_fail now sid uid rnd fid i data hash w :
  _getSession cfg now sid w = (w, Ok None) →
  uploadChunk md5 cfg now sid i data hash w = (w, Throw (SessionExpiredError sid))
  ∧ getUploadStatus cfg now sid w = (w, Throw (SessionExpiredError sid))
  ∧ completeUpload sha256 cfg now rnd fid sid uid w = (w, Throw (SessionExpiredError sid))
  ∧ resumeUpload cfg now sid uid w = (w, Throw (SessionExpiredError sid)).
Proof.
  intros H. unfold uploadChunk, getUploadStatus, completeUpload, resumeUpload.
  split_and!; unfold bind at 1; by rewrite H.
Qed.

(** *** completeUpload *)

Lemma assemble_and_record_mismatch now rnd fid sid uid sd dbS w data e :
  Storage.read_chunks (storage w) sid 0 (Z.to_nat (d_totalChunks sd)) = Some data →
  d_expectedHash sd = Some e → e ≠ "" →
  Hash.verifyHash (sha256 data) e = false →
  let key := _generateStorageKey now rnd uid (d_filename sd) in
  assemble_and_record sha256 cfg now rnd fid sid uid sd dbS w
  = (with_storage (Storage.delete_blob key HOT
       (Storage.with_blobs (<[(HOT, key) := data]> (Storage.blobs (storage w))) (storage w))) w,
     Throw (UploadError "File hash verification failed" 400 HASH_MISMATCH)).
Proof.
  intros Hr He Hne Hv key. unfold assemble_and_record.
  rewrite (bind_ok _ _ _ _ _ (_getStorageTier_eq uid w)).
  unfold bind at 1. unfold Storage.assembleChunks. rewrite Hr. fold key.
  rewrite He. simpl. rewrite Hv.
  destruct e; [done|]. simpl. done.
Qed.

Lemma completeUpload_mismatch_eq now rnd fid sid uid w w0 sd s data e :
  _getSession cfg now sid w = (w0, Ok (Some sd)) →
  d_userId sd = uid →
  Z.of_nat (size (redis_smembers now (redis w) (chunksKey sid))) = d_totalChunks sd →
  findOne (sessions w) sid = Some s →
  Storage.read_chunks (storage w) sid 0 (Z.to_nat (d_totalChunks sd)) = Some data →
  d_expectedHash sd = Some e → e ≠ "" →
  Hash.verifyHash (sha256 data) e = false →
  let key := _generateStorageKey now rnd uid (d_filename sd) in
  let err := UploadError "File hash verification failed" 400 HASH_MISMATCH in
  let w1 := with_sessions (<[sid := startAssembly now s]> (sessions w0)) w0 in
  let w2 := with_storage (Storage.delete_blob key HOT
              (Storage.with_blobs (<[(HOT, key) := data]> (Storage.blobs (storage w1)))
                 (storage w1))) w1 in
  completeUpload sha256 cfg now rnd fid sid uid w
  = (on_failure sid (Some (startAssembly now s)) err w2, Throw err).
Proof.
  intros E0 Hu Hn Hdb Hr He Hne Hv key err w1 w2.
  pose proof (_getSession_frame now sid w) as F. rewrite E0 in F.
  destruct F as (Fs & Fr & Fst & Ff & Fq & Fu). simpl in *.
  unfold completeUpload.
  rewrite (bind_ok _ _ _ _ _ E0).
  rewrite bool_decide_eq_true_2 by done. cbn [negb].
  rewrite (bind_ok _ _ _ _ _ (_getCompletedChunks_eq now sid w0)).
  rewrite completed_length.
  assert (redis_smembers now (redis w0) (chunksKey sid)
          = redis_smembers now (redis w) (chunksKey sid)) as ->.
  { unfold redis_smembers. by rewrite Fr. }
  rewrite Hn, Z.eqb_refl. cbn [negb].
  rewrite (bind_ok _ _ _ _ _ (get_world_eq w0)).
  rewrite Fs, Hdb. cbn [fmap option_fmap option_map save_session].
  unfold bind at 1, modify at 1. unfold try_rethrow.
  cbn beta. fold w1.
  erewrite assemble_and_record_mismatch; [done|by subst w1; simpl; rewrite Fst|done..].
Qed.

(** The failure path of completeUpload.  When the session resolves for its
    owner, every chunk is recorded and staged, the durable record exists, and
    verifyHash refuses the expected hash given at init for the hash of the
    assembled bytes, completeUpload fails with HASH_MISMATCH; the assembled
    blob is gone from the tier it was written to, the durable session is
    failed with error code HASH_MISMATCH, and the File collection and the
    quotas are as before. *)
Theorem completeUpload_hash_mismatch now rnd fid sid uid w sd s data e :
  (_getSession cfg now sid w).2 = Ok (Some sd) →
  d_userId sd = uid →
  Z.of_nat (size (redis_smembers now (redis w) (chunksKey sid))) = d_totalChunks sd →
  findOne (sessions w) sid = Some s →
  Storage.read_chunks (storage w) sid 0 (Z.to_nat (d_totalChunks sd)) = Some data →
  d_expectedHash sd = Some e → e ≠ "" →
  Hash.verifyHash (sha256 data) e = false →
  let out := completeUpload sha256 cfg now rnd fid sid uid w in
  let key := _generateStorageKey now rnd uid (d_filename sd) in
  out.2 = Throw (UploadError "File hash verification failed" 400 HASH_MISMATCH)
  ∧ Storage.blobs (storage out.1) !! (HOT, key) = None
  ∧ (∃ s', sessions out.1 !! sid = Some s' ∧ status s' = failed
           ∧ ei_code <$> error s' = Some HASH_MISMATCH)
  ∧ files out.1 = files w
  ∧ quotas out.1 = quotas w.
Proof.
  intros Hs Hu Hn Hdb Hr He Hne Hv out key. subst out.
  pose proof (_getSession_frame now sid w) as F.
  destruct (_getSession cfg now sid w) as [w0 r0] eqn:E0. simpl in Hs. subst r0.
  destruct F as (Fs & Fr & Fst & Ff & Fq & Fu). simpl in *.
  rewrite (completeUpload_mismatch_eq now rnd fid sid uid w w0 sd s data e) by done.
  fold key. cbn.
  split; [done|]. split; [by rewrite lookup_delete_eq|].
  split; [|by rewrite Ff, Fq].
  eexists. rewrite lookup_insert_eq. done.
Qed.

Lemma assemble_and_record_ok_inv now rnd fid sid uid sd dbS w w1 fd :
  assemble_and_record sha256 cfg now rnd fid sid uid sd dbS w = (w1, Ok fd) →
  strs (redis w1) !! sessionKey sid = None
  ∧ sessions w1 !! sid = match dbS with
                         | Some s => Some (markCompleted now s fid HOT)
                         | None => sessions w !! sid
                         end.
Proof.
  unfold assemble_and_record.
  rewrite (bind_ok _ _ _ _ _ (_getStorageTier_eq uid w)).
  unfold bind at 1. unfold Storage.assembleChunks.
  destruct (Storage.read_chunks _ _ _ _) as [data|]; [|done].
  destruct (JS.truthy (d_expectedHash sd) && _).
  { unfold bind, modify, throw. done. }
  destruct (_getExpiryDate_eq now uid
              (with_storage (Storage.with_blobs
                 (<[(HOT, _generateStorageKey now rnd uid (d_filename sd)) := data]>
                    (Storage.blobs (storage w))) (storage w)) w)) as [ex Hex].
  rewrite (bind_ok _ _ _ _ _ Hex).
  unfold bind at 1, modify at 1.
  unfold getOrCreate, bind, get_world, modify, ret, save_session, _deleteSessionCache.
  cbn [quotas with_files with_storage].
  destruct (quotas w !! uid) as [q|]; destruct dbS as [s|]; simpl;
    intros [= <- <-]; simpl; rewrite lookup_delete_eq; split; try done;
    by rewrite lookup_insert_eq.
Qed.

(** After a successful completeUpload the cached copy is gone and the durable
    record, if there is one, is completed. *)
Lemma completeUpload_ok_inv now rnd fid sid uid w w1 fd :
  completeUpload sha256 cfg now rnd fid sid uid w = (w1, Ok fd) →
  strs (redis w1) !! sessionKey sid = None
  ∧ ∀ s, findOne (sessions w1) sid = Some s → status s = completed.
Proof.
  unfold completeUpload. unfold bind at 1.
  destruct (_getSession cfg now sid w) as [w0 [[sd|]|e]]; [|done..].
  destruct (negb (bool_decide (d_userId sd = uid))); [done|].
  rewrite (bind_ok _ _ _ _ _ (_getCompletedChunks_eq now sid w0)).
  destruct (negb _); [done|].
  rewrite (bind_ok _ _ _ _ _ (get_world_eq w0)).
  unfold bind at 1.
  destruct (save_session sid (startAssembly now <$> findOne (sessions w0) sid) w0)
    as [w' [[]|e]] eqn:Es.
  2:{ unfold save_session in Es. destruct (_ <$> _); done. }
  unfold try_rethrow.
  destruct (assemble_and_record _ _ _ _ _ _ _ _ _ _) as [w2 [fd'|e]] eqn:Ea; [|done].
  intros [= <- <-]. apply assemble_and_record_ok_inv in Ea as [H1 H2].
  split; [done|]. intros s Hs. apply findOne_Some in Hs as [Hs Hid].
  rewrite H2 in Hs. unfold save_session in Es.
  destruct (findOne (sessions w0) sid) as [s0|] eqn:E0; simpl in *.
  - by injection Hs as <-.
  - injection Es as <-. unfold findOne in E0. rewrite Hs in E0.
    by rewrite bool_decide_eq_true_2 in E0.
Qed.

(** C10: when the cached copy of a session is gone and the durable record, if
    any, is not live (its status is assembling, completed, failed or expired,
    or its expiresAt has passed), _getSession finds nothing and uploadChunk,
    getUploadStatus, completeUpload and resumeUpload all fail with
    SESSION_EXPIRED, leaving the stores as they were.  This is the state a
    successful completeUpload leaves behind: a status query after it reports
    SESSION_EXPIRED, at whatever instant it comes. *)
Theorem session_resolution_live_only now sid uid rnd fid i data hash w :
  redis_get now (redis w) (sessionKey sid) = None →
  (∀ s, findOne (sessions w) sid = Some s → not_live now s) →
  _getSession cfg now sid w = (w, Ok None)
  ∧ uploadChunk md5 cfg now sid i data hash w = (w, Throw (SessionExpiredError sid))
  ∧ getUploadStatus cfg now sid w = (w, Throw (SessionExpiredError sid))
  ∧ completeUpload sha256 cfg now rnd fid sid uid w = (w, Throw (SessionExpiredError sid))
  ∧ resumeUpload cfg now sid uid w = (w, Throw (SessionExpiredError sid))
  ∧ (∀ now0 rnd0 fid0 uid0 w0 w1 fd now1,
       completeUpload sha256 cfg now0 rnd0 fid0 sid uid0 w0 = (w1, Ok fd) →
       getUploadStatus cfg now1 sid w1 = (w1, Throw (SessionExpiredError sid))).
Proof.
  intros Hc Hd.
  pose proof (_getSession_dead now sid w Hc Hd) as Hg.
  split; [done|].
  destruct (unresolved_requests_fail now sid uid rnd fid i data hash w Hg)
    as (H1 & H2 & H3 & H4).
  split_and!; try done.
  intros now0 rnd0 fid0 uid0 w0 w1 fd now1 Hok.
  apply completeUpload_ok_inv in Hok as [Hk Hst].
  eapply (unresolved_requests_fail now1 sid uid rnd fid i data hash w1).
  apply _getSession_dead.
  - unfold redis_get. by rewrite Hk.
  - intros s Hs. left. right. left. by apply Hst.
Qed.

(** *** Duplicate chunk posts *)

Lemma _getProgress_resolved now sid w sd :
  _getSession cfg now sid w = (w, Ok (Some sd)) →
  ∃ p, _getProgress cfg now sid w = (w, Ok (Some p)).
Proof.
  intros H. unfold _getProgress. rewrite (bind_ok _ _ _ _ _ H).
  rewrite (bind_ok _ _ _ _ _ (_getCompletedChunks_eq now sid w)). by eexists.
Qed.

(** One post of a chunk that the set of completed indices holds. *)
Lemma uploadChunk_duplicate now sid i data hash w w0 sd :
  _getSession cfg now sid w = (w0, Ok (Some sd)) →
  0 ≤ i < d_totalChunks sd →
  redis_sismember now (redis w) (chunksKey sid) i = true →
  ∃ p, uploadChunk md5 cfg now sid i data hash w
       = (w0, Ok (mkChunkResult sid i already_uploaded (Some p))).
Proof.
  intros E0 Hi Hm.
  pose proof (_getSession_frame now sid w) as F. rewrite E0 in F.
  destruct F as (Fs & Fr & Fst & Ff & Fq & Fu). simpl in *.
  destruct (_getSession_again _ _ _ _ _ E0) as (sd' & E1 & _).
  destruct (_getProgress_resolved _ _ _ _ E1) as [p Hp].
  exists p. unfold uploadChunk. rewrite (bind_ok _ _ _ _ _ E0).
  replace ((i <? 0) || (i >=? d_totalChunks sd)) with false by lia.
  rewrite (bind_ok _ _ _ _ _ (_isChunkUploaded_eq now sid i w0)).
  assert (redis_sismember now (redis w0) (chunksKey sid) i = true) as ->.
  { unfold redis_sismember, redis_smembers in *. by rewrite Fr. }
  by rewrite (bind_ok _ _ _ _ _ Hp).
Qed.

(** *** The durable list of completed chunks holds each index once *)

























(** Posts that come at one instant are all ready when the first one is. *)
Lemma ready_run_same_instant k now sid i data hash w :
  dup_ready cfg now sid i w →
  ready_run md5 cfg (replicate k now) sid i data hash w.
Proof.
  revert w. induction k as [|k IH]; intros w Hr; simpl; [done|].
  split; [done|]. apply IH.
  destruct Hr as (sd & Hs & Hi & Hm).
  pose proof (_getSession_frame now sid w) as F.
  destruct (_getSession cfg now sid w) as [w0 r0] eqn:E0. simpl in Hs. subst r0.
  destruct F as (Fs & Fr & Fst & Ff & Fq & Fu). simpl in *.
  destruct (uploadChunk_duplicate now sid i data hash w w0 sd E0 Hi Hm) as [p Hp].
  rewrite Hp. simpl.
  destruct (_getSession_again _ _ _ _ _ E0) as (sd' & E1 & Ht & _).
  exists sd'. rewrite E1. split; [done|]. split; [lia|].
  unfold redis_sismember, redis_smembers in *. by rewrite Fr.
Qed.

(** *** The durable list holds every index of the set of completed indices *)

Lemma length_append s t : String.length (s +:+ t) = (String.length s + String.length t)%nat.
Proof. induction s as [|c s IH]; simpl; [done|]. by rewrite IH. Qed.






























End UploadProps.

(** ** The theorems of the upload engine at concrete stores *)

Section UploadWitnesses.

Import Upload Session.

Lemma completeUpload_hash_mismatch_witness :
  let out := completeUpload Examples.toy_digest Examples.cfg2 2000 "abcdef" "file-1"
               "sid-1" "u1" Examples.bad_w3 in
  let key := _generateStorageKey 2000 "abcdef" "u1" (d_filename Examples.bad_data) in
  out.2 = Throw (UploadError "File hash verification failed" 400 HASH_MISMATCH)
  ∧ Storage.blobs (storage out.1) !! (HOT, key) = None
  ∧ (∃ s', sessions out.1 !! "sid-1" = Some s' ∧ status s' = failed
           ∧ ei_code <$> error s' = Some HASH_MISMATCH)
  ∧ files out.1 = files Examples.bad_w3
  ∧ quotas out.1 = quotas Examples.bad_w3.
Proof.
  eapply (completeUpload_hash_mismatch Examples.toy_digest Examples.cfg2 2000
            "abcdef" "file-1" "sid-1" "u1" Examples.bad_w3 Examples.bad_data _ _ "00").
  - by vm_compute.
  - reflexivity.
  - by vm_compute.
  - by vm_compute.
  - by vm_compute.
  - reflexivity.
  - discriminate.
  - by vm_compute.
Defined.

Lemma session_resolution_live_only_witness :
  _getSession Examples.cfg2 3000 "sid-2" Examples.ok_w4 = (Examples.ok_w4, Ok None)
  ∧ uploadChunk Examples.toy_digest Examples.cfg2 3000 "sid-2" 0 [Byte.x01; Byte.x02] None
      Examples.ok_w4 = (Examples.ok_w4, Throw (SessionExpiredError "sid-2"))
  ∧ getUploadStatus Examples.cfg2 3000 "sid-2" Examples.ok_w4
    = (Examples.ok_w4, Throw (SessionExpiredError "sid-2"))
  ∧ completeUpload Examples.toy_digest Examples.cfg2 3000 "abcdef" "file-2" "sid-2" "u1"
      Examples.ok_w4 = (Examples.ok_w4, Throw (SessionExpiredError "sid-2"))
  ∧ resumeUpload Examples.cfg2 3000 "sid-2" "u1" Examples.ok_w4
    = (Examples.ok_w4, Throw (SessionExpiredError "sid-2"))
  ∧ (∀ now0 rnd0 fid0 uid0 w0 w1 fd now1,
       completeUpload Examples.toy_digest Examples.cfg2 now0 rnd0 fid0 "sid-2" uid0 w0
       = (w1, Ok fd) →
       getUploadStatus Examples.cfg2 now1 "sid-2" w1
       = (w1, Throw (SessionExpiredError "sid-2"))).
Proof.
  apply (session_resolution_live_only Examples.toy_digest Examples.toy_digest
           Examples.cfg2 3000 "sid-2" "u1" "abcdef" "file-2" 0 [Byte.x01; Byte.x02] None
           Examples.ok_w4).
  - by vm_compute.
  - intros s Hs. vm_compute in Hs. injection Hs as <-. left. right. left. reflexivity.
Defined.

(** The seed scenario of the duplicate chunk: chunk 0 posted a second time is
    answered already_uploaded and the durable list holds one entry for it. *)
Example duplicate_chunk_scenario :
  let out := uploadChunk Examples.toy_digest Examples.cfg2 1700 "sid-1" 0
               [Byte.x01; Byte.x02] None Examples.bad_w2 in
  cr_status <$> ok_value out.2 = Some already_uploaded
  ∧ (indices <$> sessions out.1 !! "sid-1") = Some [0]
  ∧ Storage.chunks (storage out.1) = Storage.chunks (storage Examples.bad_w2).
Proof. vm_compute. by split_and!. Qed.

(** The seed scenario of the hash mismatch, from init to the failed complete. *)
Example hash_mismatch_scenario :
  let out := completeUpload Examples.toy_digest Examples.cfg2 2000 "abcdef" "file-1"
               "sid-1" "u1" Examples.bad_w3 in
  thrown_code out.2 = Some HASH_MISMATCH
  ∧ (status <$> sessions out.1 !! "sid-1") = Some failed
  ∧ Storage.blobs (storage out.1) = ∅
  ∧ files out.1 = ∅
  ∧ (Quota.q_storage <$> quotas out.1 !! "u1") = Some 0
  ∧ (Quota.q_files <$> quotas out.1 !! "u1") = Some 0.
Proof. vm_compute. by split_and!. Qed.

(** The upload of the example does complete, and the status query that follows
    is refused. *)
Example status_after_complete :
  is_ok (completeUpload Examples.toy_digest Examples.cfg2 2000 "abcdef" "file-1"
           "sid-2" "u1" Examples.ok_w3).2 = true
  ∧ (status <$> sessions Examples.ok_w4 !! "sid-2") = Some completed
  ∧ thrown_code (getUploadStatus Examples.cfg2 2001 "sid-2" Examples.ok_w4).2
    = Some SESSION_EXPIRED.
Proof. vm_compute. by split_and!. Qed.

End UploadWitnesses.

(** ** What verifyHash lets through at completeUpload *)

Section HashTail.

Import Upload Session.

Lemma from_hex_odd_tail n d c :
  String.length d = (2 * n)%nat →
  Hash.from_hex (d +:+ String c EmptyString) = Hash.from_hex d.
Proof.
  revert d. induction n as [|n IH]; intros d Hd.
  - by destruct d.
  - destruct d as [|a [|b r]]; simpl in Hd; try lia.
    change ((String a (String b r)) +:+ String c EmptyString)
      with (String a (String b (r +:+ String c EmptyString))).
    cbn [Hash.from_hex]. rewrite IH by lia. done.
Qed.

Lemma toLowerCase_append s t :
  Stream.toLowerCase (s +:+ t) = Stream.toLowerCase s +:+ Stream.toLowerCase t.
Proof. induction s as [|c s IH]; simpl; [done|]. by rewrite IH. Qed.

Lemma length_toLowerCase s : String.length (Stream.toLowerCase s) = String.length s.
Proof. induction s as [|c s IH]; simpl; [done|]. by rewrite IH. Qed.

(** A digest of whole bytes verifies against itself followed by one more
    character: the hexadecimal decoding drops what follows the last pair. *)
Lemma verifyHash_ignores_odd_tail n d c :
  d ≠ "" → String.length d = (2 * n)%nat →
  d +:+ String c EmptyString ≠ d
  ∧ Hash.verifyHash d (d +:+ String c EmptyString) = true.
Proof.
  intros Hne Hd. split.
  - intros H. apply (f_equal String.length) in H. rewrite length_append in H.
    simpl in H. lia.
  - unfold Hash.verifyHash, Security.lower.
    destruct d as [|a r]; [done|]. cbn [JS.truthy negb orb String.append].
    apply bool_decide_eq_true.
    change (String a (r +:+ String c EmptyString))
      with ((String a r) +:+ String c EmptyString).
    rewrite toLowerCase_append. cbn [Stream.toLowerCase].
    symmetry. apply (from_hex_odd_tail n).
    cbn [String.length]. by rewrite length_toLowerCase.
Qed.

(** C3 fails on the code.  The session of the example was opened with the
    expected hash 060, which is not the hash 06 computed during assembly;
    completeUpload does not fail with HASH_MISMATCH: it keeps the blob, creates
    the File record, charges the quota and completes the session. *)
Theorem completeUpload_accepts_padded_hash :
  let w := Examples.pad_w3 in
  let out := completeUpload Examples.toy_digest Examples.cfg2 2000 "abcdef" "file-3"
               "sid-3" "u1" w in
  let key := _generateStorageKey 2000 "abcdef" "u1" "a.txt" in
  (expectedHash <$> sessions w !! "sid-3") = Some (Some "060")
  ∧ Examples.toy_digest [Byte.x01; Byte.x02; Byte.x03] = "06"
  ∧ thrown_code out.2 ≠ Some HASH_MISMATCH
  ∧ (fd_hash <$> ok_value out.2) = Some "06"
  ∧ Storage.blobs (storage out.1) !! (HOT, key) = Some [Byte.x01; Byte.x02; Byte.x03]
  ∧ (f_hash <$> files out.1 !! "file-3") = Some "06"
  ∧ (status <$> sessions out.1 !! "sid-3") = Some completed
  ∧ (Quota.q_storage <$> quotas out.1 !! "u1") = Some 3
  ∧ (Quota.q_files <$> quotas out.1 !! "u1") = Some 1.
Proof. vm_compute. by split_and!. Qed.

End HashTail.

(** * Further properties of the code *)

(** ** DownloadService: partial content, access and the metadata cache *)

Section DownloadMore.

Import Stream Download.

Lemma parseRange_truthy h size r : parseRange h size = Some r → JS.truthy h = true.
Proof.
  unfold parseRange. destruct h as [h|]; [|done].
  destruct h; [|done]. by simpl.
Qed.

(** X1: when the metadata resolves, the access check passes and parseRange
    accepts the Range header, prepareDownload answers 206 for exactly that
    range: Content-Length is end - start + 1 (between 1 and the file size),
    Content-Range is the header of contentRangeHeader, the download counter is
    not scheduled, and the bandwidth charged to a signed-in user is the length
    of the range. *)
Theorem prepareDownload_partial_content now st fileId opts st1 md r :
  getFileMetadata now st fileId = (st1, Ok md) →
  is_ok (_checkAccess st1 md (o_userId opts) (o_password opts)) = true →
  parseRange (o_rangeHeader opts) (md_size md) = Some r →
  ∃ resp, prepareDownload now st fileId opts = (st1, Ok resp)
    ∧ r_statusCode resp = 206
    ∧ sr_range (r_stream resp) = Some r
    ∧ h_ContentLength (r_headers resp) = end_ r - start r + 1
    ∧ 1 ≤ h_ContentLength (r_headers resp) ≤ md_size md
    ∧ h_ContentRange (r_headers resp)
      = Some (contentRangeHeader (start r) (end_ r) (md_size md))
    ∧ r_tasks resp = match o_userId opts with
                     | Some uid => [TrackBandwidth uid (end_ r - start r + 1)]
                     | None => []
                     end.
Proof.
  intros Hm Ha Hr. unfold prepareDownload. rewrite Hm.
  destruct (_checkAccess _ _ _ _) as [b|e]; [|done].
  rewrite Hr, (parseRange_truthy _ _ _ Hr).
  apply parseRange_in_bounds in Hr.
  eexists; split; [reflexivity|]. simpl. split_and!; try done; lia.
Qed.

Lemma prepareDownload_partial_content_witness :
  ∃ resp, prepareDownload 1000 Examples.dl_store "f1"
            (Examples.anonymous (Some "bytes=100-199"))
          = ((getFileMetadata 1000 Examples.dl_store "f1").1, Ok resp)
    ∧ r_statusCode resp = 206
    ∧ sr_range (r_stream resp) = Some (mkRange 100 199)
    ∧ h_ContentLength (r_headers resp) = 199 - 100 + 1
    ∧ 1 ≤ h_ContentLength (r_headers resp) ≤ 1000
    ∧ h_ContentRange (r_headers resp) = Some (contentRangeHeader 100 199 1000)
    ∧ r_tasks resp = [].
Proof.
  apply (prepareDownload_partial_content 1000 Examples.dl_store "f1"
           (Examples.anonymous (Some "bytes=100-199")) _
           (metadata_of Examples.file1) (mkRange 100 199)); reflexivity.
Defined.

Lemma _checkAccess_granted_inv st md uid pw :
  is_ok (_checkAccess st md uid pw) = true →
  (md_hasPassword md = true →
     JS.truthy pw = true
     ∧ ∃ f, files st !! md_id md = Some f ∧ f_password f = pw)
  ∧ (md_isPublic md = false →
     ∃ u, uid = Some u
          ∧ (md_userId md = u
             ∨ ∃ usr, users st !! u = Some usr ∧ u_role usr = ADMIN)).
Proof.
  unfold _checkAccess.
  destruct (md_isPublic md) eqn:Hpub, (md_hasPassword md) eqn:Hpw; simpl.
  - destruct (JS.truthy pw) eqn:Ht; simpl; [|done].
    destruct (files st !! md_id md) as [f|]; [|done].
    destruct (bool_decide (f_password f = pw)) eqn:E; [|done].
    apply bool_decide_eq_true in E. intros _. split; [|done]. eauto.
  - done.
  - destruct (JS.truthy pw) eqn:Ht; simpl; [|done].
    destruct (files st !! md_id md) as [f|]; [|done].
    destruct (bool_decide (f_password f = pw)) eqn:E; [|done].
    apply bool_decide_eq_true in E.
    destruct uid as [u|]; [|done].
    destruct (bool_decide (md_userId md = u)) eqn:E2.
    + apply bool_decide_eq_true in E2. intros _. split; [eauto|]. eauto.
    + destruct (users st !! u) as [usr|] eqn:Eu; [|done].
      destruct (isAdmin usr) eqn:E3; [|done].
      apply bool_decide_eq_true in E3. intros _. split; [eauto|].
      intros _. exists u. split; [done|]. right. eauto.
  - destruct uid as [u|]; [|done].
    destruct (bool_decide (md_userId md = u)) eqn:E2.
    + apply bool_decide_eq_true in E2. intros _. split; [done|]. eauto.
    + destruct (users st !! u) as [usr|] eqn:Eu; [|done].
      destruct (isAdmin usr) eqn:E3; [|done].
      apply bool_decide_eq_true in E3. intros _. split; [done|].
      intros _. exists u. split; [done|]. right. eauto.
Qed.

Lemma _checkAccess_granted st md uid pw :
  (md_hasPassword md = true →
     JS.truthy pw = true
     ∧ ∃ f, files st !! md_id md = Some f ∧ f_password f = pw) →
  (md_isPublic md = false →
     ∃ u, uid = Some u
          ∧ (md_userId md = u
             ∨ ∃ usr, users st !! u = Some usr ∧ u_role usr = ADMIN)) →
  _checkAccess st md uid pw = Ok true.
Proof.
  intros H1 H2. unfold _checkAccess, isAdmin.
  destruct (md_isPublic md) eqn:Hpub, (md_hasPassword md) eqn:Hpw; simpl; try done.
  - destruct (H1 eq_refl) as (Ht & f & Hf & Hp). rewrite Ht, Hf. simpl.
    by rewrite bool_decide_true.
  - destruct (H1 eq_refl) as (Ht & f & Hf & Hp). rewrite Ht, Hf. simpl.
    rewrite bool_decide_true by done.
    destruct (H2 eq_refl) as (u & -> & [Hu|(usr & Hu & Hr)]).
    + by rewrite bool_decide_true.
    + rewrite Hu, (bool_decide_true _ Hr). by destruct (bool_decide _).
  - destruct (H2 eq_refl) as (u & -> & [Hu|(usr & Hu & Hr)]).
    + by rewrite bool_decide_true.
    + rewrite Hu, (bool_decide_true _ Hr). by destruct (bool_decide _).
Qed.

(** X2: _checkAccess lets a request through exactly when both gates hold for
    the metadata record it is handed: a record flagged hasPassword needs the
    password the file stores, whoever asks (the owner and an admin included);
    a private record needs a signed-in user who is the owner or an admin.  The
    record getFileMetadata builds from the database never carries the flag
    (the password path is not selected), so for it the privacy gate alone
    decides, whatever password the file stores and whatever the request
    brings. *)
Theorem checkAccess_decision st uid pw :
  (∀ md,
     is_ok (_checkAccess st md uid pw) = true ↔
     (md_hasPassword md = true →
        JS.truthy pw = true
        ∧ ∃ f, files st !! md_id md = Some f ∧ f_password f = pw)
     ∧ (md_isPublic md = false →
        ∃ u, uid = Some u
             ∧ (md_userId md = u
                ∨ ∃ usr, users st !! u = Some usr ∧ u_role usr = ADMIN)))
  ∧ (∀ now st0 fileId md,
       cache_get now st0 (cacheKey fileId) = None →
       (getFileMetadata now st0 fileId).2 = Ok md →
       md_hasPassword md = false)
  ∧ (∀ f,
       is_ok (_checkAccess st (metadata_of f) uid pw) = true ↔
       (f_isPublic f = false →
          ∃ u, uid = Some u
               ∧ (f_userId f = u
                  ∨ ∃ usr, users st !! u = Some usr ∧ u_role usr = ADMIN))).
Proof.
  split_and!.
  - intros md. split.
    + apply _checkAccess_granted_inv.
    + intros [H1 H2]. by rewrite _checkAccess_granted.
  - intros now st0 fileId md Hc. unfold getFileMetadata. rewrite Hc.
    destruct (files st0 !! fileId) as [f|]; [|done].
    destruct (f_isDeleted f); [done|]. destruct (isExpired now f); [done|].
    by intros [= <-].
  - intros f. split.
    + intros H. by apply _checkAccess_granted_inv in H as [_ H].
    + intros H. by rewrite _checkAccess_granted.
Qed.

(** A public file that stores a password is served to an anonymous request
    that brings none. *)
Example password_not_asked_for :
  let st := mkStore {[ "f3" := Samples.secret_file ]} ∅ ∅ in
  r_statusCode <$> ok_value (prepareDownload 1000 st "f3" (Examples.anonymous None)).2
  = Some 200.
Proof. reflexivity. Qed.

(** X3: metadata that getFileMetadata has read from the database on a cache
    miss is served from the cache for the next 300 seconds, whatever happens to
    the File and User collections in between, as long as the cached entry is
    not dropped. *)
Theorem getFileMetadata_cached_for_ttl now st fileId st1 md now' fs us :
  cache_get now st (cacheKey fileId) = None →
  getFileMetadata now st fileId = (st1, Ok md) →
  now ≤ now' < now + METADATA_CACHE_TTL * 1000 →
  getFileMetadata now' (mkStore fs us (cache st1)) fileId
  = (mkStore fs us (cache st1), Ok md).
Proof.
  intros Hc Hm Ht. unfold getFileMetadata in Hm. rewrite Hc in Hm.
  destruct (files st !! fileId) as [f|]; [|done].
  destruct (f_isDeleted f); [done|]. destruct (isExpired now f); [done|].
  injection Hm as <- <-.
  apply getFileMetadata_hit. unfold cache_get, cache_set, with_cache. simpl.
  rewrite lookup_insert_eq. simpl.
  by replace (now' <? now + METADATA_CACHE_TTL * 1000) with true by lia.
Qed.

Lemma getFileMetadata_cached_for_ttl_witness :
  getFileMetadata 300999
    (mkStore ∅ ∅ (cache (getFileMetadata 1000 Examples.dl_store "f1").1)) "f1"
  = (mkStore ∅ ∅ (cache (getFileMetadata 1000 Examples.dl_store "f1").1),
     Ok (metadata_of Examples.file1)).
Proof.
  apply (getFileMetadata_cached_for_ttl 1000 Examples.dl_store "f1" _
           (metadata_of Examples.file1) 300999 ∅ ∅).
  - reflexivity.
  - reflexivity.
  - unfold METADATA_CACHE_TTL. lia.
Defined.

End DownloadMore.

(** ** DownloadService past the read path: counters, deletion and renaming *)

Section FileOpsProps.

Import Stream Download FileOps.

Variable cfg : Config.t.

Lemma getFileMetadata_collections now st fileId :
  files (getFileMetadata now st fileId).1 = files st
  ∧ users (getFileMetadata now st fileId).1 = users st.
Proof.
  unfold getFileMetadata. destruct (cache_get _ _ _); [done|].
  destruct (files st !! fileId) as [f|]; [|done].
  destruct (f_isDeleted f); [done|]. by destruct (isExpired now f).
Qed.

Lemma prepareDownload_store now st fileId opts :
  (prepareDownload now st fileId opts).1 = (getFileMetadata now st fileId).1.
Proof.
  unfold prepareDownload. destruct (getFileMetadata _ _ _) as [st1 [md|e]]; [|done].
  by destruct (_checkAccess _ _ _ _).
Qed.

Lemma _trackBandwidth_frame now uid bytes w :
  store (_trackBandwidth now uid bytes w) = store w
  ∧ storage (_trackBandwidth now uid bytes w) = storage w.
Proof. unfold _trackBandwidth. by destruct (getOrCreate _ _ _). Qed.


(** X4: a download and the calls it leaves behind never touch the storage
    backend; with a Range header the File collection is as before, and without
    one the record of the file (if the database still has it) is replaced by
    what incrementDownload makes of it, and no other record changes. *)
Theorem download_counts_full_downloads_only now fileId opts w w' resp :
  download cfg now fileId opts w = (w', Ok resp) →
  storage w' = storage w
  ∧ if JS.truthy (o_rangeHeader opts)
    then files (store w') = files (store w)
    else files (store w')
         = match files (store w) !! fileId with
           | Some f => <[fileId := FileModel.incrementDownload now
                                     (Config.extensionDays cfg) f]> (files (store w))
           | None => files (store w)
           end.
Proof.
  unfold download.
  pose proof (prepareDownload_store now (store w) fileId opts) as Hst.
  pose proof (getFileMetadata_collections now (store w) fileId) as [Hf _].
  rewrite <- Hst in Hf.
  destruct (prepareDownload now (store w) fileId opts) as [st1 [r|e]] eqn:E; [|done].
  simpl in Hf, Hst. intros [= <- <-].
  assert (r_tasks r
          = (if JS.truthy (o_rangeHeader opts) then [] else [IncrementDownload fileId])
            ++ match o_userId opts with
               | Some uid => [TrackBandwidth uid (h_ContentLength (r_headers r))]
               | None => []
               end) as ->.
  { unfold prepareDownload in E.
    destruct (getFileMetadata _ _ _) as [st2 [md|e]]; [|done].
    destruct (_checkAccess _ _ _ _); [|done]. by injection E as <- <-. }
  rewrite foldl_app.
  set (w1 := foldl _ (with_store st1 w) _).
  assert (storage w1 = storage w
          ∧ files (store w1)
            = if JS.truthy (o_rangeHeader opts) then files (store w)
              else match files (store w) !! fileId with
                   | Some f => <[fileId := FileModel.incrementDownload now
                                             (Config.extensionDays cfg) f]> (files (store w))
                   | None => files (store w)
                   end) as [Hs1 Hf1].
  { unfold w1. destruct (JS.truthy (o_rangeHeader opts)); simpl; [done|].
    unfold _incrementDownload. simpl. rewrite Hf.
    destruct (files (store w) !! fileId); simpl; [by rewrite Hf|done]. }
  destruct (o_userId opts) as [uid|]; simpl.
  - destruct (_trackBandwidth_frame now uid (h_ContentLength (r_headers r)) w1) as [-> ->].
    split; [done|]. rewrite Hf1. by destruct (JS.truthy (o_rangeHeader opts)).
  - split; [done|]. rewrite Hf1. by destruct (JS.truthy (o_rangeHeader opts)).
Qed.


Lemma may_modify_iff st file userId :
  may_modify st file userId = true ↔
  f_userId file = userId ∨ ∃ usr, users st !! userId = Some usr ∧ u_role usr = ADMIN.
Proof.
  unfold may_modify, isAdmin. case_bool_decide as E; simpl.
  - split; [by left|done].
  - destruct (users st !! userId) as [usr|].
    + case_bool_decide as E2.
      * split; [|done]. intros _. right. eauto.
      * split; [done|]. intros [?|(u & [= <-] & ?)]; done.
    + split; [done|]. intros [?|(u & ? & ?)]; done.
Qed.

(** X6: deleteFile succeeds exactly when the file record exists and the caller
    is its owner or an admin; a refusal is NOT_FOUND or AUTHORIZATION_ERROR and
    leaves every store as it was. *)
Theorem deleteFile_authorization now fileId userId w :
  let out := deleteFile cfg now fileId userId w in
  (is_ok out.2 = true ↔
   ∃ f, files (store w) !! fileId = Some f
        ∧ (f_userId f = userId
           ∨ ∃ usr, users (store w) !! userId = Some usr ∧ u_role usr = ADMIN))
  ∧ (is_ok out.2 = false →
     out.1 = w
     ∧ (thrown_code out.2 = Some NOT_FOUND
        ∨ thrown_code out.2 = Some AUTHORIZATION_ERROR)).
Proof.
  unfold deleteFile. destruct (files (store w) !! fileId) as [f|]; simpl.
  - destruct (may_modify (store w) f userId) eqn:E; simpl.
    + apply may_modify_iff in E. split; [|done]. split; [eauto|done].
    + split; [|by eauto]. split; [done|].
      intros (f' & [= <-] & H). apply may_modify_iff in H. congruence.
  - split; [|by eauto]. split; [done|]. by intros (f' & ? & _).
Qed.

(** X7: after a successful deleteFile the file is NOT_FOUND for every later
    read (the cached metadata is dropped and the record is soft-deleted), its
    blob is gone from the tier the record names, and the quota of the owner of
    the file is charged back the size and one file, never below zero. *)
Theorem deleteFile_effects now fileId userId w w' msg f :
  deleteFile cfg now fileId userId w = (w', Ok msg) →
  files (store w) !! fileId = Some f →
  (∀ t, thrown_code (getFileMetadata t (store w') fileId).2 = Some NOT_FOUND)
  ∧ files (store w') !! fileId = Some (FileModel.softDelete now f)
  ∧ Storage.blobs (storage w') !! (f_storageTier f, f_storageKey f) = None
  ∧ ∃ q', quotas w' !! f_userId f = Some q'
          ∧ Quota.q_storage q'
            = Z.max 0 (from_option Quota.q_storage 0 (quotas w !! f_userId f) - f_size f)
          ∧ Quota.q_files q'
            = Z.max 0 (from_option Quota.q_files 0 (quotas w !! f_userId f) - 1).
Proof.
  unfold deleteFile. intros H Hf. rewrite Hf in H.
  destruct (may_modify (store w) f userId); [|done]. simpl in H.
  injection H as <- _. unfold remove_file.
  destruct (getOrCreate now (f_userId f) (quotas w)) as [qs quota] eqn:Eq.
  split_and!.
  - intros t. unfold getFileMetadata, cache_get, cache_delete, with_cache, save_file.
    simpl. by rewrite lookup_delete_eq, lookup_insert_eq.
  - simpl. by rewrite lookup_insert_eq.
  - unfold Storage.delete_blob. simpl. by rewrite lookup_delete_eq.
  - simpl. rewrite lookup_insert_eq. eexists; split; [done|].
    assert (Quota.q_storage quota = from_option Quota.q_storage 0 (quotas w !! f_userId f)
            ∧ Quota.q_files quota = from_option Quota.q_files 0 (quotas w !! f_userId f))
      as [Hs Hn].
    { unfold getOrCreate in Eq. destruct (quotas w !! f_userId f); by injection Eq as <- <-. }
    unfold Quota.removeFile. rewrite Hs, Hn. by destruct (_ || _).
Qed.

Lemma all_chars_replace_reserved s :
  JS.all_chars (λ c, negb (Security.is_reserved c)) (Security.replace_reserved s) = true.
Proof.
  induction s as [|c r IH]; simpl; [done|]. rewrite IH, andb_true_r.
  by destruct (Security.is_reserved c) eqn:E; [|rewrite E].
Qed.

Lemma length_substring_le n s : (String.length (String.substring 0 n s) ≤ n)%nat.
Proof.
  revert s. induction n as [|n IH]; intros [|c r]; simpl; try lia.
  specialize (IH r). lia.
Qed.

(** X8: the name renameFile stores has none of the reserved characters, is
    trimmed, not empty and at most 255 characters long; the record carries it
    and the cached metadata of the file is dropped, while the storage backend
    and the quotas are not touched. *)
Theorem renameFile_sanitized fileId userId newName w w' name :
  renameFile fileId userId newName w = (w', Ok name) →
  JS.all_chars (λ c, negb (Security.is_reserved c)) name = true
  ∧ (0 < String.length name)%nat ∧ (String.length name ≤ 255)%nat
  ∧ JS.trim name = name
  ∧ f_originalName <$> files (store w') !! fileId = Some name
  ∧ cache (store w') !! cacheKey fileId = None
  ∧ storage w' = storage w ∧ quotas w' = quotas w.
Proof.
  unfold renameFile. destruct (files (store w) !! fileId) as [f|]; [|done].
  destruct (may_modify (store w) f userId); [|done]. cbn [negb]. cbv zeta.
  remember (JS.trim (String.substring 0 255 (Security.replace_reserved newName)))
    as s eqn:Hs.
  destruct (JS.truthy (Some s)) eqn:Et; simpl; [|done].
  intros [= <- <-]. split_and!.
  - rewrite Hs. apply all_chars_trim, all_chars_substring, all_chars_replace_reserved.
  - destruct s; [by simpl in Et|simpl; lia].
  - rewrite Hs. unfold JS.trim.
    etrans; [apply length_trimEnd|]. etrans; [apply length_trimStart|].
    apply length_substring_le.
  - rewrite Hs. apply trim_idem.
  - simpl. by rewrite lookup_insert_eq.
  - simpl. by rewrite lookup_delete_eq.
  - done.
  - done.
Qed.

(** *** The expiry worker *)

Lemma deleteExpiredFile_spares now id w k f :
  files (store w) !! k = Some f →
  isExpired now f = false →
  files (store (deleteExpiredFile cfg now id w).1) !! k = Some f.
Proof.
  intros Hk He. unfold deleteExpiredFile.
  destruct (files (store w) !! id) as [g|] eqn:Eg; [|done].
  destruct (isExpired now g) eqn:E; simpl; [|done].
  unfold remove_file. destruct (getOrCreate _ _ _). simpl.
  destruct (decide (id = k)) as [->|Hne]; [congruence|].
  by rewrite lookup_insert_ne.
Qed.

Lemma delete_all_spares now fs acc w k f :
  files (store w) !! k = Some f →
  isExpired now f = false →
  files (store (delete_all cfg now fs acc w).1) !! k = Some f.
Proof.
  revert acc w. induction fs as [|g fs IH]; intros acc w Hk He; simpl; [done|].
  pose proof (deleteExpiredFile_spares now (f_id g) w k f Hk He) as H.
  destruct (deleteExpiredFile cfg now (f_id g) w) as [w1 ok]. by apply IH.
Qed.

Lemma delete_all_counts now fs acc w :
  let b := (delete_all cfg now fs acc w).2 in
  processed b = (processed acc + length fs)%nat
  ∧ (deleted b + failed b = deleted acc + failed acc + length fs)%nat.
Proof.
  revert acc w. induction fs as [|g fs IH]; intros acc w; simpl; [lia|].
  destruct (deleteExpiredFile cfg now (f_id g) w) as [w1 ok].
  specialize (IH (if ok then mkBatch (S (processed acc)) (S (deleted acc)) (failed acc)
                  else mkBatch (S (processed acc)) (deleted acc) (S (failed acc))) w1).
  simpl in IH. destruct ok; simpl in *; lia.
Qed.

(** X9: a pass of the expiry worker leaves alone every file that has not
    expired at that instant, in particular every file without an expiry date;
    every file it looks at had expired and was not deleted; with a positive
    [limit] it looks at no more than [limit] files (a limit of 0 is no limit
    at all); and it counts each file it looks at as deleted or failed. *)
Theorem processExpiredBatch_spares_unexpired now limit w :
  let out := processExpiredBatch cfg now limit w in
  (∀ k f, files (store w) !! k = Some f → isExpired now f = false →
          files (store out.1) !! k = Some f)
  ∧ (∀ f, f ∈ FileModel.findExpiredFiles now (files (store w)) limit →
          (∃ e, f_expiresAt f = Some e ∧ e ≤ now) ∧ f_isDeleted f = false)
  ∧ processed out.2 = length (FileModel.findExpiredFiles now (files (store w)) limit)
  ∧ (limit ≠ 0%nat → (processed out.2 ≤ limit)%nat)
  ∧ (deleted out.2 + failed out.2 = processed out.2)%nat.
Proof.
  unfold processExpiredBatch.
  destruct (delete_all_counts now
              (FileModel.findExpiredFiles now (files (store w)) limit)
              (mkBatch 0 0 0) w) as [H1 H2].
  split_and!.
  - intros k f. apply delete_all_spares.
  - intros f Hf. unfold FileModel.findExpiredFiles in Hf.
    apply cursor_limit_subseteq in Hf. rewrite merge_sort_Permutation in Hf.
    apply list_elem_of_In, filter_In in Hf as [_ Hf].
    unfold FileModel.expired_query in Hf.
    destruct (f_expiresAt f) as [e|]; [|done].
    apply andb_true_iff in Hf as [He Hd].
    split; [|by apply negb_true_iff]. exists e. split; [done|lia].
  - by rewrite H1.
  - intros Hl. rewrite H1. simpl. unfold FileModel.findExpiredFiles.
    by apply length_cursor_limit.
  - rewrite H1, H2. simpl. lia.
Qed.

End FileOpsProps.

Section FileOpsWitnesses.

Import Stream Download FileOps.

Lemma download_counts_full_downloads_only_witness :
  let out := download Config.defaults 1000 "f1" (Examples.anonymous None)
               Samples.ops_world in
  storage out.1 = storage Samples.ops_world
  ∧ files (store out.1)
    = <[ "f1" := FileModel.incrementDownload 1000 5 Examples.file1 ]>
        (files (store Samples.ops_world)).
Proof.
  eapply (download_counts_full_downloads_only Config.defaults 1000 "f1"
            (Examples.anonymous None) Samples.ops_world).
  by vm_compute.
Defined.


Lemma deleteFile_effects_witness :
  let w' := (deleteFile Config.defaults 1000 "f1" "u1" Samples.ops_world).1 in
  (∀ t, thrown_code (getFileMetadata t (store w') "f1").2 = Some NOT_FOUND)
  ∧ files (store w') !! "f1" = Some (FileModel.softDelete 1000 Examples.file1)
  ∧ Storage.blobs (storage w') !! (HOT, "u1_1_abcdef.txt") = None
  ∧ ∃ q', quotas w' !! "u1" = Some q'
          ∧ Quota.q_storage q' = Z.max 0 (1000 - 1000)
          ∧ Quota.q_files q' = Z.max 0 (1 - 1).
Proof.
  apply (deleteFile_effects Config.defaults 1000 "f1" "u1" Samples.ops_world _
           "File deleted" Examples.file1).
  - by vm_compute.
  - reflexivity.
Defined.

Lemma renameFile_sanitized_witness :
  let w' := (renameFile "f1" "u1" " a/b?.txt " Samples.ops_world).1 in
  JS.all_chars (λ c, negb (Security.is_reserved c)) "a_b_.txt" = true
  ∧ (0 < String.length "a_b_.txt")%nat ∧ (String.length "a_b_.txt" ≤ 255)%nat
  ∧ JS.trim "a_b_.txt" = "a_b_.txt"
  ∧ f_originalName <$> files (store w') !! "f1" = Some "a_b_.txt"
  ∧ cache (store w') !! cacheKey "f1" = None
  ∧ storage w' = storage Samples.ops_world ∧ quotas w' = quotas Samples.ops_world.
Proof.
  apply (renameFile_sanitized "f1" "u1" " a/b?.txt " Samples.ops_world _ "a_b_.txt").
  by vm_compute.
Defined.

End FileOpsWitnesses.

(** ** sanitizeFilename and verifyHash *)

Section SanitizeMore.

Import Security.

(** X10: a name that sanitizeFilename returns holds no control character and
    none of the reserved characters (so no slash, backslash or NUL), is trimmed
    and not empty, is neither a single nor a double dot, and is no longer than
    the configured maximum; the input it came from matched none of the
    traversal patterns. *)
Theorem sanitizeFilename_output_safe maxLen x s :
  sanitizeFilename maxLen x = Ok s →
  JS.all_chars clean s = true
  ∧ JS.count_char "/" s = 0
  ∧ s ≠ "" ∧ s ≠ "." ∧ s ≠ ".."
  ∧ JS.trim s = s
  ∧ Z.of_nat (String.length s) ≤ maxLen
  ∧ dangerous x = false.
Proof.
  unfold sanitizeFilename.
  destruct (negb (JS.truthy (Some x))); [done|].
  destruct (Z.of_nat (String.length x) >? maxLen) eqn:El; [done|].
  destruct (dangerous x) eqn:Ed; [done|].
  cbv zeta.
  remember (JS.trim (replace_reserved (remove_control (basename x)))) as t eqn:Ht.
  destruct (negb (JS.truthy (Some t)) || bool_decide (t = ".") || bool_decide (t = ".."))
    eqn:E; [done|].
  intros [= <-].
  apply orb_false_iff in E as [E E3]. apply orb_false_iff in E as [E1 E2].
  apply bool_decide_eq_false in E2, E3.
  assert (JS.all_chars clean t = true) as Hc.
  { rewrite Ht. apply all_chars_trim, clean_after_replacements. }
  split_and!; try done.
  - clear -Hc. induction t as [|c r IH]; simpl in *; [done|].
    apply andb_true_iff in Hc as [Hc Hr]. rewrite (IH Hr).
    destruct (decide (c = "/"%char)) as [->|]; [done|done].
  - by destruct t.
  - rewrite Ht. apply trim_idem.
  - assert (String.length t ≤ String.length x)%nat; [|lia].
    rewrite Ht. unfold JS.trim.
    etrans; [apply length_trimEnd|]. etrans; [apply length_trimStart|].
    rewrite length_replace_reserved.
    etrans; [apply length_remove_control|]. apply length_basename.
Qed.

Lemma sanitizeFilename_output_safe_witness :
  JS.all_chars clean "c_d.txt" = true
  ∧ JS.count_char "/" "c_d.txt" = 0
  ∧ "c_d.txt" ≠ "" ∧ "c_d.txt" ≠ "." ∧ "c_d.txt" ≠ ".."
  ∧ JS.trim "c_d.txt" = "c_d.txt"
  ∧ Z.of_nat (String.length "c_d.txt") ≤ 255
  ∧ dangerous "a/b/c:d.txt " = false.
Proof.
  apply (sanitizeFilename_output_safe 255 "a/b/c:d.txt " "c_d.txt"). reflexivity.
Defined.

Lemma lower_char_idem c : Stream.lower_char (Stream.lower_char c) = Stream.lower_char c.
Proof. by destruct c as [[] [] [] [] [] [] [] []]. Qed.

Lemma toLowerCase_idem s : Stream.toLowerCase (Stream.toLowerCase s) = Stream.toLowerCase s.
Proof. induction s as [|c s IH]; simpl; [done|]. by rewrite lower_char_idem, IH. Qed.

Lemma truthy_lower s : JS.truthy (Some (lower s)) = JS.truthy (Some s).
Proof. by destruct s. Qed.

(** X11: verifyHash does not see the case of the letters of either argument,
    does not depend on the order of its arguments, and accepts every non-empty
    string against itself. *)
Theorem verifyHash_case_insensitive a e :
  Hash.verifyHash (lower a) e = Hash.verifyHash a e
  ∧ Hash.verifyHash a (lower e) = Hash.verifyHash a e
  ∧ Hash.verifyHash a e = Hash.verifyHash e a
  ∧ (a ≠ "" → Hash.verifyHash a a = true).
Proof.
  unfold Hash.verifyHash. rewrite !truthy_lower. unfold lower.
  rewrite !toLowerCase_idem. split_and!; try done.
  - rewrite (orb_comm (negb (JS.truthy (Some a)))).
    destruct (_ || _); [done|]. apply bool_decide_ext. split; congruence.
  - intros H. destruct a; [done|]. simpl. by rewrite bool_decide_true.
Qed.

End SanitizeMore.

(** ** The quota model *)

Section QuotaMore.

Import Quota.

Variable cfg : Config.t.
Variable users : gmap string User.

Lemma addFile_fields now q size :
  q_userId (addFile cfg users now q size) = q_userId q
  ∧ q_limits (addFile cfg users now q size) = q_limits q
  ∧ q_storage (addFile cfg users now q size) = q_storage q + size
  ∧ q_files (addFile cfg users now q size) = q_files q + 1.
Proof. unfold addFile. by destruct (_ && _). Qed.

(** X12: an upload that canUpload admits stays within every finite limit when
    addFile records it, and addFile does not raise the over-quota flag for
    it. *)
Theorem canUpload_admitted_stays_within now q size :
  canUpload cfg users q size = [] →
  let q' := addFile cfg users now q size in
  let lim := getEffectiveLimit cfg users q in
  q_isOverQuota q' = q_isOverQuota q
  ∧ q_overQuotaSince q' = q_overQuotaSince q
  ∧ (lim MaxStorage ≠ -1 → q_storage q' ≤ lim MaxStorage)
  ∧ (lim MaxFiles ≠ -1 → q_files q' ≤ lim MaxFiles)
  ∧ (lim MaxFileSize ≠ -1 → size ≤ lim MaxFileSize).
Proof.
  unfold canUpload, addFile. intros H.
  apply app_eq_nil in H as [H1 H]. apply app_eq_nil in H as [H2 H3].
  destruct (negb (_ =? -1) && (size >? _)) eqn:E1; [done|].
  destruct (negb (_ =? -1) && (_ + size >? _)) eqn:E2; [done|].
  destruct (negb (_ =? -1) && (_ >=? _)) eqn:E3; [done|].
  simpl. split_and!; try done; intros; lia.
Qed.

(** X13: removeFile undoes addFile on the two usage counters whenever they
    were not negative: the storage used and the number of files are back to
    what they were. *)
Theorem addFile_removeFile_round_trip now q size :
  0 ≤ q_storage q → 0 ≤ q_files q →
  let q1 := removeFile cfg users (addFile cfg users now q size) size in
  q_storage q1 = q_storage q ∧ q_files q1 = q_files q.
Proof.
  intros Hs Hf.
  destruct (addFile_fields now q size) as (_ & _ & H3 & H4).
  unfold removeFile. rewrite H3, H4.
  destruct (_ || _); simpl; lia.
Qed.

End QuotaMore.

Section QuotaWitnesses.

Import Quota.

Lemma canUpload_admitted_stays_within_witness :
  let q' := addFile Config.defaults ∅ 1000 Samples.quota_u1 10 in
  let lim := getEffectiveLimit Config.defaults ∅ Samples.quota_u1 in
  q_isOverQuota q' = false
  ∧ q_overQuotaSince q' = None
  ∧ (lim MaxStorage ≠ -1 → q_storage q' ≤ lim MaxStorage)
  ∧ (lim MaxFiles ≠ -1 → q_files q' ≤ lim MaxFiles)
  ∧ (lim MaxFileSize ≠ -1 → 10 ≤ lim MaxFileSize).
Proof.
  apply (canUpload_admitted_stays_within Config.defaults ∅ 1000 Samples.quota_u1 10).
  reflexivity.
Defined.

Lemma addFile_removeFile_round_trip_witness :
  let q1 := removeFile Config.defaults ∅
              (addFile Config.defaults ∅ 1000 Samples.quota_u1 10) 10 in
  q_storage q1 = 1000 ∧ q_files q1 = 1.
Proof.
  apply (addFile_removeFile_round_trip Config.defaults ∅ 1000 Samples.quota_u1 10);
    simpl; lia.
Defined.

End QuotaWitnesses.

(** ** The rate limiter over a run of requests *)

Section RateLimitMore.

Import RateLimiter Notions.

Lemma foldr_min_le s rest x : x ∈ s :: rest → foldr Z.min s rest ≤ x.
Proof.
  induction rest as [|r rest IH]; simpl.
  - intros ->%list_elem_of_singleton. lia.
  - intros H. apply elem_of_cons in H as [->|H].
    + pose proof (IH ltac:(left)). lia.
    + apply elem_of_cons in H as [->|H]; [lia|].
      pose proof (IH ltac:(by right)). lia.
Qed.

Lemma zrange_first_score_le m k x :
  m !! k = Some x → ∃ o, zrange_first_score m = Some o ∧ o ≤ x.
Proof.
  intros H. unfold zrange_first_score.
  assert (x ∈ (map_to_list m).*2) as Hx.
  { apply list_elem_of_fmap. exists (k, x). split; [done|].
    by apply elem_of_map_to_list. }
  destruct ((map_to_list m).*2) as [|s rest]; [by apply elem_of_nil in Hx|].
  eexists; split; [done|]. by apply foldr_min_le.
Qed.

Lemma ceil_div_1000_le a b : a ≤ b * 1000 → ceil_div_1000 a ≤ b.
Proof.
  intros H. unfold ceil_div_1000.
  assert (- b ≤ (- a) / 1000); [|lia].
  apply Z.div_le_lower_bound; lia.
Qed.

(** X14: the verdict of a check that reaches the store is well formed: an
    allowed request is told a remaining budget between 0 and limit - 1 and no
    waiting time; a denied request is told no remaining budget and a waiting
    time of at least one second and at most the window. *)
Theorem checkRateLimit_verdict_bounds now rnd db identifier type lim W :
  let v := (checkRateLimit true now rnd db identifier type lim W).2 in
  limit v = lim
  ∧ if allowed v
    then retryAfter v = 0 ∧ 0 ≤ remaining v < lim
    else remaining v = 0 ∧ 1 ≤ retryAfter v ≤ Z.max 1 W.
Proof.
  unfold checkRateLimit, run_pipeline. simpl.
  set (m1 := zremrangebyscore 0 (now - W * 1000)
               (live_members now db (rl_key type identifier))).
  destruct (zcard m1 >=? lim) eqn:E; simpl.
  - split; [done|]. split; [done|]. split; [lia|].
    unfold live_members. rewrite lookup_insert_eq. simpl.
    destruct (now <? now + W * 1000) eqn:Ew.
    + destruct (zrange_first_score_le (zadd now (entry now rnd) m1) (entry now rnd) now)
        as (o & -> & Ho).
      { unfold zadd. by rewrite lookup_insert_eq. }
      pose proof (ceil_div_1000_le (o + W * 1000 - now) W ltac:(lia)). lia.
    + unfold zrange_first_score. rewrite map_to_list_empty. simpl. lia.
  - split; [done|]. split; [done|]. unfold zcard in *. lia.
Qed.

Lemma size_ge_of_entries (m : gmap string Z) (seen : list (string * Z)) :
  NoDup seen.*1 →
  (∀ n s, (n, s) ∈ seen → m !! n = Some s) →
  (length seen ≤ size m)%nat.
Proof.
  intros Hnd H.
  assert (list_to_set seen.*1 ⊆ dom m) as Hsub.
  { intros n Hn. apply elem_of_list_to_set, list_elem_of_fmap in Hn as ([n' s] & -> & Hn).
    apply elem_of_dom. exists s. by apply H. }
  apply subseteq_size in Hsub. rewrite size_dom in Hsub.
  rewrite size_list_to_set in Hsub by done. by rewrite length_fmap in Hsub.
Qed.

(* the entries [seen] of the run so far are still in the window of every
   request to come, so each of them is counted *)
Lemma checks_budget_gen identifier type lim W reqs :
  ∀ db (seen : list (string * Z)),
  NoDup (seen.*1 ++ ((λ q, entry q.1 q.2) <$> reqs)) →
  (∀ q q', q ∈ reqs → q' ∈ reqs → q'.1 - q.1 < W * 1000) →
  (∀ n s q, (n, s) ∈ seen → q ∈ reqs → q.1 - W * 1000 < s) →
  (seen = [] ∨
   ∃ zs ex, db !! rl_key type identifier = Some zs
            ∧ (∀ n s, (n, s) ∈ seen → members zs !! n = Some s)
            ∧ expireAt zs = Some ex ∧ ∀ q, q ∈ reqs → q.1 < ex) →
  (length (List.filter allowed (checks reqs db identifier type lim W).2)
   ≤ Z.to_nat lim - length seen)%nat.
Proof.
  induction reqs as [|[now rnd] reqs IH]; intros db seen Hnd Hwin Hkeep Hdb; simpl.
  { lia. }
  destruct (checkRateLimit true now rnd db identifier type lim W) as [db1 v] eqn:Ec.
  destruct (checks reqs db1 identifier type lim W) as [db2 vs] eqn:Ek. simpl.
  set (key := rl_key type identifier) in *.
  set (m1 := zremrangebyscore 0 (now - W * 1000) (live_members now db key)).
  assert (∀ n s, (n, s) ∈ seen → m1 !! n = Some s) as Hm1.
  { intros n s Hn. destruct Hdb as [->|(zs & ex & Hz & Hmem & Hex & Hlt)];
      [by apply elem_of_nil in Hn|].
    unfold m1, zremrangebyscore. apply map_lookup_filter_Some. split.
    - unfold live_members. rewrite Hz, Hex.
      specialize (Hlt (now, rnd) ltac:(left)). simpl in Hlt.
      replace (now <? ex) with true by lia. by apply Hmem.
    - simpl. specialize (Hkeep n s (now, rnd) Hn ltac:(left)). simpl in Hkeep. lia. }
  assert (length seen ≤ size m1)%nat as Hsz.
  { apply size_ge_of_entries; [|done]. by apply NoDup_app in Hnd as [? _]. }
  assert (db1 = <[key := mkZSet (zadd now (entry now rnd) m1) (Some (now + W * 1000))]> db
          ∧ allowed v = negb (zcard m1 >=? lim)) as [Hdb1 Hv].
  { unfold checkRateLimit, run_pipeline in Ec. simpl in Ec. fold key m1 in Ec.
    destruct (zcard m1 >=? lim); by injection Ec as <- <-. }
  specialize (IH db1 ((entry now rnd, now) :: seen)).
  rewrite Ek in IH. simpl in IH.
  assert (length (List.filter allowed vs) ≤ Z.to_nat lim - S (length seen))%nat as Hrest.
  { apply IH.
    - simpl in Hnd. simpl. apply NoDup_app in Hnd as (H1 & H2 & H3).
      apply NoDup_cons in H3 as [H3 H4].
      apply NoDup_cons. split.
      + intros [Hin|Hin]%elem_of_app; [|done].
        apply (H2 _ Hin). left.
      + apply NoDup_app. split_and!; [done| |done].
        intros x Hx Hx'. apply (H2 x Hx). by right.
    - intros q q' Hq Hq'. apply Hwin; by right.
    - intros n s q [[= -> ->]|Hn]%elem_of_cons Hq.
      + specialize (Hwin (now, rnd) q ltac:(left) ltac:(by right)). simpl in Hwin. lia.
      + apply (Hkeep n s q Hn). by right.
    - right. eexists _, _. rewrite Hdb1, lookup_insert_eq. split; [done|]. simpl.
      split_and!; [|done|].
      + intros n s [[= -> ->]|Hn]%elem_of_cons.
        * unfold zadd. by rewrite lookup_insert_eq.
        * unfold zadd. rewrite lookup_insert_ne; [by apply Hm1|].
          intros <-. simpl in Hnd. apply NoDup_app in Hnd as (_ & H2 & _).
          apply (H2 (entry now rnd)); [|left].
          apply list_elem_of_fmap. by exists (entry now rnd, s).
      + intros q Hq.
        specialize (Hwin (now, rnd) q ltac:(left) ltac:(by right)). simpl in Hwin. lia. }
  destruct (allowed v) eqn:Ea; simpl; [|lia].
  symmetry in Hv. apply negb_true_iff in Hv. unfold zcard in Hv. lia.
Qed.

(** X15: the budget of the sliding window.  In a run of checks for one
    identifier whose instants all lie within one window of each other, and
    whose entries (instant and random suffix) are pairwise distinct, at most
    [limit] requests are allowed, whatever the store held before. *)
Theorem checkRateLimit_window_budget reqs db identifier type lim W :
  NoDup ((λ q, entry q.1 q.2) <$> reqs) →
  (∀ q q', q ∈ reqs → q' ∈ reqs → q'.1 - q.1 < W * 1000) →
  (length (List.filter allowed (checks reqs db identifier type lim W).2)
   ≤ Z.to_nat lim)%nat.
Proof.
  intros Hnd Hwin.
  pose proof (checks_budget_gen identifier type lim W reqs db [] Hnd Hwin) as H.
  simpl in H. rewrite Nat.sub_0_r in H. apply H; [|by left].
  intros n s q Hn. by apply elem_of_nil in Hn.
Qed.

Lemma checkRateLimit_window_budget_witness :
  (length (List.filter allowed
             (checks Samples.burst Examples.rl_db "ip:10.0.0.7" DOWNLOAD 2 60).2)
   ≤ Z.to_nat 2)%nat.
Proof.
  apply (checkRateLimit_window_budget Samples.burst Examples.rl_db "ip:10.0.0.7"
           DOWNLOAD 2 60).
  - refine (bool_decide_unpack _ _). by vm_compute.
  - intros q q' Hq Hq'. unfold Samples.burst in *.
    repeat (apply elem_of_cons in Hq as [->|Hq]);
      try (by apply elem_of_nil in Hq);
      repeat (apply elem_of_cons in Hq' as [->|Hq']);
      try (by apply elem_of_nil in Hq'); simpl; lia.
Defined.

End RateLimitMore.

(** ** Tier migration: the hot pass, one migration, and the whole worker run *)

Section TierMore.

Import Tier HotTier Notions.

(** X16: every candidate of the hot pass is a file for which shouldMigrateToHot
    answers true under the same configuration; it is a record of the
    collection, not deleted, with no migration pending or in progress. *)
Theorem hot_candidates_should_migrate cfg now w limit f :
  f ∈ getHotMigrationCandidates cfg now w limit →
  shouldMigrateToHot cfg now f = true
  ∧ f_isDeleted f = false
  ∧ f_migrationStatus f ≠ m_pending
  ∧ f_migrationStatus f ≠ m_in_progress
  ∧ ∃ k, files w !! k = Some f.
Proof.
  unfold getHotMigrationCandidates, FileModel.findHotMigrationCandidates.
  intros H. apply cursor_limit_subseteq in H. rewrite merge_sort_Permutation in H.
  apply list_elem_of_In, filter_In in H as [Hin H]. unfold FileModel.hot_query in H.
  repeat (apply andb_true_iff in H as [H ?]).
  apply bool_decide_eq_true in H.
  match goal with Hn : negb (_ || _) = true |- _ =>
    apply negb_true_iff, orb_false_iff in Hn as [Hp Hi] end.
  apply bool_decide_eq_false in Hp, Hi.
  split_and!; [|by apply negb_true_iff|done|done|].
  - unfold shouldMigrateToHot. rewrite H. simpl.
    destruct (f_lastDownloadAt f) as [d|]; [|done].
    unfold FileModel.MS_PER_DAY in *.
    replace (d >=? now - 7 * 24 * 60 * 60 * 1000) with true by lia. done.
  - apply list_elem_of_In, list_elem_of_fmap in Hin as ([k g] & -> & Hin).
    apply elem_of_map_to_list in Hin. eauto.
Qed.

Lemma hot_candidates_should_migrate_witness :
  shouldMigrateToHot Config.defaults Examples.day30 Samples.cold_file = true
  ∧ f_isDeleted Samples.cold_file = false
  ∧ f_migrationStatus Samples.cold_file ≠ m_pending
  ∧ f_migrationStatus Samples.cold_file ≠ m_in_progress
  ∧ ∃ k, files Samples.hot_world !! k = Some Samples.cold_file.
Proof.
  apply (hot_candidates_should_migrate Config.defaults Examples.day30 Samples.hot_world
           100 Samples.cold_file).
  apply list_elem_of_In. vm_compute. by left.
Defined.

Lemma migrateFile_success now w fileId target file data :
  files w !! fileId = Some file →
  f_storageTier file ≠ target →
  Storage.blobs (storage w) !! (f_storageTier file, f_storageKey file) = Some data →
  let out := migrateFile now w fileId target in
  out.2 = Ok tt
  ∧ files out.1 !! fileId = Some (set_tier_status file target m_completed (Some now))
  ∧ Storage.blobs (storage out.1) !! (target, f_storageKey file) = Some data
  ∧ Storage.blobs (storage out.1) !! (f_storageTier file, f_storageKey file) = None
  ∧ (∀ k, k.2 ≠ f_storageKey file →
          Storage.blobs (storage out.1) !! k = Storage.blobs (storage w) !! k)
  ∧ (∀ k, k ≠ fileId → files out.1 !! k = files w !! k).
Proof.
  intros Hf Ht Hb. unfold migrateFile. rewrite Hf.
  rewrite bool_decide_false by done. unfold Storage.migrate. simpl. rewrite Hb. simpl.
  split_and!; try done.
  - by rewrite lookup_insert_eq.
  - rewrite lookup_delete_ne by congruence. by rewrite lookup_insert_eq.
  - by rewrite lookup_delete_eq.
  - intros [t k] Hk. simpl in Hk.
    rewrite lookup_delete_ne by congruence. by rewrite lookup_insert_ne by congruence.
  - intros k Hk. by rewrite !lookup_insert_ne by done.
Qed.

Lemma migrateFile_failure now w fileId target file :
  files w !! fileId = Some file →
  f_storageTier file ≠ target →
  Storage.blobs (storage w) !! (f_storageTier file, f_storageKey file) = None →
  let out := migrateFile now w fileId target in
  is_ok out.2 = false
  ∧ storage out.1 = storage w
  ∧ files out.1 !! fileId = Some (set_migrationStatus file m_failed)
  ∧ (∀ k, k ≠ fileId → files out.1 !! k = files w !! k).
Proof.
  intros Hf Ht Hb. unfold migrateFile. rewrite Hf.
  rewrite bool_decide_false by done. unfold Storage.migrate. simpl. rewrite Hb. simpl.
  split_and!; try done.
  - by rewrite lookup_insert_eq.
  - intros k Hk. by rewrite !lookup_insert_ne by done.
Qed.

(** X17: migrateFile of a file to a tier it is not on.  If the blob is where
    the record says, the call succeeds: the same bytes are on the target tier
    and no longer on the source tier, the record names the target tier with
    migrationStatus completed and lastMigrationAt set, and no other blob or
    record changes.  If the blob is missing, the call fails, the backend is
    untouched, and the record keeps its tier with migrationStatus failed. *)
Theorem migrateFile_outcome now w fileId target file :
  files w !! fileId = Some file →
  f_storageTier file ≠ target →
  let out := migrateFile now w fileId target in
  (∀ k, k ≠ fileId → files out.1 !! k = files w !! k)
  ∧ match Storage.blobs (storage w) !! (f_storageTier file, f_storageKey file) with
    | Some data =>
        out.2 = Ok tt
        ∧ files out.1 !! fileId
          = Some (set_tier_status file target m_completed (Some now))
        ∧ Storage.blobs (storage out.1) !! (target, f_storageKey file) = Some data
        ∧ Storage.blobs (storage out.1) !! (f_storageTier file, f_storageKey file) = None
        ∧ (∀ k, k.2 ≠ f_storageKey file →
                Storage.blobs (storage out.1) !! k = Storage.blobs (storage w) !! k)
    | None =>
        is_ok out.2 = false
        ∧ storage out.1 = storage w
        ∧ files out.1 !! fileId = Some (set_migrationStatus file m_failed)
    end.
Proof.
  intros Hf Ht out.
  destruct (Storage.blobs (storage w) !! (f_storageTier file, f_storageKey file))
    as [data|] eqn:Hb.
  - destruct (migrateFile_success now w fileId target file data Hf Ht Hb)
      as (H1 & H2 & H3 & H4 & H5 & H6). by split_and!.
  - destruct (migrateFile_failure now w fileId target file Hf Ht Hb)
      as (H1 & H2 & H3 & H4). by split_and!.
Qed.

Lemma migrateFile_outcome_witness :
  let out := migrateFile Examples.day30 Examples.tier_world "f1" COLD in
  (∀ k, k ≠ "f1" → files out.1 !! k = files Examples.tier_world !! k)
  ∧ out.2 = Ok tt
  ∧ files out.1 !! "f1"
    = Some (set_tier_status Examples.premium_file COLD m_completed (Some Examples.day30))
  ∧ Storage.blobs (storage out.1) !! (COLD, "u1_1_abcdef.txt")
    = Some [Byte.x01; Byte.x02]
  ∧ Storage.blobs (storage out.1) !! (HOT, "u1_1_abcdef.txt") = None
  ∧ (∀ k, k.2 ≠ "u1_1_abcdef.txt" →
          Storage.blobs (storage out.1) !! k
          = Storage.blobs (storage Examples.tier_world) !! k).
Proof.
  apply (migrateFile_outcome Examples.day30 Examples.tier_world "f1" COLD
           Examples.premium_file).
  - reflexivity.
  - discriminate.
Defined.

Lemma migrateFile_keeps now w fileId target :
  unique_keys w → placed w →
  unique_keys (migrateFile now w fileId target).1
  ∧ placed (migrateFile now w fileId target).1.
Proof.
  intros Hu Hp.
  destruct (files w !! fileId) as [file|] eqn:Hf;
    [|unfold migrateFile; by rewrite Hf].
  destruct (decide (f_storageTier file = target)) as [Ht|Ht];
    [unfold migrateFile; rewrite Hf; by rewrite bool_decide_true|].
  destruct (Storage.blobs (storage w) !! (f_storageTier file, f_storageKey file))
    as [data|] eqn:Hb.
  - destruct (migrateFile_success now w fileId target file data Hf Ht Hb)
      as (_ & H1 & H2 & H3 & H4 & H5).
    split.
    + intros k1 k2 f1 f2 L1 L2 Hk.
      destruct (decide (k1 = fileId)) as [->|N1], (decide (k2 = fileId)) as [->|N2];
        try done.
      * rewrite H1 in L1. injection L1 as <-. rewrite H5 in L2 by done.
        symmetry. by apply (Hu k2 fileId f2 file).
      * rewrite H1 in L2. injection L2 as <-. rewrite H5 in L1 by done.
        by apply (Hu k1 fileId f1 file).
      * rewrite H5 in L1, L2 by done. by apply (Hu k1 k2 f1 f2).
    + intros k f L Hd. destruct (decide (k = fileId)) as [->|N].
      * rewrite H1 in L. injection L as <-. simpl. by rewrite H2.
      * rewrite H5 in L by done.
        rewrite H4; [by apply (Hp k)|]. simpl. intros Hk. apply N.
        by apply (Hu k fileId f file).
  - destruct (migrateFile_failure now w fileId target file Hf Ht Hb)
      as (_ & H1 & H2 & H5).
    split.
    + intros k1 k2 f1 f2 L1 L2 Hk.
      destruct (decide (k1 = fileId)) as [->|N1], (decide (k2 = fileId)) as [->|N2];
        try done.
      * rewrite H2 in L1. injection L1 as <-. rewrite H5 in L2 by done.
        symmetry. by apply (Hu k2 fileId f2 file).
      * rewrite H2 in L2. injection L2 as <-. rewrite H5 in L1 by done.
        by apply (Hu k1 fileId f1 file).
      * rewrite H5 in L1, L2 by done. by apply (Hu k1 k2 f1 f2).
    + intros k f L Hd. rewrite H1. destruct (decide (k = fileId)) as [->|N].
      * rewrite H2 in L. injection L as <-. simpl in *.
        destruct (Hp fileId file Hf Hd) as [x Hx]. congruence.
      * rewrite H5 in L by done. by apply (Hp k).
Qed.

Lemma cold_migrate_all_keeps now w cs acc :
  unique_keys w → placed w →
  unique_keys (Tier.migrate_all now w cs acc).1 ∧ placed (Tier.migrate_all now w cs acc).1.
Proof.
  revert w acc. induction cs as [|c cs IH]; intros w acc Hu Hp; simpl; [done|].
  destruct (migrateFile_keeps now w (f_id c) COLD Hu Hp) as [Hu1 Hp1].
  destruct (migrateFile now w (f_id c) COLD) as [w1 [u|e]]; by apply IH.
Qed.

Lemma hot_migrate_all_keeps now w cs acc :
  unique_keys w → placed w →
  unique_keys (migrate_all_hot now w cs acc).1
  ∧ placed (migrate_all_hot now w cs acc).1.
Proof.
  revert w acc. induction cs as [|c cs IH]; intros w acc Hu Hp; simpl; [done|].
  destruct (migrateFile_keeps now w (f_id c) HOT Hu Hp) as [Hu1 Hp1].
  destruct (migrateFile now w (f_id c) HOT) as [w1 [u|e]]; by apply IH.
Qed.

(** X18: a run of the migration worker (the cold pass, then the hot pass) loses
    no file.  If storage keys are unique and every undeleted file has its blob
    on the tier its record names, the same holds after the run, whichever
    files were moved and whichever migrations failed. *)
Theorem worker_run_keeps_blobs_placed cfg now w :
  unique_keys w → placed w →
  unique_keys (worker_run cfg now w) ∧ placed (worker_run cfg now w).
Proof.
  intros Hu Hp. unfold worker_run, processHotMigrations, processColdMigrations.
  destruct (cold_migrate_all_keeps now w
              (getColdMigrationCandidates cfg now w (Config.batchSize cfg))
              (mkTally 0 0) Hu Hp) as [Hu1 Hp1].
  by apply hot_migrate_all_keeps.
Qed.

Lemma worker_run_keeps_blobs_placed_witness :
  unique_keys (worker_run Config.defaults Examples.day30 Examples.tier_world)
  ∧ placed (worker_run Config.defaults Examples.day30 Examples.tier_world).
Proof.
  apply (worker_run_keeps_blobs_placed Config.defaults Examples.day30
           Examples.tier_world).
  - intros k1 k2 f1 f2 H1 H2 _. unfold Examples.tier_world in *. simpl in *.
    apply lookup_singleton_Some in H1 as [<- _].
    by apply lookup_singleton_Some in H2 as [<- _].
  - intros k f H _. unfold Examples.tier_world in *. simpl in *.
    apply lookup_singleton_Some in H as [<- <-]. vm_compute. by eexists.
Defined.

End TierMore.

(** ** The upload engine: sizes, fresh chunks, completion and abort *)

Section ChunkSizes.

Import Session Upload.

Lemma foldl_add_const (f : Z → Z) (c : Z) (l : list Z) (a : Z) :
  (∀ i, i ∈ l → f i = c) →
  foldl (λ acc i, acc + f i) a l = a + Z.of_nat (length l) * c.
Proof.
  revert a. induction l as [|x l IH]; intros a H; simpl; [lia|].
  rewrite IH by (intros i Hi; apply H; by right).
  rewrite (H x) by left. lia.
Qed.

Lemma ceil_div_cases a b :
  0 < b → 0 < a →
  (Z.rem a b = 0 ∧ a = ceil_div a b * b)
  ∨ (0 < Z.rem a b < b ∧ a = (ceil_div a b - 1) * b + Z.rem a b).
Proof.
  intros Hb Ha. unfold ceil_div. rewrite Z.rem_mod_nonneg by lia.
  pose proof (Z.div_mod a b ltac:(lia)) as Hd.
  pose proof (Z.mod_pos_bound a b Hb) as Hm.
  destruct (decide (a mod b = 0)) as [E|E].
  - left. split; [done|].
    rewrite Z.div_opp_l_z by lia. nia.
  - right. split; [lia|].
    rewrite Z.div_opp_l_nz by lia. nia.
Qed.

(** X19: the chunk arithmetic of the engine is consistent.  For a positive
    file size and chunk size, with totalChunks = ceil(size / chunkSize) as
    initializeUpload computes it, there is at least one chunk, every expected
    chunk size lies between 1 and chunkSize, and the expected sizes of the
    chunks 0 .. totalChunks - 1 add up to the file size (the uploadedBytes of
    a finished upload is totalBytes). *)
Theorem expected_chunk_sizes_sum chunkSize totalSize :
  0 < chunkSize → 0 < totalSize →
  let totalChunks := ceil_div totalSize chunkSize in
  let expected i := _getExpectedChunkSize i totalChunks chunkSize totalSize in
  1 ≤ totalChunks
  ∧ (∀ i, 0 ≤ i < totalChunks → 1 ≤ expected i ≤ chunkSize)
  ∧ foldl (λ acc i, acc + expected i) 0 (seqZ 0 totalChunks) = totalSize.
Proof.
  intros Hc Ht n expected.
  destruct (ceil_div_cases totalSize chunkSize Hc Ht) as [[Hr Hn]|[Hr Hn]]; fold n in Hn.
  - assert (1 ≤ n) by nia. split; [done|]. split.
    + intros i Hi. unfold expected, _getExpectedChunkSize. rewrite Hr.
      destruct (i =? n - 1); simpl; lia.
    + rewrite (foldl_add_const _ chunkSize).
      * rewrite length_seqZ. lia.
      * intros i _. unfold expected, _getExpectedChunkSize. rewrite Hr.
        by destruct (i =? n - 1).
  - assert (1 ≤ n) by nia. split; [done|]. split.
    + intros i Hi. unfold expected, _getExpectedChunkSize.
      destruct (i =? n - 1); [|lia].
      replace (Z.rem totalSize chunkSize =? 0) with false by lia. lia.
    + replace n with ((n - 1) + 1) at 1 by lia.
      rewrite seqZ_app by lia. rewrite foldl_app. simpl.
      rewrite (foldl_add_const _ chunkSize).
      * rewrite length_seqZ. unfold expected at 1, _getExpectedChunkSize.
        change (Z.of_nat 0) with 0. rewrite !Z.add_0_l, Z.eqb_refl.
        replace (Z.rem totalSize chunkSize =? 0) with false by lia.
        rewrite Z2Nat.id by lia. lia.
      * intros i Hi. apply elem_of_seqZ in Hi.
        unfold expected, _getExpectedChunkSize.
        by replace (i =? n - 1) with false by lia.
Qed.

Lemma expected_chunk_sizes_sum_witness :
  let totalChunks := ceil_div 3 2 in
  let expected i := _getExpectedChunkSize i totalChunks 2 3 in
  1 ≤ totalChunks
  ∧ (∀ i, 0 ≤ i < totalChunks → 1 ≤ expected i ≤ 2)
  ∧ foldl (λ acc i, acc + expected i) 0 (seqZ 0 totalChunks) = 3.
Proof. apply (expected_chunk_sizes_sum 2 3); lia. Defined.

End ChunkSizes.

Section UploadMore.

Import Session Upload.

Variable md5 sha256 : list Byte.byte → string.
Variable cfg : Config.t.

Lemma _getSession_total now sid w : ∃ o, (_getSession cfg now sid w).2 = Ok o.
Proof.
  unfold _getSession, bind, get_world. simpl.
  destruct (redis_get _ _ _); [by eexists|].
  destruct (findOne (sessions w) sid) as [s|]; [|by eexists].
  destruct (live now s); by eexists.
Qed.

Lemma _getProgress_frame now sid w :
  let out := _getProgress cfg now sid w in
  (∃ p, out.2 = Ok p)
  ∧ sessions out.1 = sessions w ∧ sets (redis out.1) = sets (redis w)
  ∧ storage out.1 = storage w ∧ files out.1 = files w ∧ quotas out.1 = quotas w
  ∧ users out.1 = users w.
Proof.
  pose proof (_getSession_frame cfg now sid w) as F.
  destruct (_getSession_total now sid w) as [o Ho].
  destruct (_getSession cfg now sid w) as [w0 r] eqn:E. simpl in *. subst r.
  assert (∃ p, _getProgress cfg now sid w = (w0, Ok p)) as [p Hp].
  { unfold _getProgress. rewrite (bind_ok _ _ _ _ _ E). destruct o as [sd|].
    - rewrite (bind_ok _ _ _ _ _ (_getCompletedChunks_eq now sid w0)). by eexists.
    - by eexists. }
  rewrite Hp. simpl. split; [by eexists|exact F].
Qed.



Lemma uploadChunk_fresh_eq now sid i data hash w w0 sd :
  _getSession cfg now sid w = (w0, Ok (Some sd)) →
  0 ≤ i < d_totalChunks sd →
  redis_sismember now (redis w) (chunksKey sid) i = false →
  data ≠ [] →
  (∀ h, hash = Some h → h ≠ "" → Hash.verifyHash (md5 data) h = true) →
  Z.of_nat (length data)
  = _getExpectedChunkSize i (d_totalChunks sd) (d_chunkSize sd) (d_totalSize sd) →
  ∃ w4 p,
    uploadChunk md5 cfg now sid i data hash w = (w4, Ok (mkChunkResult sid i uploaded p))
    ∧ storage w4 = Storage.writeChunk sid i data (storage w)
    ∧ sets (redis w4)
      = sets (redis_expire now (chunksKey sid) (Config.sessionTtl cfg)
                (redis_sadd now (chunksKey sid) i (redis w0)))
    ∧ sessions w4
      = match findOne (sessions w) sid with
        | Some s => <[sid := (markChunkComplete now s i (Z.of_nat (length data))
                                (md5 data)).1]> (sessions w)
        | None => sessions w
        end
    ∧ files w4 = files w ∧ quotas w4 = quotas w.
Proof.
  intros E0 Hi Hm Hd Hh Hl.
  pose proof (_getSession_frame cfg now sid w) as F. rewrite E0 in F.
  destruct F as (Fs & Fr & Fst & Ff & Fq & Fu). simpl in *.
  unfold uploadChunk. rewrite (bind_ok _ _ _ _ _ E0).
  replace ((i <? 0) || (i >=? d_totalChunks sd)) with false by lia.
  rewrite (bind_ok _ _ _ _ _ (_isChunkUploaded_eq now sid i w0)).
  assert (redis_sismember now (redis w0) (chunksKey sid) i = false) as ->.
  { unfold redis_sismember, redis_smembers in *. by rewrite Fr. }
  rewrite bool_decide_false by done.
  assert (JS.truthy hash && negb (Hash.verifyHash (md5 data) (default "" hash)) = false)
    as ->.
  { destruct hash as [[|c h]|]; try done. simpl. by rewrite (Hh _ eq_refl). }
  cbv zeta. rewrite <- Hl, Z.eqb_refl. cbn [negb].
  unfold bind at 1, modify at 1. unfold bind at 1, _markChunkComplete, modify at 1.
  unfold bind at 1, modify at 1.
  set (w3 := match findOne _ sid with Some _ => _ | None => _ end).
  destruct (_getProgress_frame now sid w3) as ([p Hp] & Gs & Gr & Gst & Gf & Gq & Gu).
  unfold bind at 1.
  destruct (_getProgress cfg now sid w3) as [w4 r4]. simpl in *. subst r4.
  unfold ret; simpl. exists w4, p. split; [done|].
  assert (storage w3 = Storage.writeChunk sid i data (storage w0)
          ∧ sets (redis w3)
            = sets (redis_expire now (chunksKey sid) (Config.sessionTtl cfg)
                      (redis_sadd now (chunksKey sid) i (redis w0)))
          ∧ files w3 = files w0 ∧ quotas w3 = quotas w0
          ∧ sessions w3
            = match findOne (sessions w0) sid with
              | Some s => <[sid := (markChunkComplete now s i (Z.of_nat (length data))
                                      (md5 data)).1]> (sessions w0)
              | None => sessions w0
              end) as (Hst3 & Hr3 & Hf3 & Hq3 & Hs3).
  { unfold w3. simpl. by destruct (findOne (sessions w0) sid). }
  by rewrite Gst, Hst3, Fst, Gs, Hs3, Fs, Gf, Hf3, Ff, Gq, Hq3, Fq, Gr, Hr3.
Qed.

(** X21: a chunk that is in range, not yet recorded, not empty, of the expected
    size and (when a hash comes with it) of the right MD5 is stored (for a
    positive session TTL): the reply says uploaded, the staging area holds
    exactly these bytes under the session and the index, the index joins the
    set of completed indices, the durable
    record (when there is one) is what markChunkComplete makes of it, and blobs,
    files and quotas are untouched. *)
Theorem uploadChunk_stores_fresh_chunk now sid i data hash w sd :
  0 < Config.sessionTtl cfg →
  (_getSession cfg now sid w).2 = Ok (Some sd) →
  0 ≤ i < d_totalChunks sd →
  redis_sismember now (redis w) (chunksKey sid) i = false →
  data ≠ [] →
  (∀ h, hash = Some h → h ≠ "" → Hash.verifyHash (md5 data) h = true) →
  Z.of_nat (length data)
  = _getExpectedChunkSize i (d_totalChunks sd) (d_chunkSize sd) (d_totalSize sd) →
  let out := uploadChunk md5 cfg now sid i data hash w in
  (∃ p, out.2 = Ok (mkChunkResult sid i uploaded p))
  ∧ Storage.chunks (storage out.1) = <[(sid, i) := data]> (Storage.chunks (storage w))
  ∧ Storage.blobs (storage out.1) = Storage.blobs (storage w)
  ∧ redis_smembers now (redis out.1) (chunksKey sid)
    = {[i]} ∪ redis_smembers now (redis w) (chunksKey sid)
  ∧ sessions out.1
    = match findOne (sessions w) sid with
      | Some s => <[sid := (markChunkComplete now s i (Z.of_nat (length data))
                              (md5 data)).1]> (sessions w)
      | None => sessions w
      end
  ∧ files out.1 = files w ∧ quotas out.1 = quotas w.
Proof.
  intros Httl E0 Hi Hm Hd Hh Hl out. subst out.
  pose proof (_getSession_frame cfg now sid w) as F.
  destruct (_getSession cfg now sid w) as [w0 r0] eqn:E. simpl in E0. subst r0.
  destruct F as (Fs & Fr & Fst & Ff & Fq & Fu). simpl in *.
  destruct (uploadChunk_fresh_eq now sid i data hash w w0 sd E Hi Hm Hd Hh Hl)
    as (w4 & p & -> & Hst & Hr & Hs & Hf & Hq).
  simpl. rewrite Hst, Hs, Hf, Hq.
  split; [by eexists|]. split_and!; try done.
  unfold redis_smembers at 1. rewrite Hr.
  unfold redis_expire, redis_sadd. simpl. rewrite lookup_insert_eq. simpl.
  rewrite lookup_insert_eq.
  replace (now <? now + Config.sessionTtl cfg * 1000) with true by lia.
  assert (redis_smembers now (redis w0) (chunksKey sid)
          = redis_smembers now (redis w) (chunksKey sid)) as Hsm.
  { unfold redis_smembers. by rewrite Fr. }
  rewrite <- Hsm.
  unfold redis_smembers at 1. simpl. rewrite lookup_insert_eq.
  destruct (sets (redis w0) !! chunksKey sid) as [[s [t|]]|] eqn:E1; try done.
  destruct (now <? t) eqn:Et; [|done]. by rewrite Et.
Qed.

(** X22: for an integer chunk index (what parseInt gives for a numeric
    parameter), a chunk whose index is below 0 or not below totalChunks, or a
    chunk that is in range, not yet recorded and empty, failing its hash or of
    the wrong size, is refused with CHUNK_VALIDATION_ERROR (status 400);
    nothing is staged or recorded: the only store that may differ is the
    cached copy of the session. *)
Theorem uploadChunk_rejects_invalid now sid i data hash w w0 sd :
  _getSession cfg now sid w = (w0, Ok (Some sd)) →
  (i < 0 ∨ d_totalChunks sd ≤ i)
  ∨ (redis_sismember now (redis w) (chunksKey sid) i = false
     ∧ (data = []
        ∨ (∃ h, hash = Some h ∧ h ≠ "" ∧ Hash.verifyHash (md5 data) h = false)
        ∨ Z.of_nat (length data)
          ≠ _getExpectedChunkSize i (d_totalChunks sd) (d_chunkSize sd) (d_totalSize sd))) →
  ∃ e, uploadChunk md5 cfg now sid i data hash w = (w0, Throw e)
       ∧ code e = CHUNK_VALIDATION_ERROR ∧ statusCode e = 400
       ∧ sessions w0 = sessions w ∧ storage w0 = storage w
       ∧ sets (redis w0) = sets (redis w)
       ∧ files w0 = files w ∧ quotas w0 = quotas w.
Proof.
  intros E0 H.
  pose proof (_getSession_frame cfg now sid w) as F. rewrite E0 in F.
  destruct F as (Fs & Fr & Fst & Ff & Fq & Fu). simpl in *.
  unfold uploadChunk. rewrite (bind_ok _ _ _ _ _ E0).
  destruct ((i <? 0) || (i >=? d_totalChunks sd)) eqn:Ei.
  { eexists. by split_and!. }
  destruct H as [H|(Hm & H)]; [lia|].
  rewrite (bind_ok _ _ _ _ _ (_isChunkUploaded_eq now sid i w0)).
  assert (redis_sismember now (redis w0) (chunksKey sid) i
          = redis_sismember now (redis w) (chunksKey sid) i) as ->.
  { unfold redis_sismember, redis_smembers. by rewrite Fr. }
  rewrite Hm.
  case_bool_decide as Ed; [eexists; by split_and!|].
  destruct (JS.truthy hash && _) eqn:Eh; [eexists; by split_and!|].
  destruct H as [H|[(h & -> & Hne & Hv)|H]]; [done| |].
  - destruct h; [done|]. simpl in Eh. by rewrite Hv in Eh.
  - cbv zeta.
    destruct (Z.of_nat (length data) =? _getExpectedChunkSize i (d_totalChunks sd)
                                          (d_chunkSize sd) (d_totalSize sd)) eqn:En.
    + by apply Z.eqb_eq in En.
    + eexists; by split_and!.
Qed.

(** X23: what a status report says about completeness.  The number of
    completed chunks is the size of the set of completed indices, and the
    remaining chunks are the indices in range that the set lacks; when every
    recorded index is in range, nothing remains exactly when the count equals
    totalChunks, which is the test completeUpload makes. *)
Theorem getUploadStatus_complete_iff now sid w rep :
  (getUploadStatus cfg now sid w).2 = Ok rep →
  0 ≤ sr_totalChunks rep →
  (∀ i, i ∈ redis_smembers now (redis w) (chunksKey sid) → 0 ≤ i < sr_totalChunks rep) →
  sr_completedChunks rep
  = Z.of_nat (size (redis_smembers now (redis w) (chunksKey sid)))
  ∧ (∀ i, i ∈ sr_remainingChunks rep ↔
          0 ≤ i < sr_totalChunks rep
          ∧ i ∉ redis_smembers now (redis w) (chunksKey sid))
  ∧ (sr_remainingChunks rep = [] ↔ sr_completedChunks rep = sr_totalChunks rep).
Proof.
  intros Hr Hn Hin.
  pose proof (_getSession_frame cfg now sid w) as F.
  unfold getUploadStatus in Hr. unfold bind at 1 in Hr.
  destruct (_getSession cfg now sid w) as [w0 [[sd|]|e]] eqn:E0; [|done..].
  destruct F as (Fs & Fr & Fst & Ff & Fq & Fu). simpl in *.
  destruct (_getProgress_frame now sid w0) as ([p Hp] & Gs & Gr & _).
  unfold bind at 1 in Hr.
  destruct (_getProgress cfg now sid w0) as [w1 r1]. simpl in *. subst r1.
  rewrite (bind_ok _ _ _ _ _ (_getCompletedChunks_eq now sid w1)) in Hr.
  simpl in Hr. injection Hr as <-. simpl in *.
  set (S0 := redis_smembers now (redis w) (chunksKey sid)) in *.
  assert (redis_smembers now (redis w1) (chunksKey sid) = S0) as ->.
  { unfold S0, redis_smembers. by rewrite Gr, Fr. }
  assert (∀ i, i ∈ merge_sort Z.le (elements S0) ↔ i ∈ S0) as Hel.
  { intros i. rewrite merge_sort_Permutation. apply elem_of_elements. }
  split; [by rewrite merge_sort_Permutation|].
  assert (∀ i, i ∈ List.filter (λ i, negb (bool_decide (i ∈ merge_sort Z.le (elements S0))))
                     (seqZ 0 (d_totalChunks sd))
               ↔ 0 ≤ i < d_totalChunks sd ∧ i ∉ S0) as Hrem.
  { intros i. rewrite list_elem_of_In, filter_In, <- list_elem_of_In, elem_of_seqZ.
    rewrite negb_true_iff, bool_decide_eq_false, Hel.
    split; intros [? ?]; (split; [lia|done]). }
  split; [exact Hrem|].
  rewrite merge_sort_Permutation.
  set (R := list_to_set (seqZ 0 (d_totalChunks sd)) : gset Z).
  assert (size R = Z.to_nat (d_totalChunks sd)) as HR.
  { unfold R. rewrite size_list_to_set by apply NoDup_seqZ. by rewrite length_seqZ. }
  assert (S0 ⊆ R) as Hsub.
  { intros i Hi. unfold R. rewrite elem_of_list_to_set, elem_of_seqZ.
    specialize (Hin i Hi). lia. }
  split.
  - intros He.
    assert (R ⊆ S0) as Hsup.
    { intros i Hi. unfold R in Hi. rewrite elem_of_list_to_set, elem_of_seqZ in Hi.
      destruct (decide (i ∈ S0)) as [|Hni]; [done|].
      assert (i ∈ @nil Z) as Hc; [|by apply elem_of_nil in Hc].
      rewrite <- He. apply Hrem. split; [lia|done]. }
    assert (S0 = R) as -> by (apply (anti_symm (⊆)); done).
    change (length (elements R)) with (size R). rewrite HR. lia.
  - intros Hc. apply elem_of_nil_inv. intros i Hi. apply Hrem in Hi as [Hi Hni].
    apply Hni. change (length (elements S0)) with (size S0) in Hc.
    assert (S0 = R) as HE by (apply set_subseteq_size_eq; [done|lia]).
    rewrite HE.
    unfold R. rewrite elem_of_list_to_set, elem_of_seqZ. lia.
Qed.

Lemma _getExpiryDate_value now uid w :
  _getExpiryDate cfg now uid w
  = (w, Ok (if from_option isPremiumOrAdmin false (users w !! uid) then None
            else Some (now + Config.daysFree cfg * 24 * 60 * 60 * 1000))).
Proof.
  unfold _getExpiryDate, bind, get_world, ret.
  destruct (users w !! uid) as [u|]; [|done]. simpl. by destruct (isPremiumOrAdmin u).
Qed.

Lemma assemble_and_record_ok now rnd fid sid uid sd dbS w data :
  Storage.read_chunks (storage w) sid 0 (Z.to_nat (d_totalChunks sd)) = Some data →
  (∀ e, d_expectedHash sd = Some e → e ≠ "" → Hash.verifyHash (sha256 data) e = true) →
  let key := _generateStorageKey now rnd uid (d_filename sd) in
  ∃ w1 fd file q,
    assemble_and_record sha256 cfg now rnd fid sid uid sd dbS w = (w1, Ok fd)
    ∧ fd_fileId fd = fid ∧ fd_size fd = Z.of_nat (length data)
    ∧ fd_hash fd = sha256 data ∧ fd_filename fd = d_filename sd
    ∧ files w1 = <[fid := file]> (files w)
    ∧ f_id file = fid ∧ f_userId file = uid ∧ f_storageKey file = key
    ∧ f_size file = Z.of_nat (length data) ∧ f_hash file = sha256 data
    ∧ f_storageTier file = HOT ∧ f_isDeleted file = false ∧ f_downloads file = 0
    ∧ f_expiresAt file
      = (if from_option isPremiumOrAdmin false (users w !! uid) then None
         else Some (now + Config.daysFree cfg * 24 * 60 * 60 * 1000))
    ∧ Storage.blobs (storage w1) = <[(HOT, key) := data]> (Storage.blobs (storage w))
    ∧ quotas w1 = <[uid := q]> (quotas w)
    ∧ Quota.q_storage q
      = from_option Quota.q_storage 0 (quotas w !! uid) + Z.of_nat (length data)
    ∧ Quota.q_files q = from_option Quota.q_files 0 (quotas w !! uid) + 1
    ∧ strs (redis w1) = delete (sessionKey sid) (strs (redis w))
    ∧ sets (redis w1) = delete (chunksKey sid) (sets (redis w))
    ∧ sessions w1 = match dbS with
                    | Some s => <[sid := markCompleted now s fid HOT]> (sessions w)
                    | None => sessions w
                    end.
Proof.
  intros Hr Hh key. unfold assemble_and_record.
  rewrite (bind_ok _ _ _ _ _ (_getStorageTier_eq uid w)).
  unfold bind at 1. unfold Storage.assembleChunks. rewrite Hr. fold key.
  assert (JS.truthy (d_expectedHash sd)
          && negb (Hash.verifyHash (sha256 data) (default "" (d_expectedHash sd))) = false)
    as ->.
  { destruct (d_expectedHash sd) as [[|c e]|]; try done. simpl.
    by rewrite (Hh _ eq_refl). }
  rewrite (bind_ok _ _ _ _ _ (_getExpiryDate_value now uid _)).
  unfold bind at 1, modify at 1.
  unfold getOrCreate, bind, get_world, modify, ret, save_session, _deleteSessionCache.
  cbn [quotas with_files with_storage users].
  destruct (quotas w !! uid) as [q|] eqn:Eq; destruct dbS as [s|]; simpl.
  all: eexists _, _, _, _; split; [reflexivity|]; simpl.
  all: pose proof (addFile_fields cfg (users w) now (default (Quota.create now uid) (quotas w !! uid))
                     (Z.of_nat (length data))) as (_ & _ & A3 & A4).
  all: rewrite Eq in A3, A4; simpl in A3, A4.
  all: rewrite ?insert_insert_eq.
  all: split_and!; try done.
Qed.

(** X24: completeUpload of a finished upload.  When the session resolves for
    its owner, every chunk is recorded and staged, and the expected hash (if one
    was given) verifies against the SHA-256 of the assembled bytes, the call
    succeeds: the blob on the hot tier is the concatenation of the chunks, the
    new file record carries its length and hash, the owner, the generated
    storage key and the expiry of the owner's role, the quota of the owner
    grows by that length and one file, the cached session and the set of
    completed indices are gone, and the durable session is completed. *)
Theorem completeUpload_creates_file now rnd fid sid uid w sd data :
  (_getSession cfg now sid w).2 = Ok (Some sd) →
  d_userId sd = uid →
  Z.of_nat (size (redis_smembers now (redis w) (chunksKey sid))) = d_totalChunks sd →
  Storage.read_chunks (storage w) sid 0 (Z.to_nat (d_totalChunks sd)) = Some data →
  (∀ e, d_expectedHash sd = Some e → e ≠ "" → Hash.verifyHash (sha256 data) e = true) →
  let out := completeUpload sha256 cfg now rnd fid sid uid w in
  let key := _generateStorageKey now rnd uid (d_filename sd) in
  ∃ fd file q,
    out.2 = Ok fd
    ∧ fd_fileId fd = fid ∧ fd_size fd = Z.of_nat (length data)
    ∧ fd_hash fd = sha256 data ∧ fd_filename fd = d_filename sd
    ∧ files out.1 = <[fid := file]> (files w)
    ∧ f_id file = fid ∧ f_userId file = uid ∧ f_storageKey file = key
    ∧ f_size file = Z.of_nat (length data) ∧ f_hash file = sha256 data
    ∧ f_storageTier file = HOT ∧ f_isDeleted file = false ∧ f_downloads file = 0
    ∧ f_expiresAt file
      = (if from_option isPremiumOrAdmin false (users w !! uid) then None
         else Some (now + Config.daysFree cfg * 24 * 60 * 60 * 1000))
    ∧ Storage.blobs (storage out.1) = <[(HOT, key) := data]> (Storage.blobs (storage w))
    ∧ quotas out.1 = <[uid := q]> (quotas w)
    ∧ Quota.q_storage q
      = from_option Quota.q_storage 0 (quotas w !! uid) + Z.of_nat (length data)
    ∧ Quota.q_files q = from_option Quota.q_files 0 (quotas w !! uid) + 1
    ∧ strs (redis out.1) !! sessionKey sid = None
    ∧ sets (redis out.1) !! chunksKey sid = None
    ∧ (∀ s, findOne (sessions w) sid = Some s →
         sessions out.1 !! sid = Some (markCompleted now (startAssembly now s) fid HOT)).
Proof.
  intros Hs Hu Hn Hr Hh out key. subst out.
  pose proof (_getSession_frame cfg now sid w) as F.
  destruct (_getSession cfg now sid w) as [w0 r0] eqn:E0. simpl in Hs. subst r0.
  destruct F as (Fs & Fr & Fst & Ff & Fq & Fu). simpl in *.
  set (dbS := startAssembly now <$> findOne (sessions w0) sid).
  set (w1 := (save_session sid dbS w0).1).
  assert (save_session sid dbS w0 = (w1, Ok tt)) as Hsave.
  { unfold w1, save_session. by destruct dbS. }
  assert (storage w1 = storage w ∧ files w1 = files w ∧ quotas w1 = quotas w
          ∧ users w1 = users w ∧ redis w1 = redis w0) as (Gst & Gf & Gq & Gu & Gr).
  { unfold w1, save_session. by destruct dbS. }
  destruct (assemble_and_record_ok now rnd fid sid uid sd dbS w1 data) as
    (w2 & fd & file & q & Ha & R).
  { by rewrite Gst. }
  { done. }
  assert (completeUpload sha256 cfg now rnd fid sid uid w = (w2, Ok fd)) as ->.
  { unfold completeUpload.
    rewrite (bind_ok _ _ _ _ _ E0).
    rewrite bool_decide_eq_true_2 by done. cbn [negb].
    rewrite (bind_ok _ _ _ _ _ (_getCompletedChunks_eq now sid w0)).
    rewrite completed_length.
    assert (redis_smembers now (redis w0) (chunksKey sid)
            = redis_smembers now (redis w) (chunksKey sid)) as ->.
    { unfold redis_smembers. by rewrite Fr. }
    rewrite Hn, Z.eqb_refl. cbn [negb].
    rewrite (bind_ok _ _ _ _ _ (get_world_eq w0)). fold dbS.
    rewrite (bind_ok _ _ _ _ _ Hsave). unfold try_rethrow. by rewrite Ha. }
  simpl. fold key in R.
  destruct R as (R1 & R2 & R3 & R4 & R5 & R6 & R7 & R8 & R9 & R10 & R11 & R12 & R13
                 & R14 & R15 & R16 & R17 & R18 & R19 & R20 & R21).
  exists fd, file, q.
  rewrite R5, R15, R16, R19, R20, Gf, Gst, Gq, Gu in *.
  split_and!; try done.
  - by rewrite lookup_delete_eq.
  - by rewrite lookup_delete_eq.
  - intros s Hf. rewrite R21. unfold dbS. rewrite Fs, Hf. simpl.
    by rewrite lookup_insert_eq.
Qed.

(** X25: completeUpload refuses a caller who does not own the session with
    VALIDATION_ERROR, and an owner whose upload is not complete with
    UPLOAD_ERROR (both with status 400); in either case the durable sessions,
    the storage backend, the set of completed indices, the files and the
    quotas are unchanged. *)
Theorem completeUpload_refusals now rnd fid sid uid w w0 sd :
  _getSession cfg now sid w = (w0, Ok (Some sd)) →
  d_userId sd ≠ uid
  ∨ Z.of_nat (size (redis_smembers now (redis w) (chunksKey sid))) ≠ d_totalChunks sd →
  ∃ e, completeUpload sha256 cfg now rnd fid sid uid w = (w0, Throw e)
       ∧ code e = (if decide (d_userId sd = uid) then UPLOAD_ERROR else VALIDATION_ERROR)
       ∧ statusCode e = 400
       ∧ sessions w0 = sessions w ∧ storage w0 = storage w
       ∧ sets (redis w0) = sets (redis w)
       ∧ files w0 = files w ∧ quotas w0 = quotas w.
Proof.
  intros E0 H.
  pose proof (_getSession_frame cfg now sid w) as F. rewrite E0 in F.
  destruct F as (Fs & Fr & Fst & Ff & Fq & Fu). simpl in *.
  unfold completeUpload. rewrite (bind_ok _ _ _ _ _ E0).
  destruct (decide (d_userId sd = uid)) as [Hu|Hu].
  - destruct H as [H|H]; [done|].
    rewrite bool_decide_eq_true_2 by done. cbn [negb].
    rewrite (bind_ok _ _ _ _ _ (_getCompletedChunks_eq now sid w0)).
    rewrite completed_length.
    assert (redis_smembers now (redis w0) (chunksKey sid)
            = redis_smembers now (redis w) (chunksKey sid)) as ->.
    { unfold redis_smembers. by rewrite Fr. }
    replace (Z.of_nat (size (redis_smembers now (redis w) (chunksKey sid)))
             =? d_totalChunks sd) with false by lia.
    eexists. by split_and!.
  - rewrite bool_decide_eq_false_2 by done. eexists. by split_and!.
Qed.

(** X26: abortUpload by the owner of a session that resolves removes every
    staged chunk of that session and of no other, drops the cached session and
    the set of completed indices, marks the durable record failed with code
    ABORTED, and leaves blobs, files and quotas alone; a second abort, at any
    instant, changes nothing and still answers success. *)
Theorem abortUpload_effects now sid uid w sd :
  (_getSession cfg now sid w).2 = Ok (Some sd) →
  d_userId sd = uid →
  let out := abortUpload cfg now sid uid w in
  out.2 = Ok "Upload aborted"
  ∧ (∀ i, Storage.chunks (storage out.1) !! (sid, i) = None)
  ∧ (∀ k, k.1 ≠ sid →
          Storage.chunks (storage out.1) !! k = Storage.chunks (storage w) !! k)
  ∧ Storage.blobs (storage out.1) = Storage.blobs (storage w)
  ∧ strs (redis out.1) !! sessionKey sid = None
  ∧ sets (redis out.1) !! chunksKey sid = None
  ∧ (∀ s, findOne (sessions w) sid = Some s →
          sessions out.1 = <[sid := markFailed s "Aborted by user" ABORTED]> (sessions w))
  ∧ files out.1 = files w ∧ quotas out.1 = quotas w
  ∧ (∀ t, abortUpload cfg t sid uid out.1
          = (out.1, Ok "Session not found or already expired")).
Proof.
  intros Hs Hu out. subst out.
  pose proof (_getSession_frame cfg now sid w) as F.
  destruct (_getSession cfg now sid w) as [w0 r0] eqn:E0. simpl in Hs. subst r0.
  destruct F as (Fs & Fr & Fst & Ff & Fq & Fu). simpl in *.
  set (w1 := with_storage (Storage.deleteChunks sid (storage w0)) w0).
  set (dbS := (λ s, markFailed s "Aborted by user" ABORTED) <$> findOne (sessions w1) sid).
  set (w2 := (save_session sid dbS w1).1).
  set (w3 := with_redis (redis_del (sessionKey sid) (chunksKey sid) (redis w2)) w2).
  assert (abortUpload cfg now sid uid w = (w3, Ok "Upload aborted")) as ->.
  { unfold abortUpload. rewrite (bind_ok _ _ _ _ _ E0).
    rewrite bool_decide_eq_true_2 by done. cbn [negb].
    unfold bind at 1, modify at 1. fold w1.
    rewrite (bind_ok _ _ _ _ _ (get_world_eq w1)). fold dbS.
    unfold w3, w2, save_session, _deleteSessionCache, bind, modify, ret.
    by destruct dbS. }
  assert (storage w2 = storage w1 ∧ files w2 = files w ∧ quotas w2 = quotas w
          ∧ redis w2 = redis w0
          ∧ sessions w2 = match findOne (sessions w) sid with
                          | Some s => <[sid := markFailed s "Aborted by user" ABORTED]>
                                        (sessions w)
                          | None => sessions w
                          end) as (Gst & Gf & Gq & Gr & Gs).
  { unfold w2, save_session, dbS, w1. simpl. rewrite Fs.
    destruct (findOne (sessions w) sid); unfold modify, ret; simpl; by rewrite ?Fs. }
  simpl. rewrite Gst, Gf, Gq, Gs. unfold w1. simpl. rewrite Fst.
  split_and!; try done.
  - intros i. apply map_lookup_filter_None. right. intros x _. simpl. by intros [].
  - intros k Hk. destruct (Storage.chunks (storage w) !! k) as [x|] eqn:E.
    + by apply map_lookup_filter_Some.
    + apply map_lookup_filter_None. by left.
  - by rewrite lookup_delete_eq.
  - by rewrite lookup_delete_eq.
  - intros s Hf. by rewrite Hf.
  - intros t. unfold abortUpload.
    assert (_getSession cfg t sid w3 = (w3, Ok None)) as Hg.
    { apply _getSession_dead.
      - unfold redis_get, w3. simpl. by rewrite lookup_delete_eq.
      - intros s Hf. left. right. right. left.
        unfold w3 in Hf. simpl in Hf. rewrite Gs in Hf.
        destruct (findOne (sessions w) sid) as [s0|] eqn:E; [|congruence].
        apply findOne_Some in Hf as [Hf _]. rewrite lookup_insert_eq in Hf.
        by injection Hf as <-. }
    by rewrite (bind_ok _ _ _ _ _ Hg).
Qed.

End UploadMore.

Section UploadMoreWitnesses.

Import Session Upload.


(** The table of getMimeType answers for the two lower-case names it inherits:
    a name ending in .constructor is stored with the source text of a function
    as its MIME type, and one ending in .__proto__ is refused when the session
    is created. *)
Example getMimeType_inherited_keys :
  Stream.getMimeType "report.TXT" = Stream.MimeString "text/plain"
  ∧ Stream.getMimeType "x.constructor" = Stream.ObjectFunction
  ∧ Stream.getMimeType "x.__proto__" = Stream.ObjectPrototype
  ∧ (mimeType <$> sessions (initializeUpload Examples.cfg2 1000 "sid-9" "u1"
                              (mkInit "x.constructor" 3 None None None) (start ∅)).1
                  !! "sid-9")
    = Some "function Object() { [native code] }"
  ∧ thrown_code (initializeUpload Examples.cfg2 1000 "sid-9" "u1"
                   (mkInit "x.__proto__" 3 None None None) (start ∅)).2
    = Some INTERNAL_ERROR.
Proof. vm_compute. by split_and!. Qed.

Lemma uploadChunk_stores_fresh_chunk_witness :
  let data := [Byte.x01; Byte.x02] in
  let out := uploadChunk Examples.toy_digest Examples.cfg2 1500 "sid-1" 0 data None
               Examples.bad_w1 in
  (∃ p, out.2 = Ok (mkChunkResult "sid-1" 0 uploaded p))
  ∧ Storage.chunks (storage out.1)
    = <[("sid-1", 0) := data]> (Storage.chunks (storage Examples.bad_w1))
  ∧ Storage.blobs (storage out.1) = Storage.blobs (storage Examples.bad_w1)
  ∧ redis_smembers 1500 (redis out.1) (chunksKey "sid-1")
    = {[0]} ∪ redis_smembers 1500 (redis Examples.bad_w1) (chunksKey "sid-1")
  ∧ sessions out.1
    = match findOne (sessions Examples.bad_w1) "sid-1" with
      | Some s => <["sid-1" := (markChunkComplete 1500 s 0 (Z.of_nat (length data))
                                  (Examples.toy_digest data)).1]>
                    (sessions Examples.bad_w1)
      | None => sessions Examples.bad_w1
      end
  ∧ files out.1 = files Examples.bad_w1 ∧ quotas out.1 = quotas Examples.bad_w1.
Proof.
  apply (uploadChunk_stores_fresh_chunk Examples.toy_digest Examples.cfg2 1500 "sid-1" 0
           [Byte.x01; Byte.x02] None Examples.bad_w1 Examples.bad_data).
  - by vm_compute.
  - by vm_compute.
  - cbn; lia.
  - by vm_compute.
  - discriminate.
  - intros h H. discriminate.
  - by vm_compute.
Defined.

Lemma uploadChunk_rejects_invalid_witness :
  let w0 := (_getSession Examples.cfg2 1500 "sid-1" Examples.bad_w1).1 in
  ∃ e, uploadChunk Examples.toy_digest Examples.cfg2 1500 "sid-1" 5 [Byte.x01] None
         Examples.bad_w1 = (w0, Throw e)
       ∧ code e = CHUNK_VALIDATION_ERROR ∧ statusCode e = 400
       ∧ sessions w0 = sessions Examples.bad_w1 ∧ storage w0 = storage Examples.bad_w1
       ∧ sets (redis w0) = sets (redis Examples.bad_w1)
       ∧ files w0 = files Examples.bad_w1 ∧ quotas w0 = quotas Examples.bad_w1.
Proof.
  apply (uploadChunk_rejects_invalid Examples.toy_digest Examples.cfg2 1500 "sid-1" 5
           [Byte.x01] None Examples.bad_w1 _ Examples.bad_data).
  - by vm_compute.
  - left. right. cbn. lia.
Defined.

Lemma getUploadStatus_complete_iff_witness :
  ∃ rep, (getUploadStatus Examples.cfg2 1700 "sid-2" Examples.ok_w3).2 = Ok rep
         ∧ sr_completedChunks rep = 2
         ∧ (sr_remainingChunks rep = [] ↔ sr_completedChunks rep = sr_totalChunks rep).
Proof.
  eexists. split; [by vm_compute|]. split; [reflexivity|].
  apply (getUploadStatus_complete_iff Examples.cfg2 1700 "sid-2" Examples.ok_w3).
  - reflexivity.
  - by vm_compute.
  - intros i Hi. cbn.
    assert (redis_smembers 1700 (redis Examples.ok_w3) (chunksKey "sid-2")
            = {[0; 1]}) as E by (by vm_compute).
    rewrite E in Hi. apply elem_of_union in Hi as [Hi|Hi];
      apply elem_of_singleton in Hi; lia.
Defined.

End UploadMoreWitnesses.

Section CompleteWitnesses.

Import Session Upload.

Lemma completeUpload_creates_file_witness :
  let data := [Byte.x01; Byte.x02; Byte.x03] in
  let out := completeUpload Examples.toy_digest Examples.cfg2 2000 "abcdef" "file-1"
               "sid-2" "u1" Examples.ok_w3 in
  let key := _generateStorageKey 2000 "abcdef" "u1" "b.txt" in
  ∃ fd file q,
    out.2 = Ok fd
    ∧ fd_fileId fd = "file-1" ∧ fd_size fd = Z.of_nat (length data)
    ∧ fd_hash fd = Examples.toy_digest data ∧ fd_filename fd = "b.txt"
    ∧ files out.1 = <["file-1" := file]> (files Examples.ok_w3)
    ∧ f_id file = "file-1" ∧ f_userId file = "u1" ∧ f_storageKey file = key
    ∧ f_size file = Z.of_nat (length data) ∧ f_hash file = Examples.toy_digest data
    ∧ f_storageTier file = HOT ∧ f_isDeleted file = false ∧ f_downloads file = 0
    ∧ f_expiresAt file = Some (2000 + 5 * 24 * 60 * 60 * 1000)
    ∧ Storage.blobs (storage out.1)
      = <[(HOT, key) := data]> (Storage.blobs (storage Examples.ok_w3))
    ∧ quotas out.1 = <["u1" := q]> (quotas Examples.ok_w3)
    ∧ Quota.q_storage q
      = from_option Quota.q_storage 0 (quotas Examples.ok_w3 !! "u1")
        + Z.of_nat (length data)
    ∧ Quota.q_files q = from_option Quota.q_files 0 (quotas Examples.ok_w3 !! "u1") + 1
    ∧ strs (redis out.1) !! sessionKey "sid-2" = None
    ∧ sets (redis out.1) !! chunksKey "sid-2" = None
    ∧ (∀ s, findOne (sessions Examples.ok_w3) "sid-2" = Some s →
         sessions out.1 !! "sid-2"
         = Some (markCompleted 2000 (startAssembly 2000 s) "file-1" HOT)).
Proof.
  apply (completeUpload_creates_file Examples.toy_digest Examples.cfg2 2000 "abcdef"
           "file-1" "sid-2" "u1" Examples.ok_w3 Samples.ok_data
           [Byte.x01; Byte.x02; Byte.x03]).
  - by vm_compute.
  - reflexivity.
  - by vm_compute.
  - by vm_compute.
  - intros e H. discriminate.
Defined.

Lemma completeUpload_refusals_witness :
  let w0 := (_getSession Examples.cfg2 1700 "sid-1" Examples.bad_w2).1 in
  ∃ e, completeUpload Examples.toy_digest Examples.cfg2 1700 "abcdef" "file-1" "sid-1"
         "u1" Examples.bad_w2 = (w0, Throw e)
       ∧ code e = UPLOAD_ERROR
       ∧ statusCode e = 400
       ∧ sessions w0 = sessions Examples.bad_w2 ∧ storage w0 = storage Examples.bad_w2
       ∧ sets (redis w0) = sets (redis Examples.bad_w2)
       ∧ files w0 = files Examples.bad_w2 ∧ quotas w0 = quotas Examples.bad_w2.
Proof.
  apply (completeUpload_refusals Examples.toy_digest Examples.cfg2 1700 "abcdef" "file-1"
           "sid-1" "u1" Examples.bad_w2 _ Examples.bad_data).
  - by vm_compute.
  - right. by vm_compute.
Defined.

Lemma abortUpload_effects_witness :
  let out := abortUpload Examples.cfg2 1700 "sid-1" "u1" Examples.bad_w2 in
  out.2 = Ok "Upload aborted"
  ∧ (∀ i, Storage.chunks (storage out.1) !! ("sid-1", i) = None)
  ∧ (∀ k, k.1 ≠ "sid-1" →
          Storage.chunks (storage out.1) !! k
          = Storage.chunks (storage Examples.bad_w2) !! k)
  ∧ Storage.blobs (storage out.1) = Storage.blobs (storage Examples.bad_w2)
  ∧ strs (redis out.1) !! sessionKey "sid-1" = None
  ∧ sets (redis out.1) !! chunksKey "sid-1" = None
  ∧ (∀ s, findOne (sessions Examples.bad_w2) "sid-1" = Some s →
          sessions out.1
          = <["sid-1" := markFailed s "Aborted by user" ABORTED]>
              (sessions Examples.bad_w2))
  ∧ files out.1 = files Examples.bad_w2 ∧ quotas out.1 = quotas Examples.bad_w2
  ∧ (∀ t, abortUpload Examples.cfg2 t "sid-1" "u1" out.1
          = (out.1, Ok "Session not found or already expired")).
Proof.
  apply (abortUpload_effects Examples.cfg2 1700 "sid-1" "u1" Examples.bad_w2
           Examples.bad_data).
  - by vm_compute.
  - reflexivity.
Defined.

End CompleteWitnesses.

(** ** Folders: the cycle check of moveFolder and the uniqueness of names *)

Section FolderMore.

Import FolderTree Notions.

Lemma walk_up_true fuel coll a o :
  walk_up fuel coll a o = Some true ↔ ∃ n, (n < fuel)%nat ∧ on_chain coll a n o.
Proof.
  revert o. induction fuel as [|fuel IH]; intros o; simpl.
  - split; [done|]. intros (n & Hn & _). lia.
  - destruct o as [p|].
    + case_bool_decide as E.
      * split; [|done]. intros _. exists 0%nat. split; [lia|by constructor].
      * destruct (fo_parentId p) as [pid|] eqn:Ep.
        -- rewrite IH. split.
           ++ intros (n & Hn & Hc). exists (S n). split; [lia|]. by econstructor.
           ++ intros (n & Hn & Hc).
              inversion Hc as [|n' p' pid' Hne Hp Hc']; subst; [done|].
              rewrite Ep in Hp. injection Hp as <-.
              exists n'. split; [lia|done].
        -- split; [done|]. intros (n & Hn & Hc). inversion Hc; subst; congruence.
    + split; [done|]. intros (n & Hn & Hc). inversion Hc.
Qed.

Lemma walk_up_false fuel coll a o :
  walk_up fuel coll a o = Some false → ∀ n, ¬ on_chain coll a n o.
Proof.
  revert o. induction fuel as [|fuel IH]; intros o; simpl; [done|].
  destruct o as [p|].
  - case_bool_decide as E; [done|].
    destruct (fo_parentId p) as [pid|] eqn:Ep.
    + intros H n Hc.
      inversion Hc as [|n' p' pid' Hne Hp Hc']; subst; [done|].
      rewrite Ep in Hp. injection Hp as <-. by eapply IH.
    + intros _ n Hc. inversion Hc; subst; congruence.
  - intros _ n Hc. inversion Hc.
Qed.

Lemma findOne_sat P coll g : findOne P coll = Some g → P g = true ∧ ∃ k, coll !! k = Some g.
Proof.
  unfold findOne, find. intros H.
  assert (g ∈ List.filter P (map_to_list coll).*2) as Hin.
  { destruct (List.filter P _); [done|]. injection H as ->. left. }
  apply list_elem_of_In, filter_In in Hin as [Hin HP]. split; [done|].
  apply list_elem_of_In, list_elem_of_fmap in Hin as ([k g'] & -> & Hin).
  apply elem_of_map_to_list in Hin. eauto.
Qed.

Lemma findOne_is_Some P coll k g :
  coll !! k = Some g → P g = true → is_Some (findOne P coll).
Proof.
  intros Hk HP. unfold findOne, find.
  assert (g ∈ List.filter P (map_to_list coll).*2) as Hin.
  { apply list_elem_of_In, filter_In. split; [|done].
    apply list_elem_of_In, list_elem_of_fmap. exists (k, g). split; [done|].
    by apply elem_of_map_to_list. }
  destruct (List.filter P _); [by apply elem_of_nil in Hin|]. by eexists.
Qed.

Lemma moveFolder_accepted fuel coll uid fid pid coll1 f :
  moveFolder fuel coll uid fid (Some pid) = Some (coll1, Ok f) →
  pid ≠ fid
  ∧ (∀ n, ¬ on_chain coll fid n (coll !! pid))
  ∧ fo_id f = fid ∧ fo_userId f = uid ∧ fo_parentId f = Some pid.
Proof.
  unfold moveFolder.
  destruct (findOne _ coll) as [folder|] eqn:Ef; [|done].
  apply findOne_sat in Ef as [Ef _].
  apply andb_true_iff in Ef as [Ei Eu]. apply bool_decide_eq_true in Ei, Eu.
  case_bool_decide as Eself; [done|].
  destruct (findOne (λ f0, bool_decide (fo_id f0 = pid) && _) coll) as [target|] eqn:Et;
    [|done].
  unfold wouldCreateCircle. rewrite Ei.
  case_bool_decide as Ep; [done|].
  destruct (walk_up fuel coll fid (coll !! pid)) as [[|]|] eqn:Ew; [done| |done].
  destruct (findOne (λ f0, bool_decide (fo_userId f0 = uid)
                           && bool_decide (fo_parentId f0 = Some pid)
                           && bool_decide (fo_name f0 = fo_name folder)
                           && negb (bool_decide (fo_id f0 = fid))) coll) as [dup|];
    [done|].
  unfold save. intros [= <- <-].
  split; [congruence|]. split; [by apply (walk_up_false _ _ _ _ Ew)|].
  unfold pre_save, with_parentId. simpl.
  destruct (negb _); simpl; [|by eauto].
  destruct (coll !! pid); simpl; eauto.
Qed.

Lemma moveFolder_refused fuel coll uid fid pid folder target n :
  findOne (λ g, bool_decide (fo_id g = fid) && bool_decide (fo_userId g = uid)) coll
  = Some folder →
  findOne (λ g, bool_decide (fo_id g = pid) && bool_decide (fo_userId g = uid)) coll
  = Some target →
  on_chain coll fid n (coll !! pid) →
  (n < fuel)%nat →
  ∃ e, moveFolder fuel coll uid fid (Some pid) = Some (coll, Throw e)
       ∧ code e = VALIDATION_ERROR
       ∧ message e = (if decide (pid = fid) then "Cannot move folder into itself"
                      else "Cannot move folder into its own subfolder").
Proof.
  intros Ef Et Hc Hn. unfold moveFolder. rewrite Ef.
  apply findOne_sat in Ef as [Ef _].
  apply andb_true_iff in Ef as [Ei Eu]. apply bool_decide_eq_true in Ei, Eu.
  destruct (decide (pid = fid)) as [->|Hne].
  - rewrite bool_decide_eq_true_2 by done. by eexists.
  - rewrite bool_decide_eq_false_2 by congruence. rewrite Et.
    unfold wouldCreateCircle. rewrite Ei.
    rewrite bool_decide_eq_false_2 by done.
    assert (walk_up fuel coll fid (coll !! pid) = Some true) as ->.
    { apply walk_up_true. eauto. }
    by eexists.
Qed.

(** X27: the cycle check of moveFolder, in both directions.  A move that is
    accepted never puts a folder under itself: the new parent is another
    folder and the walk from it towards the root never meets the folder.
    Conversely, when the folder and the target exist for the user and the walk
    from the target meets the folder within the bound of the loop, the move is
    refused with VALIDATION_ERROR and the collection is unchanged. *)
Theorem moveFolder_cycle_check fuel coll uid fid pid :
  (∀ coll1 f, moveFolder fuel coll uid fid (Some pid) = Some (coll1, Ok f) →
     pid ≠ fid
     ∧ (∀ n, ¬ on_chain coll fid n (coll !! pid))
     ∧ fo_id f = fid ∧ fo_userId f = uid ∧ fo_parentId f = Some pid)
  ∧ (∀ folder target n,
       findOne (λ g, bool_decide (fo_id g = fid) && bool_decide (fo_userId g = uid)) coll
       = Some folder →
       findOne (λ g, bool_decide (fo_id g = pid) && bool_decide (fo_userId g = uid)) coll
       = Some target →
       on_chain coll fid n (coll !! pid) →
       (n < fuel)%nat →
       ∃ e, moveFolder fuel coll uid fid (Some pid) = Some (coll, Throw e)
            ∧ code e = VALIDATION_ERROR).
Proof.
  split.
  - intros coll1 f. apply moveFolder_accepted.
  - intros folder target n Ef Et Hc Hn.
    destruct (moveFolder_refused fuel coll uid fid pid folder target n Ef Et Hc Hn)
      as (e & He & Hcode & _).
    by exists e.
Qed.

(** The folder /a of the examples cannot be moved into its own subfolder /a/b. *)
Example moveFolder_into_subfolder_refused :
  thrown_code <$> (snd <$> moveFolder 10 Examples.folders0 "u1" "id1" (Some "id2"))
  = Some (Some VALIDATION_ERROR).
Proof. reflexivity. Qed.

(** X28: names are unique among the folders of one user under one parent.
    After createFolder has made a folder under a fresh id, a second createFolder
    of the same user under the same parent, with any name that sanitizes to the
    same text, is refused with VALIDATION_ERROR and changes nothing. *)
Theorem createFolder_rejects_duplicate newId newId2 coll uid name name2 pid coll1 f :
  coll !! newId = None →
  createFolder newId coll uid name pid = (coll1, Ok f) →
  _sanitizeName name2 = _sanitizeName name →
  coll1 = <[newId := f]> coll
  ∧ fo_userId f = uid ∧ fo_parentId f = pid ∧ Some (fo_name f) = _sanitizeName name
  ∧ createFolder newId2 coll1 uid name2 pid
    = (coll1, Throw (ValidationError "Folder with this name already exists")).
Proof.
  intros Hfresh Hc Hs. unfold createFolder in *. rewrite Hs.
  destruct (_sanitizeName name) as [[|c n]|] eqn:Es; [done| |done].
  set (parent_ok := λ coll0 : gmap string Folder,
         match pid with
         | Some p => bool_decide (is_Some (findOne (λ g, bool_decide (fo_id g = p)
                                              && bool_decide (fo_userId g = uid)) coll0))
         | None => true
         end).
  fold (parent_ok coll) in Hc. fold (parent_ok coll1).
  destruct (parent_ok coll) eqn:Ep; [|done]. simpl in Hc.
  destruct (findOne _ coll) as [dup|]; [done|].
  unfold save in Hc. injection Hc as <- <-.
  set (f := pre_save coll true true (mkFolder newId uid (String c n) pid "/" 0)).
  assert (fo_id f = newId ∧ fo_userId f = uid ∧ fo_parentId f = pid
          ∧ fo_name f = String c n) as (Fi & Fu & Fp & Fn).
  { unfold f, pre_save. simpl. destruct pid as [p|]; [|done].
    by destruct (coll !! p). }
  rewrite Fi. split; [done|]. split; [done|]. split; [done|]. split; [by rewrite Fn|].
  assert (parent_ok (<[newId := f]> coll) = true) as ->.
  { unfold parent_ok in *. destruct pid as [p|]; [|done].
    apply bool_decide_eq_true in Ep as [g Hg]. apply findOne_sat in Hg as [HP [k Hk]].
    apply bool_decide_eq_true. apply (findOne_is_Some _ _ k g); [|done].
    rewrite lookup_insert_ne; [done|]. intros <-. congruence. }
  simpl.
  destruct (findOne_is_Some
              (λ g, bool_decide (fo_userId g = uid) && bool_decide (fo_parentId g = pid)
                    && bool_decide (fo_name g = String c n))
              (<[newId := f]> coll) newId f) as [d ->]; [|  |done].
  - by rewrite lookup_insert_eq.
  - by rewrite !bool_decide_eq_true_2.
Qed.

Lemma createFolder_rejects_duplicate_witness :
  let out := createFolder "id1" ∅ "u1" "a" None in
  let f := mkFolder "id1" "u1" "a" None "/a" 0 in
  out.1 = <["id1" := f]> ∅
  ∧ fo_userId f = "u1" ∧ fo_parentId f = None ∧ Some (fo_name f) = _sanitizeName "a"
  ∧ createFolder "id9" out.1 "u1" " a?" None
    = (out.1, Throw (ValidationError "Folder with this name already exists")).
Proof.
  apply (createFolder_rejects_duplicate "id1" "id9" ∅ "u1" "a" " a?" None).
  - reflexivity.
  - reflexivity.
  - reflexivity.
Defined.

End FolderMore.

(** ** The User model: lockout and refresh tokens *)

Section AccountProps.

Import Account.

Lemma slice_last_app_one {A} (l : list A) (x : A) :
  (5 ≤ length l)%nat → slice_last 4 l ++ [x] = slice_last 5 (l ++ [x]).
Proof.
  intros H. unfold slice_last. rewrite length_app. simpl.
  replace (length l + 1 - 5)%nat with (length l - 4)%nat by lia.
  rewrite drop_app_le by lia. done.
Qed.

(** X29: a run of failed logins after a reset (the counter is never negative)
    counts each failure, and the account is locked exactly from the fifth
    failure on, until 15 minutes after the last failure. *)
Theorem failures_lock_at_five ts u :
  0 ≤ failedLoginAttempts u →
  let u' := failures ts (resetFailedLogins u) in
  failedLoginAttempts u' = Z.of_nat (length ts)
  ∧ lockoutUntil u'
    = (if decide (5 ≤ length ts)%nat then (λ t, t + 15 * 60 * 1000) <$> last ts else None)
  ∧ ∀ t, isLockedOut t u' = true ↔
         (5 ≤ length ts)%nat ∧ ∃ l, last ts = Some l ∧ t < l + 15 * 60 * 1000.
Proof.
  intros Hu.
  assert (let u' := failures ts (resetFailedLogins u) in
          failedLoginAttempts u' = Z.of_nat (length ts)
          ∧ lockoutUntil u'
            = if decide (5 ≤ length ts)%nat then (λ t, t + 15 * 60 * 1000) <$> last ts
              else None) as H.
  { induction ts as [|t ts IH] using rev_ind; simpl.
    - unfold failures, resetFailedLogins; simpl.
      destruct (_ || _) eqn:E; simpl; [done|].
      apply orb_false_iff in E as [E1 E2].
      apply bool_decide_eq_false in E2.
      destruct (lockoutUntil u); [exfalso; apply E2; eauto|].
      split; [lia|done].
    - destruct IH as [IH1 IH2]. unfold failures in *. rewrite foldl_app.
      cbn [foldl]. set (u0 := foldl _ _ ts) in *.
      unfold incrementFailedLogins. rewrite IH1, length_app, last_snoc.
      destruct (Z.of_nat (length ts) + 1 >=? 5) eqn:E;
        cbn [failedLoginAttempts lockoutUntil length]; rewrite ?IH2.
      + rewrite decide_True by lia. split; [lia|done].
      + rewrite decide_False by lia. rewrite decide_False by lia. split; [lia|done]. }
  destruct H as [H1 H2]. split; [done|]. split; [done|].
  intros t. unfold isLockedOut. rewrite H2.
  destruct (decide (5 ≤ length ts)%nat) as [Hn|Hn].
  - destruct (last ts) as [l|]; simpl.
    + split.
      * intros Hl. split; [done|]. exists l. split; [done|lia].
      * intros (_ & l' & [= <-] & Hl). lia.
    + split; [done|]. by intros (_ & l' & ? & _).
  - split; [done|]. by intros [? _].
Qed.

Lemma failures_lock_at_five_witness :
  let u' := failures [1000; 2000; 3000; 4000; 5000]
              (resetFailedLogins (mkAccount [] 3 (Some 0))) in
  failedLoginAttempts u' = 5
  ∧ lockoutUntil u' = Some 905000
  ∧ ∀ t, isLockedOut t u' = true ↔
         (5 ≤ 5)%nat ∧ ∃ l, Some 5000 = Some l ∧ t < l + 15 * 60 * 1000.
Proof.
  apply (failures_lock_at_five [1000; 2000; 3000; 4000; 5000] (mkAccount [] 3 (Some 0))).
  simpl. lia.
Defined.

(** X30: addRefreshToken keeps the five most recent tokens: after the call the
    list holds at most five tokens, the new one is the last, and the list is
    the last five entries of the old list extended with the new token. *)
Theorem addRefreshToken_keeps_latest_five tok e u :
  let ts := refreshTokens (addRefreshToken tok e u) in
  (length ts ≤ 5)%nat
  ∧ last ts = Some (mkToken tok e)
  ∧ ts = slice_last 5 (refreshTokens u ++ [mkToken tok e]).
Proof.
  unfold addRefreshToken; cbn [refreshTokens].
  destruct (5 <=? length (refreshTokens u))%nat eqn:E.
  - apply Nat.leb_le in E. split_and!.
    + rewrite length_app. unfold slice_last. rewrite length_drop. simpl. lia.
    + by rewrite last_snoc.
    + by apply slice_last_app_one.
  - apply Nat.leb_gt in E. split_and!.
    + rewrite length_app. simpl. lia.
    + by rewrite last_snoc.
    + unfold slice_last. rewrite length_app. simpl.
      by replace (length (refreshTokens u) + 1 - 5)%nat with 0%nat by lia.
Qed.

End AccountProps.
